(** * finplan: historical-return fetcher and CSV analysis utility

    A shallow embedding of [scripts/fetch_historical_returns.py] and
    [data/analyze_inflation.py], followed by the properties of the cache
    store, the fallback chain, the statistics engine, the source adapters,
    the distribution rules and the exporter.

    The first part holds the model, one module per component: [Cache],
    [Stats], [Adapters], [Orchestrator], [Inflation], [DecimalText] and
    [Exporter], and the sample inputs.  The second part holds the
    properties, in the modules named after them.

    Conventions of the embedding.
    - A Python [float] is a real number ([R]): the arithmetic is exact,
      rounding and overflow of binary64 are not modelled.  A float that
      may be NaN is [option R], [None] standing for NaN; a comparison
      with NaN is false.
    - Calls into numpy are written out on lists; the skewness and kurtosis
      estimators of pandas, the md5 digest, the network and the Yahoo
      Finance service are variables of the sections that use them.
    - A raised exception is a value of [exn]; a call that may raise returns
      a [result].
    - The files of the cache directory are a finite map from file names to
      contents and modification times.
    - The text of a number is built from its decimal digits, as the format
      specifications of the f-strings print them.
    - Console output of the fetcher is not part of the state; the lines
      printed by the CSV utility are. *)

From Stdlib Require Import Reals Lra Lia ZArith String Ascii List.
From stdpp Require Import base option list gmap strings.

(** ** Python exceptions and fallible results *)

Inductive exn : Type :=
| ValueError (msg : string)
| ImportError (msg : string)
| ZeroDivisionError (msg : string)
| IndexError (msg : string)
| URLError (reason : string).

(** [str(e)] *)
Definition exn_str (e : exn) : string :=
  match e with
  | ValueError msg | ImportError msg | ZeroDivisionError msg | IndexError msg => msg
  | URLError reason => "<urlopen error " ++ reason ++ ">"
  end.

Inductive result (A : Type) : Type :=
| Ok (a : A)
| Raise (e : exn).
Arguments Ok {A} a.
Arguments Raise {A} e.

Definition is_ok {A} (r : result A) : bool :=
  match r with Ok _ => true | Raise _ => false end.

Definition rbind {A B} (r : result A) (k : A -> result B) : result B :=
  match r with
  | Ok a => k a
  | Raise e => Raise e
  end.

Notation "'let*' x ':=' r 'in' k" := (rbind r (fun x => k))
  (at level 10, x name, r at level 100, k at level 200).

(** Order on the reals is decidable; the instances let [bool_decide] stand
    for Python's comparison operators. *)
#[global] Instance Rlt_decision (x y : R) : Decision (x < y)%R := Rlt_dec x y.
#[global] Instance Rle_decision (x y : R) : Decision (x <= y)%R := Rle_dec x y.
#[global] Instance Req_decision : EqDecision R := Req_dec_T.

(** ** Cache store (fetch_historical_returns.py, lines 92-139 and 1504-1512) *)

Module Cache.
Open Scope R_scope.

Abbreviation bytes := (list Byte.byte).

(** A file of the cache directory: what [write_bytes] stored and the
    modification time the file system stamped on it (seconds). *)
Record file : Type := { content : bytes; st_mtime : R }.

(** The module-level globals the cache code reads or writes. *)
Record globals : Type := { CACHE_MAX_AGE_DAYS : Z }.

(** [cache_dir = None]: the directory [CACHE_DIR] does not exist.
    [net_log]: the URLs handed to [urlopen] so far, most recent first. *)
Record world : Type := {
  glob : globals;
  cache_dir : option (gmap string file);
  net_log : list string
}.

(** Line 93: [CACHE_MAX_AGE_DAYS = 30], executed at import. *)
Definition initial_globals : globals := {| CACHE_MAX_AGE_DAYS := 30 |}.

(** Line 102: [def is_cache_valid(cache_path, max_age_days=CACHE_MAX_AGE_DAYS)].
    Python evaluates a default argument once, when the [def] statement runs;
    at that point the global holds its import-time value. *)
Definition is_cache_valid_default : Z := CACHE_MAX_AGE_DAYS initial_globals.

Section WithLibraries.
(** [hashlib.md5(url.encode()).hexdigest()] *)
Variable md5_hexdigest : string -> string.
(** [urlopen(req, timeout=60).read()]: the payload served for a URL, which
    may depend on how many requests were made before, or the exception
    of a transport failure. *)
Variable urlopen : nat -> string -> result bytes.

Definition get_cache_path (url suffix : string) : string :=
  (String.substring 0 12 (md5_hexdigest url) ++ suffix)%string.

Definition path_lookup (w : world) (cache_path : string) : option file :=
  match cache_dir w with
  | None => None
  | Some d => d !! cache_path
  end.

Definition is_cache_valid (now : R) (w : world) (cache_path : string)
    (max_age_days : Z) : bool :=
  match path_lookup w cache_path with
  | None => false
  | Some f => bool_decide (now - st_mtime f < IZR (max_age_days * 86400))
  end.

(** [CACHE_DIR.mkdir(exist_ok=True)] *)
Definition mkdir_exist_ok (d : option (gmap string file)) : gmap string file :=
  match d with
  | None => ∅
  | Some m => m
  end.

(** [save_to_cache]; [now] is the time at which the file is written. *)
Definition save_to_cache (now : R) (data : bytes) (url suffix : string)
    (w : world) : world :=
  {| glob := glob w;
     cache_dir := Some (<[get_cache_path url suffix :=
                           {| content := data; st_mtime := now |}]>
                         (mkdir_exist_ok (cache_dir w)));
     net_log := net_log w |}.

(** [load_from_cache] calls [is_cache_valid(cache_path)] with one argument. *)
Definition load_from_cache (now : R) (url suffix : string) (w : world)
    : option bytes :=
  let cache_path := get_cache_path url suffix in
  if is_cache_valid now w cache_path is_cache_valid_default
  then content <$> path_lookup w cache_path
  else None.

(** [fetch_url_cached]; the download takes [elapsed] seconds, so the file
    is stamped [now + elapsed]. *)
Definition fetch_url_cached (now elapsed : R) (url suffix : string)
    (w : world) : result bytes * world :=
  match load_from_cache now url suffix w with
  | Some cached => (Ok cached, w)
  | None =>
      let w' := {| glob := glob w; cache_dir := cache_dir w;
                   net_log := url :: net_log w |} in
      match urlopen (length (net_log w)) url with
      | Raise e => (Raise e, w')
      | Ok data => (Ok data, save_to_cache (now + elapsed) data url suffix w')
      end
  end.

(** The cache-related options of a run. *)
Record args : Type := { cache_days : Z; clear_cache : bool }.

(** [main], lines 1504-1512: the global is assigned, then the directory is
    removed when asked. *)
Definition main_cache_setup (a : args) (w : world) : world :=
  let g := {| CACHE_MAX_AGE_DAYS := cache_days a |} in
  {| glob := g;
     cache_dir := if clear_cache a then None else cache_dir w;
     net_log := net_log w |}.

(** A sequence of calls for one URL, each at a time of its own (with the
    duration its download would take). *)
Fixpoint read_many (times : list (R * R)) (url suffix : string) (w : world)
    : list (result bytes) * world :=
  match times with
  | [] => ([], w)
  | (t, elapsed) :: ts =>
      let '(r, w1) := fetch_url_cached t elapsed url suffix w in
      let '(rs, w2) := read_many ts url suffix w1 in
      (r :: rs, w2)
  end.

End WithLibraries.
End Cache.

(** ** Statistics engine (fetch_historical_returns.py, lines 168-235) *)

Module Stats.
Open Scope R_scope.

(** [AssetStats]; the float fields that numpy or pandas may return as NaN
    are [option R]. *)
Record AssetStats : Type := {
  name : string;
  description : string;
  source : string;
  start_year : Z;
  end_year : Z;
  num_years : nat;
  annual_returns : list R;
  arithmetic_mean : R;
  geometric_mean : R;
  std_dev : option R;
  min_return : R;
  max_return : R;
  skewness : option R;
  kurtosis : option R
}.

(** A pandas [Series] of annual values: the index (a year) and the value,
    [None] for a missing (NaN) entry. *)
Definition series : Type := list (Z * option R).

(** [returns.dropna()] *)
Fixpoint dropna (s : series) : list (Z * R) :=
  match s with
  | [] => []
  | (y, Some v) :: rest => (y, v) :: dropna rest
  | (_, None) :: rest => dropna rest
  end.

Definition Rsum (l : list R) : R := fold_right Rplus 0 l.

(** [np.prod] *)
Definition np_prod (l : list R) : R := fold_right Rmult 1 l.

(** [np.mean] of a non-empty array *)
Definition np_mean (l : list R) : R := Rsum l / INR (length l).

(** [np.std(arr, ddof=1)]: the divisor is [n - 1]; with a single
    observation numpy divides zero by zero and returns NaN (with a
    warning, not an exception). *)
Definition np_std_ddof1 (l : list R) : option R :=
  if (length l <=? 1)%nat then None
  else Some (sqrt (Rsum (map (fun x => (x - np_mean l) ^ 2) l)
                   / INR (length l - 1))).

(** [np.min], [np.max] and [index.min()], [index.max()]; the argument is
    the head and the tail of a non-empty array. *)
Definition np_min (x : R) (l : list R) : R := fold_right Rmin x l.
Definition np_max (x : R) (l : list R) : R := fold_right Rmax x l.
Definition index_min (y : Z) (l : list Z) : Z := fold_right Z.min y l.
Definition index_max (y : Z) (l : list Z) : Z := fold_right Z.max y l.

(** [cumulative ** (1 / len(arr))] for a positive base *)
Definition float_pow (base exponent : R) : R := Rpower base exponent.

(** Lines 212-218 *)
Definition geo_mean (arr : list R) : R :=
  let cumulative := np_prod (map (fun r => 1 + r) arr) in
  if bool_decide (cumulative > 0)
  then float_pow cumulative (1 / INR (length arr)) - 1
  else -1.

Section WithPandas.
(** [pd.Series(arr).skew()] and [pd.Series(arr).kurtosis()]: the
    bias-corrected estimators of pandas, NaN below three and four
    observations. *)
Variables pd_skew pd_kurtosis : list R -> option R.

Definition compute_stats (name description source : string) (returns : series)
    : result AssetStats :=
  let returns := dropna returns in
  let arr := map snd returns in
  match returns with
  | [] => Raise (ValueError ("No valid returns data for " ++ name))
  | (y0, r0) :: rest =>
      Ok {| name := name;
            description := description;
            source := source;
            start_year := index_min y0 (map fst rest);
            end_year := index_max y0 (map fst rest);
            num_years := length arr;
            annual_returns := arr;
            arithmetic_mean := np_mean arr;
            geometric_mean := geo_mean arr;
            std_dev := np_std_ddof1 arr;
            min_return := np_min r0 (map snd rest);
            max_return := np_max r0 (map snd rest);
            skewness := pd_skew arr;
            kurtosis := pd_kurtosis arr |}
  end.

(** The record [compute_stats] builds from the retained points. *)
Definition stats_of (name description source : string) (y0 : Z) (r0 : R)
    (rest : list (Z * R)) : AssetStats :=
  let arr := r0 :: map snd rest in
  {| name := name; description := description; source := source;
     start_year := index_min y0 (map fst rest);
     end_year := index_max y0 (map fst rest);
     num_years := length arr;
     annual_returns := arr;
     arithmetic_mean := np_mean arr;
     geometric_mean := geo_mean arr;
     std_dev := np_std_ddof1 arr;
     min_return := np_min r0 (map snd rest);
     max_return := np_max r0 (map snd rest);
     skewness := pd_skew arr;
     kurtosis := pd_kurtosis arr |}.

End WithPandas.

(** The geometric mean in the words of the specification:
    [(prod (1 + r_i)) ^ (1/n) - 1] when the product is positive, else the
    sentinel [-1]. *)
Definition spec_geometric_mean (rs : list R) : R :=
  let p := fold_right (fun r acc => (1 + r) * acc) 1 rs in
  match Rlt_dec 0 p with
  | left _ => Rpower p (/ INR (length rs)) - 1
  | right _ => -1
  end.

End Stats.

(** ** Source adapters (lines 467-513, 842-890, 1260-1271) *)

Module Adapters.
Import Stats.
Open Scope R_scope.

(** [series[series.index >= lo]] and [series[series.index < hi]] *)
Definition index_ge (lo : Z) (s : list (Z * R)) : list (Z * R) :=
  filter (fun p => (lo <= fst p)%Z) s.
Definition index_lt (hi : Z) (s : list (Z * R)) : list (Z * R) :=
  filter (fun p => (fst p < hi)%Z) s.

Definition to_series (s : list (Z * R)) : series :=
  map (fun p => (fst p, Some (snd p))) s.

(** [prices.resample("YE").last()] on daily closes given in date order,
    each with the calendar year of its day: one bin per calendar year
    from the first to the last, holding the last close of the year, NaN
    for a year without a row. *)
Definition empty_bins (after before : Z) : list (Z * option R) :=
  map (fun k => ((after + 1 + Z.of_nat k)%Z, None))
      (seq 0 (Z.to_nat (before - after - 1))).

Fixpoint resample_YE_last (rows : list (Z * R)) : list (Z * option R) :=
  match rows with
  | [] => []
  | (y, p) :: rest =>
      match rest with
      | [] => [(y, Some p)]
      | (y', _) :: _ =>
          if (y =? y')%Z then resample_YE_last rest
          else (y, Some p) :: empty_bins y y' ++ resample_YE_last rest
      end
  end.

(** [pct_change()]: the change relative to the previous row, NaN on the
    first row.  Up to pandas 2.x missing values are first filled forward
    ([pad = true]); pandas 3 leaves them ([pad = false]). *)
Fixpoint ffill (prev : option R) (s : list (Z * option R)) : list (Z * option R) :=
  match s with
  | [] => []
  | (y, v) :: rest =>
      let v' := match v with Some _ => v | None => prev end in
      (y, v') :: ffill v' rest
  end.

Fixpoint pct_from (prev : option R) (s : list (Z * option R)) : list (Z * option R) :=
  match s with
  | [] => []
  | (y, v) :: rest =>
      (y, match prev, v with
          | Some a, Some b => Some (b / a - 1)
          | _, _ => None
          end) :: pct_from v rest
  end.

Definition pct_change (pad : bool) (s : list (Z * option R)) : list (Z * option R) :=
  pct_from None (if pad then ffill None s else s).

Section WithLibraries.
Variables pd_skew pd_kurtosis : list R -> option R.
Variable pad : bool.
Variable HAS_YFINANCE : bool.
(** The daily closes Yahoo Finance holds for a ticker at the time of the
    call, in date order, each with the year of its day. *)
Variable yahoo_history : string -> list (Z * R).
(** The unpickled content of the cache file of a request, when
    [is_cache_valid] accepts it. *)
Variable yahoo_cache : string -> Z -> Z -> option (list (Z * R)).

(** [fetch_french_market_returns] from the rows of the annual section that
    parsed: the year, Mkt-RF and RF, in percent.  [current_year] is
    [datetime.now().year]. *)
Definition fetch_french_market_returns (rows : list (Z * R * R))
    (start_year current_year : Z) : result AssetStats :=
  let annual_data :=
    map (fun row => let '(year, mkt_rf, rf) := row in
                    (year, mkt_rf / 100 + rf / 100)) rows in
  let series := index_ge start_year annual_data in
  let series := index_lt current_year series in
  compute_stats pd_skew pd_kurtosis
    "US Market"
    "US Total Stock Market (Fama-French Market Factor)"
    "Kenneth French Data Library, Dartmouth"
    (to_series series).

(** [fetch_yahoo_annual_returns]; [yf.download] returns the rows from
    [start_year-01-01] up to, not including, [(end_year+1)-01-01].  The
    pickle the function writes to the cache before it returns is not read
    again in the call and is left out. *)
Definition fetch_yahoo_annual_returns (current_year : Z) (ticker : string)
    (start_year : Z) (end_year : option Z) : result (list (Z * R)) :=
  if negb HAS_YFINANCE then Raise (ImportError "yfinance is required")
  else
    let end_year :=
      match end_year with
      | Some e => if (e =? 0)%Z then current_year else e
      | None => current_year
      end in
    match yahoo_cache ticker start_year end_year with
    | Some cached => Ok cached
    | None =>
        let data :=
          filter (fun p => (start_year <= fst p)%Z /\ (fst p < end_year + 1)%Z)
                 (yahoo_history ticker) in
        match data with
        | [] => Raise (ValueError ("No data returned for " ++ ticker))
        | _ :: _ =>
            let year_end_prices := resample_YE_last data in
            Ok (dropna (pct_change pad year_end_prices))
        end
    end.

Definition fetch_reits_yahoo (current_year : Z) : result AssetStats :=
  if negb HAS_YFINANCE then Raise (ImportError "yfinance is required")
  else
    let* returns := fetch_yahoo_annual_returns current_year "VNQ" 2004 None in
    compute_stats pd_skew pd_kurtosis
      "REITs"
      "US Real Estate Investment Trusts (via VNQ)"
      "Yahoo Finance"
      (to_series returns).

End WithLibraries.
End Adapters.

(** ** Fallback chain (lines 1081-1111) *)

Module Orchestrator.
Import Stats.

(** The candidates of a chain, in the words of the specification: tried in
    order, the first success returned, each failure appended to a trace as
    [(adapter id, error)]. *)
Fixpoint first_success {A} (candidates : list (string * result A))
    (trace : list (string * exn)) : list (string * exn) * option (string * A) :=
  match candidates with
  | [] => (trace, None)
  | (id, Ok a) :: _ => (trace, Some (id, a))
  | (id, Raise e) :: rest => first_success rest (trace ++ [(id, e)])
  end.

(** [errors.append(f"{label}: {e}")] *)
Definition trace_entry (p : string * exn) : string :=
  (fst p ++ ": " ++ exn_str (snd p))%string.

(** The candidates that failed, as the chain sees them. *)
Definition failures (failed : list (string * exn)) : list (string * result AssetStats) :=
  map (fun p => (fst p, Raise (snd p))) failed.

(** What the chain of the specification yields, in the terms of the code:
    the list [errors] and the value returned or the exception raised. *)
Definition outcome (r : list (string * exn) * option (string * AssetStats))
    : list string * result AssetStats :=
  let errors := map trace_entry (fst r) in
  match snd r with
  | Some (_, stats) => (errors, Ok stats)
  | None =>
      (errors,
       Raise (ValueError ("Could not fetch S&P 500 data: "
                          ++ String.concat "; " errors)))
  end.

Section Sources.
Variables pd_skew pd_kurtosis : list R -> option R.
Variables HAS_OPENPYXL HAS_YFINANCE : bool.
(** What each adapter does when called with a start year. *)
Variable fetch_shiller_sp500_returns : Z -> result AssetStats.
Variable fetch_french_market_returns : Z -> result AssetStats.
Variable fetch_yahoo_annual_returns : string -> Z -> result series.

(** One [try: return ... except Exception as e: errors.append(...)]
    statement: the value is returned at once, or the failure is recorded
    and control falls through to the statements that follow. *)
Definition try_return (label : string) (attempt : result AssetStats)
    (errors : list string)
    (fall_through : list string -> list string * result AssetStats)
    : list string * result AssetStats :=
  match attempt with
  | Ok stats => (errors, Ok stats)
  | Raise e => fall_through (errors ++ [trace_entry (label, e)])
  end.

(** The Yahoo attempt of [fetch_sp500_best], lines 1101-1107. *)
Definition sp500_from_yahoo (start_year : Z) : result AssetStats :=
  let* returns := fetch_yahoo_annual_returns "^SP500TR" (Z.max start_year 1988) in
  compute_stats pd_skew pd_kurtosis
    "S&P 500"
    "US Large Cap Stocks (S&P 500 Total Return)"
    "Yahoo Finance"
    returns.

(** [fetch_sp500_best], with the local list [errors] as it stands when the
    function is left, next to what the function returns or raises. *)
Definition fetch_sp500_best_run (start_year : Z)
    : list string * result AssetStats :=
  let errors := [] in
  let all_failed errors :=
    (errors,
     Raise (ValueError ("Could not fetch S&P 500 data: "
                        ++ String.concat "; " errors))) in
  let yahoo errors :=
    if HAS_YFINANCE
    then try_return "Yahoo" (sp500_from_yahoo start_year) errors all_failed
    else all_failed errors in
  let french errors :=
    try_return "French" (fetch_french_market_returns (Z.max start_year 1926))
               errors yahoo in
  if HAS_OPENPYXL
  then try_return "Shiller" (fetch_shiller_sp500_returns start_year) errors french
  else french errors.

(** What the caller of [fetch_sp500_best] receives. *)
Definition fetch_sp500_best (start_year : Z) : result AssetStats :=
  snd (fetch_sp500_best_run start_year).

(** The candidate list of [fetch_sp500_best]: the sources whose capability
    is present, in the order of the code. *)
Definition sp500_candidates (start_year : Z) : list (string * result AssetStats) :=
  (if HAS_OPENPYXL
   then [("Shiller"%string, fetch_shiller_sp500_returns start_year)] else [])
  ++ [("French"%string, fetch_french_market_returns (Z.max start_year 1926))]
  ++ (if HAS_YFINANCE
      then [("Yahoo"%string, sp500_from_yahoo start_year)] else []).

End Sources.
End Orchestrator.

(** ** CSV analysis utility (analyze_inflation.py) *)

Module Inflation.
Open Scope R_scope.

(** The lines the utility prints, one constructor per [print] statement,
    carrying the values the statement formats. *)
Inductive line : Type :=
| Rule
| Title (data_type : string)
| File (file_name : string)
| DataPeriod (first last : string)
| NumberOfYears (n : nat)
| Average (value_name : string) (x : R)
| Median (value_name : string) (x : R)
| Minimum (value_name : string) (x : R)
| Maximum (value_name : string) (x : R)
| MeanMu (mu : R)
| StdDevSigma (sigma : R)
| Normal (mu sigma : R)
| ExcludedWarning (negative_count : nat) (value_name : string)
| Lognormal (mu sigma : R)
| LognormalCannot
| ModernTitle
| NoModernData.

(** A computation that prints and may raise: the lines printed so far and
    the outcome. *)
Definition printer (A : Type) : Type := (list line * result A)%type.

#[global] Instance printer_ret : MRet printer := fun A a => ([], Ok a).
#[global] Instance printer_bind : MBind printer := fun A B k m =>
  match m with
  | (out, Ok a) => let '(out', r) := k a in (out ++ out', r)
  | (out, Raise e) => (out, Raise e)
  end.

Definition print (l : line) : printer unit := ([l], Ok tt).
Definition lift {A} (r : result A) : printer A := ([], r).

Definition Rsum (l : list R) : R := fold_right Rplus 0 l.

(** [mean]: [sum(data) / len(data)] *)
Definition mean (data : list R) : result R :=
  match data with
  | [] => Raise (ZeroDivisionError "division by zero")
  | _ :: _ => Ok (Rsum data / INR (length data))
  end.

(** [std_dev]: the divisor [n - 1] (or [n]) is an integer, and dividing by
    an integer zero raises. *)
Definition std_dev (data : list R) (sample : bool) : result R :=
  let n := Z.of_nat (length data) in
  let* m := mean data in
  let divisor := if sample then (n - 1)%Z else n in
  if (divisor =? 0)%Z then Raise (ZeroDivisionError "float division by zero")
  else Ok (sqrt (Rsum (map (fun x => (x - m) ^ 2) data) / IZR divisor)).

(** [sorted], [min] and [max] on floats *)
Fixpoint insert_sorted (x : R) (l : list R) : list R :=
  match l with
  | [] => [x]
  | y :: rest => if bool_decide (x <= y) then x :: l else y :: insert_sorted x rest
  end.
Definition sorted (l : list R) : list R := fold_right insert_sorted [] l.

Definition py_min (l : list R) : result R :=
  match l with
  | [] => Raise (ValueError "min() arg is an empty sequence")
  | x :: rest => Ok (fold_left Rmin rest x)
  end.
Definition py_max (l : list R) : result R :=
  match l with
  | [] => Raise (ValueError "max() arg is an empty sequence")
  | x :: rest => Ok (fold_left Rmax rest x)
  end.

(** [s.lower()] and [needle in s] *)
Definition lower_ascii (c : ascii) : ascii :=
  let n := nat_of_ascii c in
  if ((65 <=? n) && (n <=? 90))%nat then ascii_of_nat (n + 32) else c.
Fixpoint lower (s : string) : string :=
  match s with
  | EmptyString => EmptyString
  | String c rest => String (lower_ascii c) (lower rest)
  end.
Definition contains (needle s : string) : bool :=
  match String.index 0 needle s with Some _ => true | None => false end.

(** Lines 42-56 *)
Definition classify (file_name : string) : string * string :=
  let filename := lower file_name in
  if contains "inflation" filename then ("INFLATION", "inflation")%string
  else if contains "return" filename || contains "dow" filename
          || contains "sp" filename || contains "s&p" filename
  then ("RETURNS", "return")%string
  else ("DATA", "value")%string.

(** Lines 82-105: the lognormal parameters of a list of rates. *)
Definition lognormal_section (value_name : string) (decimal_values : list R)
    : printer unit :=
  let growth_multipliers := map (fun r => 1 + r) decimal_values in
  let positive_multipliers := filter (fun m => m > 0) growth_multipliers in
  _ ← (if (length positive_multipliers <? length growth_multipliers)%nat
       then
         let negative_count :=
           (length growth_multipliers - length positive_multipliers)%nat in
         print (ExcludedWarning negative_count value_name)
       else mret tt);
  match positive_multipliers with
  | _ :: _ =>
      let log_values := map ln positive_multipliers in
      mu_lognormal ← lift (mean log_values);
      sigma_lognormal ← lift (std_dev log_values true);
      print (Lognormal mu_lognormal sigma_lognormal)
  | [] => print LognormalCannot
  end.

(** The growth multipliers of a list of rates, those that are positive,
    and the number of those that are not. *)
Definition multipliers (values : list R) : list R := map (fun r => 1 + r) values.
Definition positive (values : list R) : list R :=
  filter (fun m => m > 0) (multipliers values).
Definition excluded (values : list R) : nat :=
  length (filter (fun m => ~ m > 0) (multipliers values)).

(** The warning printed before the lognormal line, if any. *)
Definition warning (value_name : string) (values : list R) : list line :=
  match excluded values with
  | O => []
  | S _ => [ExcludedWarning (excluded values) value_name]
  end.

(** The sample mean and the sample standard deviation of a list. *)
Definition sample_mean (l : list R) : R := Rsum l / INR (length l).
Definition sample_std (l : list R) : R :=
  sqrt (Rsum (map (fun x => (x - sample_mean l) ^ 2) l) / INR (length l - 1)).

(** Lines 107-140: the same figures for the rows dated from 1950 on; the
    dates are compared as strings. *)
Definition modern_section (value_name : string) (dates : list string)
    (decimal_values : list R) : printer unit :=
  _ ← print Rule; _ ← print ModernTitle; _ ← print Rule;
  let modern_values :=
    map snd (filter (fun p => String.leb "12/31/1950" (fst p) = true)
                    (zip dates decimal_values)) in
  match modern_values with
  | [] => print NoModernData
  | _ :: _ =>
      _ ← print (NumberOfYears (length modern_values));
      avg ← lift (mean modern_values);
      _ ← print (Average value_name avg);
      mean_modern_normal ← lift (mean modern_values);
      std_modern_normal ← lift (std_dev modern_values true);
      _ ← print (Normal mean_modern_normal std_modern_normal);
      let positive_modern_multipliers :=
        filter (fun m => m > 0) (map (fun r => 1 + r) modern_values) in
      match positive_modern_multipliers with
      | _ :: _ =>
          let log_modern := map ln positive_modern_multipliers in
          mu ← lift (mean log_modern);
          sigma ← lift (std_dev log_modern true);
          print (Lognormal mu sigma)
      | [] => print LognormalCannot
      end
  end.

(** [analyze_data] on the rows [read_csv_data] returned: the [Date] and
    the [Value] column, one entry per row. *)
Definition analyze_data (file_name : string) (dates : list string)
    (raw_values : list R) : printer unit :=
  let decimal_values := map (fun v => v / 100) raw_values in
  let '(data_type, value_name) := classify file_name in
  _ ← print Rule; _ ← print (Title data_type); _ ← print (File file_name);
  _ ← print Rule;
  first ← lift (match dates with
                | [] => Raise (IndexError "list index out of range")
                | d :: _ => Ok d
                end);
  _ ← print (DataPeriod first (List.last dates first));
  _ ← print (NumberOfYears (length decimal_values));
  avg ← lift (mean decimal_values);
  _ ← print (Average value_name avg);
  _ ← print (Median value_name
               (nth (length decimal_values / 2) (sorted decimal_values) 0));
  lo ← lift (py_min decimal_values);
  _ ← print (Minimum value_name lo);
  hi ← lift (py_max decimal_values);
  _ ← print (Maximum value_name hi);
  mean_normal ← lift (mean decimal_values);
  std_normal ← lift (std_dev decimal_values true);
  _ ← print (MeanMu mean_normal);
  _ ← print (StdDevSigma std_normal);
  _ ← print (Normal mean_normal std_normal);
  _ ← lognormal_section value_name decimal_values;
  modern_section value_name dates decimal_values.

End Inflation.

(** ** Decimal text of numbers (the format specifications of the f-strings) *)

Module DecimalText.
Open Scope R_scope.

(** A decimal numeral as it is printed: sign, digits before the point,
    digits after the point (none when there is no point) and the power of
    ten after [e] (none in fixed notation).  Digits are listed most
    significant first. *)
Record numeral : Type := {
  negative : bool;
  int_part : list Z;
  frac_part : list Z;
  exponent : option Z
}.

Definition digits_value (ds : list Z) : Z :=
  fold_left (fun acc d => (10 * acc + d)%Z) ds 0%Z.

(** The number a numeral denotes. *)
Definition numeral_value (d : numeral) : R :=
  (if negative d then -1 else 1)
  * (IZR (digits_value (int_part d))
     + IZR (digits_value (frac_part d)) / 10 ^ length (frac_part d))
  * match exponent d with
    | None => 1
    | Some e => powerRZ 10 e
    end.

(** The last [width] decimal digits of a natural number. *)
Fixpoint digits_fixed (width : nat) (n : Z) : list Z :=
  match width with
  | O => []
  | S w => digits_fixed w (n / 10) ++ [(n mod 10)%Z]
  end.

Fixpoint num_digits_fuel (fuel : nat) (n : Z) : nat :=
  match fuel with
  | O => 1
  | S f => if (n <? 10)%Z then 1%nat else S (num_digits_fuel f (n / 10))
  end.

(** The number of decimal digits of a natural number (one for zero). *)
Definition num_digits (n : Z) : nat := num_digits_fuel (Z.to_nat (Z.log2 n)) n.

(** All the digits of a natural number, without leading zeros. *)
Definition digits (n : Z) : list Z := digits_fixed (num_digits n) n.

Definition digit_char (d : Z) : ascii := ascii_of_nat (48 + Z.to_nat d).

Definition render_digits (ds : list Z) : list ascii := map digit_char ds.

(** The exponent is printed with its sign and at least two digits. *)
Definition render_exponent (e : Z) : list ascii :=
  let a := Z.abs e in
  "e"%char :: (if (e <? 0)%Z then "-"%char else "+"%char)
  :: render_digits (digits_fixed (Nat.max 2 (num_digits a)) a).

Definition render_chars (d : numeral) : list ascii :=
  (if negative d then ["-"%char] else [])
  ++ render_digits (int_part d)
  ++ match frac_part d with
     | [] => []
     | _ :: _ => "."%char :: render_digits (frac_part d)
     end
  ++ match exponent d with
     | None => []
     | Some e => render_exponent e
     end.

Definition render (d : numeral) : string := string_of_list_ascii (render_chars d).

(** [str(n)] of an integer *)
Definition str_int (n : Z) : string :=
  string_of_list_ascii
    ((if (n <? 0)%Z then ["-"%char] else []) ++ render_digits (digits (Z.abs n))).

(** Rounding to the nearest integer, ties to the even one: the rounding of
    the decimal conversions of Python. *)
Definition round_half_even (x : R) : Z :=
  let f := Int_part x in
  let d := x - IZR f in
  if bool_decide (d < 1 / 2) then f
  else if bool_decide (d > 1 / 2) then (f + 1)%Z
  else if Z.even f then f else (f + 1)%Z.

(** [format(x, ".<prec>f")]: fixed notation with [prec] digits after the
    point. *)
Definition numeral_f (prec : nat) (x : R) : numeral :=
  let n := round_half_even (Rabs x * 10 ^ prec) in
  {| negative := bool_decide (x < 0);
     int_part := digits (n / 10 ^ Z.of_nat prec);
     frac_part := digits_fixed prec (n mod 10 ^ Z.of_nat prec);
     exponent := None |}.

Definition fmt_f (prec : nat) (x : option R) : string :=
  match x with
  | None => "nan"
  | Some x => render (numeral_f prec x)
  end.

(** The exponent of the scientific notation of a positive number:
    [10 ^ e <= a < 10 ^ (e + 1)]. *)
Definition decimal_exponent (a : R) : Z := Int_part (ln a / ln 10).

Fixpoint strip_trailing_zeros (ds : list Z) : list Z :=
  match ds with
  | [] => []
  | d :: rest =>
      match strip_trailing_zeros rest with
      | [] => if (d =? 0)%Z then [] else [d]
      | r => d :: r
      end
  end.

(** The layout of [p] significant digits [n0] (rounded, so possibly
    [10 ^ p]) with decimal exponent [e0]: trailing zeros are removed;
    scientific notation when the exponent is below [-4] or at least
    [p - 1]; in fixed notation at least one digit after the point. *)
Definition layout_g (p : nat) (neg : bool) (n0 e0 : Z) : numeral :=
  let '(n, e) :=
    if (n0 =? 10 ^ Z.of_nat p)%Z
    then ((10 ^ (Z.of_nat p - 1))%Z, (e0 + 1)%Z)
    else (n0, e0) in
  let ds := strip_trailing_zeros (digits_fixed p n) in
  let decpt := (e + 1)%Z in
  if ((decpt <=? -4) || (Z.of_nat p - 1 <? decpt))%Z
  then {| negative := neg; int_part := take 1 ds; frac_part := drop 1 ds;
          exponent := Some e |}
  else if (decpt <=? 0)%Z
  then {| negative := neg; int_part := [0%Z];
          frac_part := replicate (Z.to_nat (- decpt)) 0%Z ++ ds;
          exponent := None |}
  else if (Z.of_nat (length ds) <=? decpt)%Z
  then {| negative := neg;
          int_part := ds ++ replicate (Z.to_nat decpt - length ds) 0%Z;
          frac_part := [0%Z]; exponent := None |}
  else {| negative := neg; int_part := take (Z.to_nat decpt) ds;
          frac_part := drop (Z.to_nat decpt) ds; exponent := None |}.

(** [format(x, ".<p>")], a precision without a presentation type: [p]
    significant digits of [x], laid out as for [g]. *)
Definition numeral_g (p : nat) (x : R) : numeral :=
  if bool_decide (x = 0)
  then {| negative := false; int_part := [0%Z]; frac_part := [0%Z];
          exponent := None |}
  else
    let a := Rabs x in
    let e0 := decimal_exponent a in
    let n0 := round_half_even (a * powerRZ 10 (Z.of_nat p - 1 - e0)) in
    layout_g p (bool_decide (x < 0)) n0 e0.

Definition fmt_g (p : nat) (x : option R) : string :=
  match x with
  | None => "nan"
  | Some x => render (numeral_g p x)
  end.

(** Reading a printed numeral back. *)
Definition digit_of_char (c : ascii) : option Z :=
  let n := nat_of_ascii c in
  if ((48 <=? n) && (n <=? 57))%nat then Some (Z.of_nat (n - 48)) else None.

Fixpoint read_digits (s : list ascii) : list Z * list ascii :=
  match s with
  | [] => ([], [])
  | c :: rest =>
      match digit_of_char c with
      | Some d => let '(ds, r) := read_digits rest in (d :: ds, r)
      | None => ([], s)
      end
  end.

Definition read_exponent (s : list ascii) : option (option Z) :=
  match s with
  | [] => Some None
  | c :: sign :: rest =>
      if bool_decide (c = "e"%char) then
        match read_digits rest with
        | ((_ :: _) as ds, []) =>
            if bool_decide (sign = "-"%char)
            then Some (Some (- digits_value ds)%Z)
            else if bool_decide (sign = "+"%char)
            then Some (Some (digits_value ds))
            else None
        | _ => None
        end
      else None
  | _ => None
  end.

Definition read_numeral (s : string) : option numeral :=
  let s := list_ascii_of_string s in
  let '(neg, s) :=
    match s with
    | c :: rest => if bool_decide (c = "-"%char) then (true, rest) else (false, s)
    | [] => (false, s)
    end in
  let '(ip, s) := read_digits s in
  match ip with
  | [] => None
  | _ :: _ =>
      let '(fp, s) :=
        match s with
        | c :: rest =>
            if bool_decide (c = "."%char) then read_digits rest else ([], s)
        | [] => ([], s)
        end in
      e ← read_exponent s;
      Some {| negative := neg; int_part := ip; frac_part := fp; exponent := e |}
  end.

(** The number a printed text reads back as. *)
Definition read_decimal (s : string) : option R :=
  numeral_value <$> read_numeral s.

(** A list of decimal digits. *)
Definition all_digits (ds : list Z) : Prop := Forall (fun d => (0 <= d <= 9)%Z) ds.

(** A text at which the reading of digits stops. *)
Definition stops (rest : list ascii) : Prop :=
  match rest with
  | [] => True
  | c :: _ => digit_of_char c = None
  end.

(** The characters of the fraction and of the exponent of a numeral. *)
Definition frac_chars (fp : list Z) : list ascii :=
  match fp with
  | [] => []
  | _ :: _ => "."%char :: render_digits fp
  end.

Definition exp_chars (ex : option Z) : list ascii :=
  match ex with
  | None => []
  | Some e => render_exponent e
  end.

(** A numeral as the formats print them: at least one digit before the
    point, and digits only. *)
Definition well_formed (d : numeral) : Prop :=
  int_part d <> [] /\ all_digits (int_part d) /\ all_digits (frac_part d).

(** The factor of the sign of a numeral. *)
Definition sign_factor (neg : bool) : R := if neg then -1 else 1.

End DecimalText.

(** ** Distribution rules and exporter (lines 186-201, 1334-1386, 1579-1602) *)

Module Exporter.
Import Stats DecimalText.
Open Scope R_scope.

(** [compute_student_t_scale] *)
Definition compute_student_t_scale (std_dev df : R) : result R :=
  if bool_decide (df <= 2)
  then Raise (ValueError "df must be > 2 for finite variance")
  else Ok (std_dev * sqrt ((df - 2) / df)).

(** [s.upper()] and [s.replace(old, new)] for single characters *)
Definition upper_ascii (c : ascii) : ascii :=
  let n := nat_of_ascii c in
  if ((97 <=? n) && (n <=? 122))%nat then ascii_of_nat (n - 32) else c.

Fixpoint map_string (f : ascii -> ascii) (s : string) : string :=
  match s with
  | EmptyString => EmptyString
  | String c rest => String (f c) (map_string f rest)
  end.

Definition upper (s : string) : string := map_string upper_ascii s.
Definition replace (old new : ascii) (s : string) : string :=
  map_string (fun c => if bool_decide (c = old) then new else c) s.

Definition rust_name (const_prefix : string) : string :=
  replace "-" "_" (replace " " "_" (upper const_prefix)).

Definition newline : string := String (ascii_of_nat 10) EmptyString.

(** Line 1365: the condition under which the LogNormal constant is
    written; a comparison with NaN is false. *)
Definition lognormal_appropriate (stats : AssetStats) : bool :=
  bool_decide (arithmetic_mean stats > 0)
  && match std_dev stats with
     | Some s => bool_decide (s < arithmetic_mean stats * 3)
     | None => false
     end.

Definition lognormal_lines (stats : AssetStats) (rust_name : string) : list string :=
  [ "    pub const " ++ rust_name
      ++ "_HISTORICAL_LOGNORMAL: ReturnProfile = ReturnProfile::LogNormal {";
    "        mean: " ++ fmt_g 6 (Some (arithmetic_mean stats)) ++ ",";
    "        std_dev: " ++ fmt_g 6 (std_dev stats) ++ ",";
    "    };" ]%string.

Definition student_t_lines (stats : AssetStats) (rust_name : string)
    (scale : R) : list string :=
  [ "    pub const " ++ rust_name
      ++ "_HISTORICAL_STUDENT_T: ReturnProfile = ReturnProfile::StudentT {";
    "        mean: " ++ fmt_g 6 (Some (arithmetic_mean stats)) ++ ",";
    "        scale: " ++ fmt_g 6 (Some scale) ++ ",";
    "        df: 5.0,";
    "    };" ]%string.

(** The lines written for every asset, lines 1351-1362. *)
Definition base_lines (stats : AssetStats) (rust_name : string) : list string :=
  [ "    // " ++ description stats;
    "    // Source: " ++ source stats;
    "    // Data: " ++ str_int (start_year stats) ++ "-"
      ++ str_int (end_year stats) ++ " ("
      ++ str_int (Z.of_nat (num_years stats)) ++ " years)";
    "    // Arithmetic mean: " ++ fmt_f 4 (Some (arithmetic_mean stats))
      ++ ", Geometric mean: " ++ fmt_f 4 (Some (geometric_mean stats));
    "    // Std dev: " ++ fmt_f 4 (std_dev stats)
      ++ ", Skewness: " ++ fmt_f 2 (skewness stats)
      ++ ", Kurtosis: " ++ fmt_f 2 (kurtosis stats);
    "    pub const " ++ rust_name
      ++ "_HISTORICAL_FIXED: ReturnProfile = ReturnProfile::Fixed("
      ++ fmt_g 6 (Some (geometric_mean stats)) ++ ");";
    "    pub const " ++ rust_name
      ++ "_HISTORICAL_NORMAL: ReturnProfile = ReturnProfile::Normal {";
    "        mean: " ++ fmt_g 6 (Some (arithmetic_mean stats)) ++ ",";
    "        std_dev: " ++ fmt_g 6 (std_dev stats) ++ ",";
    "    };" ]%string.

(** The first line of the LogNormal constant. *)
Definition lognormal_header (rust_name : string) : string :=
  ("    pub const " ++ rust_name
   ++ "_HISTORICAL_LOGNORMAL: ReturnProfile = ReturnProfile::LogNormal {")%string.

(** The Student's t block of a record, empty when the rule of line 1375
    does not apply. *)
Definition student_block (stats : AssetStats) (rn : string) : list string :=
  match std_dev stats with
  | Some s =>
      if bool_decide (s > 0.05)
      then student_t_lines stats rn (s * sqrt ((5 - 2) / 5))
      else []
  | None => []
  end.

(** The list [lines] of [format_rust_const] when the function returns. *)
Definition format_rust_const_lines (stats : AssetStats) (const_prefix : string)
    : result (list string) :=
  let rust_name := rust_name const_prefix in
  let lines := base_lines stats rust_name in
  let lines :=
    if lognormal_appropriate stats
    then lines ++ lognormal_lines stats rust_name
    else lines in
  match std_dev stats with
  | Some s =>
      if bool_decide (s > 0.05) then
        let df := 5 in
        let* scale := compute_student_t_scale s df in
        Ok (lines ++ student_t_lines stats rust_name scale)
      else Ok lines
  | None => Ok lines
  end.

Definition format_rust_const (stats : AssetStats) (const_prefix : string)
    : result string :=
  let* lines := format_rust_const_lines stats const_prefix in
  Ok (String.concat newline lines).

(** The data row of the csv output, lines 1596-1598. *)
Definition csv_fields (prefix : string) (stats : AssetStats) : list string :=
  [ prefix; source stats; str_int (start_year stats); str_int (end_year stats);
    fmt_f 6 (Some (arithmetic_mean stats));
    fmt_f 6 (Some (geometric_mean stats));
    fmt_f 6 (std_dev stats);
    fmt_f 4 (skewness stats);
    fmt_f 4 (kurtosis stats) ].

Definition csv_row (prefix : string) (stats : AssetStats) : string :=
  String.concat "," (csv_fields prefix stats).

(** The values [json.dumps] receives. *)
Inductive json_value : Type :=
| JString (s : string)
| JInt (n : Z)
| JFloat (x : option R).

(** [AssetStats.to_dict] *)
Definition to_dict (stats : AssetStats) : list (string * json_value) :=
  [ ("name", JString (name stats));
    ("description", JString (description stats));
    ("source", JString (source stats));
    ("start_year", JInt (start_year stats));
    ("end_year", JInt (end_year stats));
    ("num_years", JInt (Z.of_nat (num_years stats)));
    ("arithmetic_mean", JFloat (Some (arithmetic_mean stats)));
    ("geometric_mean", JFloat (Some (geometric_mean stats)));
    ("std_dev", JFloat (std_dev stats));
    ("min_return", JFloat (Some (min_return stats)));
    ("max_return", JFloat (Some (max_return stats)));
    ("skewness", JFloat (skewness stats));
    ("kurtosis", JFloat (kurtosis stats)) ]%string.

(** [d[key]] on the pairs of a dict *)
Fixpoint dict_get (key : string) (d : list (string * json_value)) : option json_value :=
  match d with
  | [] => None
  | (k, v) :: rest => if String.eqb key k then Some v else dict_get key rest
  end.

End Exporter.

(** ** Calls of the cached fetch for several URLs *)

Module CacheTrace.
Import Cache.

Section WithLibraries.
Variable md5_hexdigest : string -> string.
Variable urlopen : nat -> string -> result bytes.

(** A call of [fetch_url_cached]: the time of the call, the duration of
    its download, the URL and the suffix. *)
Record call : Type := {
  call_time : R;
  call_elapsed : R;
  call_url : string;
  call_suffix : string
}.

(** A sequence of calls, for any URLs, in the order they are made. *)
Fixpoint fetch_many (calls : list call) (w : world)
    : list (result bytes) * world :=
  match calls with
  | [] => ([], w)
  | c :: rest =>
      let '(r, w1) :=
        fetch_url_cached md5_hexdigest urlopen (call_time c) (call_elapsed c)
          (call_url c) (call_suffix c) w in
      let '(rs, w2) := fetch_many rest w1 in
      (r :: rs, w2)
  end.

(** The number of requests for a URL in a request log. *)
Definition requests (url : string) (log : list string) : nat :=
  length (filter (fun u => u = url) log).

End WithLibraries.
End CacheTrace.

(** ** Downloads in date order *)

Module Downloads.

(** The rows of a download come in date order: the years do not decrease. *)
Fixpoint date_ordered (rows : list (Z * R)) : Prop :=
  match rows with
  | [] => True
  | (y, _) :: rest =>
      match rest with
      | [] => True
      | (y', _) :: _ => (y <= y')%Z
      end /\ date_ordered rest
  end.

(** The year of the last row, [y0] for no row. *)
Definition last_year (y0 : Z) (rows : list (Z * R)) : Z :=
  List.last (map fst rows) y0.

End Downloads.

(** ** Bootstrap arrays and the csv header (lines 1389-1445, 1594) *)

Module Bootstrap.
Import Stats DecimalText Exporter.
Open Scope string_scope.

(** [range(0, stop, step)] *)
Definition py_range (stop step : nat) : list nat :=
  map (fun k => (k * step)%nat) (seq 0 ((stop + step - 1) / step)).

(** [l[i:j]] for [i <= j] *)
Definition slice {A} (l : list A) (i j : nat) : list A := take (j - i) (drop i l).

(** [annual_returns[i:i+8] for i in range(0, len(annual_returns), 8)] *)
Definition rows_of_eight {A} (l : list A) : list (list A) :=
  map (fun i => slice l i (i + 8)) (py_range (length l) 8).

(** The text of one row, and the rows joined. *)
Definition row_text (row : list R) : string :=
  String.concat ", " (map (fun r => fmt_f 4 (Some r)) row).

Definition returns_str (annual_returns : list R) : string :=
  String.concat ("," ++ newline ++ "        ")
    (map row_text (rows_of_eight annual_returns)).

Definition format_rust_historical_returns (stats : AssetStats)
    (const_prefix : string) : string :=
  let rust_name := rust_name const_prefix in
  let returns_str := returns_str (annual_returns stats) in
  let lines :=
    [ "    /// " ++ description stats;
      "    /// Source: " ++ source stats;
      "    /// Annual returns " ++ str_int (start_year stats) ++ "-"
        ++ str_int (end_year stats) ++ " ("
        ++ str_int (Z.of_nat (num_years stats)) ++ " years)";
      "    pub const " ++ rust_name ++ "_ANNUAL_RETURNS: &[f64] = &[";
      "        " ++ returns_str;
      "    ];" ] in
  String.concat newline lines.

(** The number of occurrences of a character in a text. *)
Fixpoint count_char (c : ascii) (s : string) : nat :=
  match s with
  | EmptyString => 0
  | String a rest => (if Ascii.eqb a c then 1 else 0) + count_char c rest
  end.

(** The header line of the csv output, line 1594. *)
Definition csv_header : string :=
  "name,source,start_year,end_year,arithmetic_mean,geometric_mean,std_dev,skewness,kurtosis".

(** The first line of the Student's t constant. *)
Definition student_header (rust_name : string) : string :=
  "    pub const " ++ rust_name
  ++ "_HISTORICAL_STUDENT_T: ReturnProfile = ReturnProfile::StudentT {".

(** The sum of a list of numbers. *)
Definition total (l : list nat) : nat := fold_right Nat.add 0%nat l.

(** The characters of a printed number. *)
Definition numeric_char (a : ascii) : Prop :=
  In a (list_ascii_of_string "0123456789-+.ean").

(** The lower-case letters of ASCII. *)
Definition is_lower (c : ascii) : Prop :=
  (97 <= nat_of_ascii c <= 122)%nat.

End Bootstrap.

(** ** CSV utility: the rows of the modern era (lines 112-118) *)

Module Modern.
Import Inflation DecimalText.

(** [modern_values]: the values of the rows whose date, as a text, is not
    before ["12/31/1950"]. *)
Definition modern_values (dates : list string) (decimal_values : list R) : list R :=
  map snd (filter (fun p => String.leb "12/31/1950" (fst p) = true)
                  (zip dates decimal_values)).

(** The date of the last day of a year, as the data files write it. *)
Definition year_end_date (year : Z) : string := "12/31/" ++ str_int year.

(** The comparison of the year-end dates agrees with that of the years,
    checked on a range of years. *)
Definition year_order_agrees (first count : Z) : bool :=
  forallb (fun y => Bool.eqb (String.leb "12/31/1950" (year_end_date y))
                             (1950 <=? y)%Z)
          (seqZ first count).

End Modern.

(** ** Kenneth French adapters (lines 516-739) and the chain for emerging
    markets (lines 1234-1257) *)

Module French.
Import Stats Adapters Orchestrator.
Open Scope R_scope.

Section WithParsers.
Variables pd_skew pd_kurtosis : list R -> option R.
(** [int(text)] and [float(text)]: the number, [None] where Python raises
    [ValueError].  The texts of the data files denote numbers. *)
Variable py_int : string -> option Z.
Variable py_float : string -> option R.

(** [parts[i]] *)
Definition part (parts : list string) (i : nat) : string := nth i parts ""%string.

(** The first field is a year: [int(parts[0])] lies between 1900 and 2100
    and is written with four characters. *)
Definition year_field (parts : list string) : option Z :=
  match py_int (part parts 0) with
  | Some year =>
      if bool_decide (1900 <= year <= 2100)%Z
         && (String.length (part parts 0) =? 4)%nat
      then Some year else None
  | None => None
  end.

(** The body of the loop of each adapter on the fields of a non-blank
    line: the entry appended to [annual_data], [None] when the line is
    skipped.  A field that does not parse raises [ValueError] inside the
    [try] and the line is skipped. *)
Definition market_fields (parts : list string) : option (Z * R * R) :=
  if (5 <=? length parts)%nat then
    year ← year_field parts;
    mkt_rf ← py_float (part parts 1);
    rf ← py_float (part parts 4);
    Some (year, mkt_rf, rf)
  else None.

Definition market_row (parts : list string) : option (Z * R) :=
  if (5 <=? length parts)%nat then
    year ← year_field parts;
    mkt_rf ← py_float (part parts 1);
    rf ← py_float (part parts 4);
    Some (year, mkt_rf / 100 + rf / 100)
  else None.

Definition smb_row (parts : list string) : option (Z * R) :=
  if (3 <=? length parts)%nat then
    year ← year_field parts;
    smb ← py_float (part parts 2);
    Some (year, smb / 100)
  else None.

Definition small_cap_row (parts : list string) : option (Z * R) :=
  if (5 <=? length parts)%nat then
    year ← year_field parts;
    mkt_rf ← py_float (part parts 1);
    smb ← py_float (part parts 2);
    rf ← py_float (part parts 4);
    Some (year, mkt_rf / 100 + rf / 100 + smb / 100)
  else None.

Definition risk_free_row (parts : list string) : option (Z * R) :=
  if (5 <=? length parts)%nat then
    year ← year_field parts;
    rf ← py_float (part parts 4);
    Some (year, rf / 100)
  else None.

Definition emerging_row (parts : list string) : option (Z * R) :=
  if (6 <=? length parts)%nat then
    year ← year_field parts;
    mkt_rf ← py_float (part parts 1);
    rf ← py_float (part parts 5);
    let total_return := mkt_rf / 100 + rf / 100 in
    if bool_decide (total_return > -0.90) then Some (year, total_return) else None
  else None.

(** The year and the three factors of a line of the factors file, in
    percent; a line is complete when, if it starts with a year, it has the
    five fields and the three factors are numbers. *)
Definition factor_fields (parts : list string) : option (Z * R * R * R) :=
  if (5 <=? length parts)%nat then
    year ← year_field parts;
    mkt_rf ← py_float (part parts 1);
    smb ← py_float (part parts 2);
    rf ← py_float (part parts 4);
    Some (year, mkt_rf, smb, rf)
  else None.

Definition complete_line (parts : list string) : Prop :=
  year_field parts <> None ->
  (5 <= length parts)%nat
  /\ is_Some (py_float (part parts 1))
  /\ is_Some (py_float (part parts 2))
  /\ is_Some (py_float (part parts 4)).

(** [series[series.index >= start_year]] and then
    [series[series.index < current_year]] *)
Definition french_window (start_year current_year : Z) (annual_data : list (Z * R))
    : list (Z * R) :=
  index_lt current_year (index_ge start_year annual_data).

(** The adapters.  [content] is what [fetch_french_csv] returned or
    raised, the text cut into its non-blank lines and each line into its
    fields, stripped. *)
Definition fetch_french_smb_returns (content : result (list (list string)))
    (start_year current_year : Z) : result AssetStats :=
  let* lines := content in
  let annual_data := omap smb_row lines in
  compute_stats pd_skew pd_kurtosis
    "Small Cap Premium"
    "Small Minus Big (SMB) Factor - Small Cap Premium over Large Cap"
    "Kenneth French Data Library, Dartmouth"
    (to_series (french_window start_year current_year annual_data)).

Definition fetch_french_small_cap_returns (content : result (list (list string)))
    (start_year current_year : Z) : result AssetStats :=
  let* lines := content in
  let annual_data := omap small_cap_row lines in
  compute_stats pd_skew pd_kurtosis
    "US Small Cap"
    "US Small Cap Stocks (Market + SMB Factor)"
    "Kenneth French Data Library, Dartmouth"
    (to_series (french_window start_year current_year annual_data)).

Definition fetch_french_risk_free_rate (content : result (list (list string)))
    (start_year current_year : Z) : result AssetStats :=
  let* lines := content in
  let annual_data := omap risk_free_row lines in
  compute_stats pd_skew pd_kurtosis
    "T-Bills"
    "US Treasury Bills (Risk-Free Rate)"
    "Kenneth French Data Library, Dartmouth"
    (to_series (french_window start_year current_year annual_data)).

(** [except Exception as e: raise ValueError(f"<what>: {e}")] *)
Definition reraise {A} (what : string) (r : result A) : result A :=
  match r with
  | Ok a => Ok a
  | Raise e => Raise (ValueError (what ++ ": " ++ exn_str e))
  end.

Definition fetch_french_international_returns
    (content : result (list (list string)))
    (start_year current_year : Z) : result AssetStats :=
  reraise "Could not fetch international data"
    (let* lines := content in
     let annual_data := omap market_row lines in
     compute_stats pd_skew pd_kurtosis
       "International Developed"
       "Developed Markets ex-US (Fama-French)"
       "Kenneth French Data Library, Dartmouth"
       (to_series (french_window start_year current_year annual_data))).

Definition fetch_french_emerging_returns
    (content : result (list (list string)))
    (start_year current_year : Z) : result AssetStats :=
  reraise "Could not fetch emerging markets data"
    (let* lines := content in
     let annual_data := omap emerging_row lines in
     match annual_data with
     | [] => Raise (ValueError "No valid data found")
     | _ :: _ =>
         let series := french_window start_year current_year annual_data in
         let cumulative := np_prod (map (fun r => 1 + r) (map snd series)) in
         if bool_decide (cumulative <= 0)
         then Raise (ValueError "Data produces invalid geometric mean")
         else
           compute_stats pd_skew pd_kurtosis
             "Emerging Markets"
             "Emerging Markets (Fama-French)"
             "Kenneth French Data Library, Dartmouth"
             (to_series series)
     end).

(** [fetch_emerging_best]: the French adapter, then Yahoo Finance when
    yfinance is present; [yahoo_returns] is what
    [fetch_yahoo_annual_returns("EEM", 2003)] returns or raises. *)
Variable HAS_YFINANCE : bool.
Variable yahoo_returns : result (list (Z * R)).

Definition emerging_from_yahoo : result AssetStats :=
  let* returns := yahoo_returns in
  compute_stats pd_skew pd_kurtosis
    "Emerging Markets"
    "Emerging Markets (MSCI EM via EEM)"
    "Yahoo Finance"
    (to_series returns).

Definition fetch_emerging_best (content : result (list (list string)))
    (start_year current_year : Z) : result AssetStats :=
  let errors := [] in
  let all_failed errors :=
    (errors,
     Raise (ValueError ("Could not fetch emerging markets data: "
                        ++ String.concat "; " errors))) in
  let yahoo errors :=
    if HAS_YFINANCE
    then try_return "Yahoo" emerging_from_yahoo errors all_failed
    else all_failed errors in
  snd (try_return "French"
         (fetch_french_emerging_returns content start_year current_year)
         errors yahoo).

End WithParsers.
End French.

(** ** FRED adapter for T-bills (lines 924-968) and the chain for T-bills
    (lines 1140-1157) *)

Module Fred.
Import Stats Adapters Orchestrator French.
Open Scope R_scope.

(** The truth value of [os.environ.get(key)]: set and not empty. *)
Definition truthy (value : option string) : bool :=
  match value with
  | Some (String _ _) => true
  | Some EmptyString | None => false
  end.

(** [mean()] of the observations of a bin: missing values are skipped, and
    a bin without a value gives NaN. *)
Definition mean_skipna (observations : list (option R)) : option R :=
  match omap (fun v : option R => v) observations with
  | [] => None
  | x :: xs => Some (np_mean (x :: xs))
  end.

(** [data.resample("YE").mean()] on observations in date order, each with
    the year of its date: one bin per calendar year from the first to the
    last. *)
Definition resample_YE_mean (data : list (Z * option R)) : list (Z * option R) :=
  match data with
  | [] => []
  | (first, _) :: _ =>
      let last := List.last (map fst data) first in
      map (fun year =>
             (year, mean_skipna (map snd (filter (fun p => fst p = year) data))))
          (seqZ first (last - first + 1))
  end.

Section WithFred.
Variables pd_skew pd_kurtosis : list R -> option R.
Variable py_int : string -> option Z.
Variable py_float : string -> option R.
Variable HAS_FRED : bool.
(** The unpickled content of the cache file of a series and a start year,
    when [is_cache_valid] accepts it. *)
Variable fred_cache : string -> Z -> option (list (Z * R)).
(** [Fred(api_key).get_series(series_id, observation_start)]: the monthly
    observations in date order, or the exception of the service. *)
Variable fred_get_series : string -> string -> Z -> result (list (Z * option R)).

(** [fetch_fred_tbills]; [environ] is [os.environ].  The pickle written
    after a download is not read again in the call and is left out. *)
Definition fetch_fred_tbills (environ : gmap string string)
    (start_year current_year : Z) : result AssetStats :=
  if negb HAS_FRED then Raise (ImportError "fredapi is required")
  else
    let api_key := environ !! "FRED_API_KEY"%string in
    match api_key with
    | Some (String c key) =>
        let* annual :=
          match fred_cache "TB3MS" start_year with
          | Some annual => Ok annual
          | None =>
              let* data := fred_get_series (String c key) "TB3MS" start_year in
              let annual :=
                map (fun bin => (fst bin, (fun v => v / 100) <$> snd bin))
                    (resample_YE_mean data) in
              Ok (dropna annual)
          end in
        let annual := index_lt current_year annual in
        compute_stats pd_skew pd_kurtosis
          "T-Bills"
          "US 3-Month Treasury Bills"
          "FRED (TB3MS)"
          (to_series annual)
    | Some EmptyString | None => Raise (ValueError "FRED_API_KEY not set")
    end.

(** [fetch_tbills_best], with the list [errors] as it stands when the
    function is left; [content] is what [fetch_french_csv] returns or
    raises for the factors file. *)
Definition fetch_tbills_best_run (environ : gmap string string)
    (content : result (list (list string))) (start_year current_year : Z)
    : list string * result AssetStats :=
  let errors := [] in
  let all_failed errors :=
    (errors,
     Raise (ValueError ("Could not fetch T-bill data: "
                        ++ String.concat "; " errors))) in
  let french errors :=
    try_return "French"
      (fetch_french_risk_free_rate pd_skew pd_kurtosis py_int py_float
         content start_year current_year)
      errors all_failed in
  if HAS_FRED && truthy (environ !! "FRED_API_KEY"%string)
  then try_return "FRED"
         (fetch_fred_tbills environ (Z.max start_year 1934) current_year)
         errors french
  else french errors.

Definition fetch_tbills_best (environ : gmap string string)
    (content : result (list (list string))) (start_year current_year : Z)
    : result AssetStats :=
  snd (fetch_tbills_best_run environ content start_year current_year).

End WithFred.
End Fred.

(** ** Environment files (lines 38-86) *)

Module Dotenv.
Open Scope string_scope.

(** The characters [str.strip] removes, for ASCII text. *)
Definition is_space (c : ascii) : bool :=
  let n := nat_of_ascii c in
  ((9 <=? n) && (n <=? 13) || (28 <=? n) && (n <=? 32))%nat.

Fixpoint lstrip (s : string) : string :=
  match s with
  | EmptyString => EmptyString
  | String c rest => if is_space c then lstrip rest else s
  end.

Fixpoint rstrip (s : string) : string :=
  match s with
  | EmptyString => EmptyString
  | String c rest =>
      match rstrip rest with
      | EmptyString => if is_space c then EmptyString else String c EmptyString
      | r => String c r
      end
  end.

(** [s.strip()] *)
Definition strip (s : string) : string := rstrip (lstrip s).

(** [s.startswith(c)] and [s.endswith(c)] for one character *)
Definition startswith (c : ascii) (s : string) : bool :=
  match s with
  | String a _ => Ascii.eqb a c
  | EmptyString => false
  end.

Fixpoint endswith (c : ascii) (s : string) : bool :=
  match s with
  | EmptyString => false
  | String a EmptyString => Ascii.eqb a c
  | String _ rest => endswith c rest
  end.

(** [s.partition('=')] when ['=' in s]: the text before the first [=] and
    the text after it. *)
Fixpoint partition_eq (s : string) : option (string * string) :=
  match s with
  | EmptyString => None
  | String c rest =>
      if Ascii.eqb c "=" then Some (EmptyString, rest)
      else
        match partition_eq rest with
        | Some (before, after) => Some (String c before, after)
        | None => None
        end
  end.

(** [value[1:-1]] *)
Fixpoint drop_last (s : string) : string :=
  match s with
  | EmptyString => EmptyString
  | String _ EmptyString => EmptyString
  | String c rest => String c (drop_last rest)
  end.

Definition inner (value : string) : string :=
  match value with
  | EmptyString => EmptyString
  | String _ rest => drop_last rest
  end.

(** The double quote character. *)
Definition double_quote : ascii := ascii_of_nat 34.

(** Lines 56-58 *)
Definition unquote (value : string) : string :=
  if (startswith double_quote value && endswith double_quote value)
     || (startswith "'" value && endswith "'" value)
  then inner value else value.

(** The body of the loop of [load_env_file] on one line: the entry that is
    stored, if any. *)
Definition parse_line (line : string) : option (string * string) :=
  let line := strip line in
  if (String.length line =? 0)%nat || startswith "#" line then None
  else
    match partition_eq line with
    | Some (key, value) => Some (strip key, unquote (strip value))
    | None => None
    end.

(** [load_env_file]: [None] for a path that does not exist, else the lines
    of the file. *)
Definition load_env_file (file : option (list string)) : gmap string string :=
  match file with
  | None => ∅
  | Some lines =>
      fold_left (fun env_vars line =>
                   match parse_line line with
                   | Some (key, value) => <[key := value]> env_vars
                   | None => env_vars
                   end) lines ∅
  end.

(** A text of white space only. *)
Fixpoint blank (s : string) : bool :=
  match s with
  | EmptyString => true
  | String c rest => is_space c && blank rest
  end.

(** A text without the character [c]. *)
Fixpoint lacks (c : ascii) (s : string) : bool :=
  match s with
  | EmptyString => true
  | String a rest => negb (Ascii.eqb a c) && lacks c rest
  end.

(** A text of ASCII characters. *)
Definition is_ascii (s : string) : Prop :=
  Forall (fun c => (nat_of_ascii c < 128)%nat) (list_ascii_of_string s).

(** [os.environ[key] = value] raises for an empty name, for a name that
    holds [=] and for a NUL character in the name or the value. *)
Fixpoint has_nul (s : string) : bool :=
  match s with
  | EmptyString => false
  | String c rest => Ascii.eqb c zero || has_nul rest
  end.

Definition setenv_ok (key value : string) : bool :=
  negb (String.length key =? 0)%nat && lacks "=" key
  && negb (has_nul key) && negb (has_nul value).

(** Lines 82-84: the variables of the file that the environment does not
    hold yet are set; [None] when an assignment raises. *)
Definition merge_environment (environ env_vars : gmap string string)
    : option (gmap string string) :=
  map_fold (fun key value acc =>
              match acc with
              | Some environ =>
                  match environ !! key with
                  | Some _ => Some environ
                  | None =>
                      if setenv_ok key value
                      then Some (<[key := value]> environ) else None
                  end
              | None => None
              end)
           (Some environ) env_vars.

(** [load_dotenv] on the candidate files in the order of the code: the
    value returned and the environment afterwards. *)
Fixpoint load_dotenv (environ : gmap string string)
    (env_files : list (option (list string)))
    : option (bool * gmap string string) :=
  match env_files with
  | [] => Some (false, environ)
  | file :: rest =>
      match file with
      | Some lines =>
          let env_vars := load_env_file (Some lines) in
          if decide (env_vars = ∅) then load_dotenv environ rest
          else
            match merge_environment environ env_vars with
            | Some environ' => Some (true, environ')
            | None => None
            end
      | None => load_dotenv environ rest
      end
  end.

End Dotenv.

(** ** The loop over the fetchers (lines 1527-1560, 1587) *)

Module MainLoop.
Import Stats Exporter.
Open Scope string_scope.

(** The list [fetchers] of [main], each entry with what its fetcher
    returns or raises when the loop calls it. *)
Definition main_fetchers (HAS_YFINANCE : bool)
    (sp500 small_cap tbills bonds international emerging
     reits gold aggregate corporate tips : result AssetStats)
    : list (string * string * result AssetStats) :=
  ([ ("SP_500", "S&P 500", sp500);
     ("US_SMALL_CAP", "US Small Cap", small_cap);
     ("US_TBILLS", "T-Bills", tbills);
     ("US_LONG_BOND", "Long-Term Bonds", bonds);
     ("INTL_DEVELOPED", "Intl Developed", international);
     ("EMERGING_MARKETS", "Emerging Markets", emerging) ]
   ++ (if HAS_YFINANCE
      then [ ("REITS", "REITs", reits);
             ("GOLD", "Gold", gold);
             ("US_AGG_BOND", "Aggregate Bonds", aggregate);
             ("US_CORPORATE_BOND", "Corporate Bonds", corporate);
             ("TIPS", "TIPS", tips) ]
      else []))%list.

(** The loop of lines 1549-1560: [all_stats] when it ends. *)
Definition fetch_loop (fetchers : list (string * string * result AssetStats))
    : list (string * AssetStats) :=
  fold_left (fun all_stats fetcher =>
               match fetcher with
               | (prefix, _, Ok stats) => (all_stats ++ [(prefix, stats)])%list
               | (_, _, Raise _) => all_stats
               end) fetchers [].

(** The dict comprehension of line 1587. *)
Definition return_profiles (all_stats : list (string * AssetStats))
    : gmap string (list (string * json_value)) :=
  fold_left (fun d entry => <[fst entry := to_dict (snd entry)]> d) all_stats ∅.

(** The prefixes of [main], in the order of the list. *)
Definition all_prefixes : list string :=
  [ "SP_500"; "US_SMALL_CAP"; "US_TBILLS"; "US_LONG_BOND"; "INTL_DEVELOPED";
    "EMERGING_MARKETS"; "REITS"; "GOLD"; "US_AGG_BOND"; "US_CORPORATE_BOND";
    "TIPS" ].

End MainLoop.

(** ** Sample inputs *)

Section Samples.
Open Scope R_scope.

(** An empty cache directory, the globals as at import. *)
Definition fresh_world : Cache.world :=
  {| Cache.glob := Cache.initial_globals; Cache.cache_dir := None; Cache.net_log := [] |}.

(** A run started with [--cache-days 7] over a directory that holds one
    file, written at time 0 for [url]. *)
Definition week_run (md5_hexdigest : string -> string) (url : string)
    (data : Cache.bytes) : Cache.world :=
  Cache.main_cache_setup {| Cache.cache_days := 7; Cache.clear_cache := false |}
    {| Cache.glob := Cache.initial_globals;
       Cache.cache_dir := Some {[ Cache.get_cache_path md5_hexdigest url ".bin" :=
                              {| Cache.content := data; Cache.st_mtime := 0 |} ]};
       Cache.net_log := [] |}.

(** pandas returns NaN for the skewness and the kurtosis of fewer than
    three and four observations. *)
Definition no_moments : list R -> option R := fun _ => None.

(** A series with a total loss. *)
Definition wipeout : Stats.series := [(2000%Z, Some (1 / 10)); (2001%Z, Some (-1))].

(** A series with one observation, one with none and one with two. *)
Definition one_point : Stats.series := [(2020%Z, Some (1 / 10))].
Definition only_missing : Stats.series := [(2020%Z, None)].

(** A series with a missing entry in the middle. *)
Definition with_gap : Stats.series :=
  [(2000%Z, Some (1 / 10)); (2001%Z, None); (2002%Z, Some (1 / 5))].

(** What the French adapter returned in the runs below. *)
Definition french_stats : Stats.AssetStats :=
  {| Stats.name := "US Market";
     Stats.description := "US Total Stock Market (Fama-French Market Factor)";
     Stats.source := "Kenneth French Data Library, Dartmouth";
     Stats.start_year := 1926; Stats.end_year := 1927; Stats.num_years := 2;
     Stats.annual_returns := [1 / 10; 1 / 5];
     Stats.arithmetic_mean := 3 / 20; Stats.geometric_mean := 1 / 7;
     Stats.std_dev := Some (1 / 14); Stats.min_return := 1 / 10; Stats.max_return := 1 / 5;
     Stats.skewness := None; Stats.kurtosis := None |}.

(** A run in which the Shiller adapter raises [e] and the French adapter
    succeeds. *)
Definition shiller_fails (e : exn) : list string * result Stats.AssetStats :=
  Orchestrator.fetch_sp500_best_run no_moments no_moments true true
    (fun _ => Raise e) (fun _ => Ok french_stats)
    (fun _ _ => Raise (ImportError "yfinance is required")) 1871.

(** Yahoo Finance holding closes of VNQ for 2023, 2024 and, so far, 2025. *)
Definition vnq_history (ticker : string) : list (Z * R) :=
  [(2023%Z, 100); (2024%Z, 110); (2025%Z, 121)].

Definition empty_yahoo_cache (ticker : string) (start_year end_year : Z)
    : option (list (Z * R)) := None.

(** Two years of falling prices: both growth multipliers are positive. *)
Definition falling : Stats.series :=
  [(2000%Z, Some (- (1 / 10))); (2001%Z, Some (- (1 / 5)))].

(** Rates in percent with one year below -100%. *)
Definition rates_with_wipeout : list R := [5; -150; 10].

(** Statistics with short decimal expansions. *)
Definition half_stats : Stats.AssetStats :=
  {| Stats.name := "A"; Stats.description := "d"; Stats.source := "src";
     Stats.start_year := 2000; Stats.end_year := 2001; Stats.num_years := 2;
     Stats.annual_returns := [1 / 4; 3 / 4];
     Stats.arithmetic_mean := 1 / 2; Stats.geometric_mean := 1 / 4;
     Stats.std_dev := Some (1 / 25);
     Stats.min_return := 1 / 4; Stats.max_return := 3 / 4;
     Stats.skewness := Some (1 / 25000); Stats.kurtosis := None |}.

(** A network that fails on the first request and answers from then on. *)
Definition flaky_network (requests : nat) (url : string) : result Cache.bytes :=
  match requests with
  | O => Raise (URLError "timed out")
  | S _ => Ok [Byte.x2a]
  end.

(** A run started with [--cache-days 60] over an empty cache directory. *)
Definition two_month_run : Cache.world :=
  Cache.main_cache_setup {| Cache.cache_days := 60; Cache.clear_cache := false |}
    fresh_world.

(** A network whose payload for a URL changes after the first request. *)
Definition changing_network (requests : nat) (url : string) : result Cache.bytes :=
  match requests with
  | O => Ok [Byte.x2a]
  | S _ => Ok [Byte.x2b]
  end.

(** Parsers for the samples: integers and decimal numbers as the formats
    of the exporter print them. *)
Definition sample_int (s : string) : option Z :=
  match DecimalText.read_numeral s with
  | Some d =>
      match DecimalText.frac_part d, DecimalText.exponent d with
      | [], None =>
          Some ((if DecimalText.negative d then -1 else 1)
                * DecimalText.digits_value (DecimalText.int_part d))%Z
      | _, _ => None
      end
  | None => None
  end.

Definition sample_float : string -> option R := DecimalText.read_decimal.

(** Lines of a factors file: a monthly row, two annual rows and the
    copyright line. *)
Definition factors_lines : list (list string) :=
  [ ["192607"; "2.96"; "-2.30"; "-2.87"; "0.22"];
    ["1926"; "8.5"; "-2.5"; "1.0"; "3.0"];
    ["1927"; "29.5"; "-0.5"; "2.0"; "3.0"];
    ["Copyright 2024 Kenneth R. French"] ]%string.

(** Lines of an emerging-markets file; the second annual row is below the
    threshold of -90%. *)
Definition emerging_lines : list (list string) :=
  [ ["1990"; "10.0"; "1.0"; "1.0"; "1.0"; "5.0"];
    ["1991"; "-95.0"; "1.0"; "1.0"; "1.0"; "1.0"];
    ["1992"; "20.0"; "1.0"; "1.0"; "1.0"; "4.0"] ]%string.

End Samples.

(** * Properties *)

(** ** Cache store *)

Module CacheProps.
Import Cache.
Open Scope R_scope.

(** The time-to-live the validity check applies, in seconds. *)
Lemma default_ttl_seconds : IZR (is_cache_valid_default * 86400) = 2592000.
Proof. reflexivity. Qed.

Section WithLibraries.
Variable md5_hexdigest : string -> string.
Variable urlopen : nat -> string -> result bytes.

#[local] Abbreviation get_cache_path := (get_cache_path md5_hexdigest).
#[local] Abbreviation load_from_cache := (load_from_cache md5_hexdigest).
#[local] Abbreviation save_to_cache := (save_to_cache md5_hexdigest).
#[local] Abbreviation fetch_url_cached := (fetch_url_cached md5_hexdigest urlopen).
#[local] Abbreviation read_many := (read_many md5_hexdigest urlopen).

Lemma is_cache_valid_true now w cache_path d f :
  path_lookup w cache_path = Some f ->
  is_cache_valid now w cache_path d = true <->
  now - st_mtime f < IZR (d * 86400).
Proof.
  intros Hf. unfold is_cache_valid. rewrite Hf.
  apply bool_decide_eq_true.
Qed.

Lemma is_cache_valid_absent now w cache_path d :
  path_lookup w cache_path = None -> is_cache_valid now w cache_path d = false.
Proof. intros Hf. unfold is_cache_valid. now rewrite Hf. Qed.

(** The assignment to the global in [main] does not reach the check: the
    lookup depends on the directory only. *)
Lemma load_from_cache_glob now url suffix g w :
  load_from_cache now url suffix
    {| glob := g; cache_dir := cache_dir w; net_log := net_log w |}
  = load_from_cache now url suffix w.
Proof. reflexivity. Qed.

Lemma load_from_cache_some now url suffix w f :
  path_lookup w (get_cache_path url suffix) = Some f ->
  now - st_mtime f < IZR (is_cache_valid_default * 86400) ->
  load_from_cache now url suffix w = Some (content f).
Proof.
  intros Hf Hage. unfold load_from_cache.
  rewrite (proj2 (is_cache_valid_true now w _ _ f Hf) Hage).
  now rewrite Hf.
Qed.

Lemma load_from_cache_expired now url suffix w f :
  path_lookup w (get_cache_path url suffix) = Some f ->
  IZR (is_cache_valid_default * 86400) <= now - st_mtime f ->
  load_from_cache now url suffix w = None.
Proof.
  intros Hf Hage. unfold load_from_cache.
  destruct (is_cache_valid now w _ _) eqn:E; [|reflexivity].
  apply (is_cache_valid_true now w _ _ f Hf) in E. lra.
Qed.

Lemma path_lookup_save now data url suffix w :
  path_lookup (save_to_cache now data url suffix w) (get_cache_path url suffix)
  = Some {| content := data; st_mtime := now |}.
Proof. unfold path_lookup, save_to_cache. simpl. apply lookup_insert_eq. Qed.

(** A call that finds a valid entry returns it and leaves the world as it
    is: no request, no write. *)
Lemma fetch_url_cached_hit now elapsed url suffix w data :
  load_from_cache now url suffix w = Some data ->
  fetch_url_cached now elapsed url suffix w = (Ok data, w).
Proof. intros H. unfold Cache.fetch_url_cached. now rewrite H. Qed.

Lemma fetch_url_cached_miss now elapsed url suffix w data :
  load_from_cache now url suffix w = None ->
  urlopen (length (net_log w)) url = Ok data ->
  fetch_url_cached now elapsed url suffix w
  = (Ok data,
     save_to_cache (now + elapsed) data url suffix
       {| glob := glob w; cache_dir := cache_dir w;
          net_log := url :: net_log w |}).
Proof. intros H1 H2. unfold Cache.fetch_url_cached. now rewrite H1, H2. Qed.

(** A call for a URL stored under another file name leaves the file of
    this one as it is. *)
Lemma fetch_url_cached_other now elapsed url' suffix' w cache_path :
  get_cache_path url' suffix' <> cache_path ->
  path_lookup (snd (fetch_url_cached now elapsed url' suffix' w)) cache_path
  = path_lookup w cache_path.
Proof.
  intros Hne. unfold Cache.fetch_url_cached.
  destruct (load_from_cache now url' suffix' w); [reflexivity|].
  destruct (urlopen _ _); [|reflexivity].
  unfold path_lookup, Cache.save_to_cache. simpl.
  rewrite lookup_insert_ne by exact Hne.
  destruct (cache_dir w); [reflexivity | apply lookup_empty].
Qed.

(** Whatever [--cache-days] says, an entry is served while it is younger
    than the 30 days bound at definition, and only then. *)
Lemma setting_does_not_reach_check (a : args) now url suffix w f :
  clear_cache a = false ->
  path_lookup w (get_cache_path url suffix) = Some f ->
  load_from_cache now url suffix (main_cache_setup a w)
  = if bool_decide (now - st_mtime f < 2592000) then Some (content f) else None.
Proof.
  intros Hclear Hf.
  assert (Hf' : path_lookup (main_cache_setup a w) (get_cache_path url suffix)
                = Some f).
  { unfold path_lookup, main_cache_setup. simpl. now rewrite Hclear. }
  rewrite <- default_ttl_seconds.
  destruct (Rlt_dec (now - st_mtime f) (IZR (is_cache_valid_default * 86400)))
    as [Hlt|Hge].
  - rewrite bool_decide_eq_true_2 by exact Hlt.
    now apply load_from_cache_some.
  - rewrite bool_decide_eq_false_2 by exact Hge.
    apply load_from_cache_expired with f; [exact Hf' | lra].
Qed.

Lemma read_many_hits times url suffix w f :
  path_lookup w (get_cache_path url suffix) = Some f ->
  Forall (fun t => fst t - st_mtime f < IZR (is_cache_valid_default * 86400))
         times ->
  read_many times url suffix w = (map (fun _ => Ok (content f)) times, w).
Proof.
  intros Hf. induction 1 as [|[t el] ts Ht _ IH]; [reflexivity|].
  simpl in *. rewrite (fetch_url_cached_hit _ _ _ _ _ (content f)).
  - now rewrite IH.
  - now apply load_from_cache_some.
Qed.

(** Back-to-back reads: after a call that missed, downloaded [data] and
    stored it, every later call for the same URL made while the stored
    file is younger than the 30 days of the validity check returns [data]
    and leaves the world unchanged; the request log in particular holds
    the one request of the first call and nothing more. *)
Theorem cache_hit_avoids_fetch (w : world) (url suffix : string)
    (now elapsed : R) (data : bytes) (times : list (R * R)) :
  load_from_cache now url suffix w = None ->
  urlopen (length (net_log w)) url = Ok data ->
  Forall (fun t => fst t - (now + elapsed) < IZR (is_cache_valid_default * 86400))
         times ->
  exists w1,
    fetch_url_cached now elapsed url suffix w = (Ok data, w1)
    /\ net_log w1 = url :: net_log w
    /\ read_many times url suffix w1 = (map (fun _ => Ok data) times, w1).
Proof.
  intros Hmiss Hnet Hall.
  eexists. split; [now apply fetch_url_cached_miss|].
  split; [reflexivity|].
  apply (read_many_hits times url suffix _
           {| content := data; st_mtime := now + elapsed |}).
  - apply path_lookup_save.
  - exact Hall.
Qed.

End WithLibraries.

Lemma cache_hit_avoids_fetch_witness :
  exists w1,
    fetch_url_cached (fun u => u) (fun _ _ => Ok [Byte.x2a]) 0 1 "u" ".bin"
                     fresh_world = (Ok [Byte.x2a], w1)
    /\ net_log w1 = ["u"%string]
    /\ read_many (fun u => u) (fun _ _ => Ok [Byte.x2a]) [(86400, 0); (2000000, 0)]
                 "u" ".bin" w1
       = ([Ok [Byte.x2a]; Ok [Byte.x2a]], w1).
Proof.
  apply (cache_hit_avoids_fetch (fun u => u) (fun _ _ => Ok [Byte.x2a])
           fresh_world "u" ".bin" 0 1 [Byte.x2a] [(86400, 0); (2000000, 0)]).
  - reflexivity.
  - reflexivity.
  - assert (Hlt : forall t : R, t <= 2000000 ->
                     t - (0 + 1) < IZR (is_cache_valid_default * 86400)).
    { intros t Ht. rewrite default_ttl_seconds. lra. }
    apply List.Forall_cons; [apply Hlt; simpl; lra|].
    apply List.Forall_cons; [apply Hlt; simpl; lra|].
    apply List.Forall_nil.
Defined.

(** C2, at the failing input: with the time-to-live of the run set to 7
    days, an entry that is 10 days old is still served from the cache; the
    validity check compares against the 30 days bound at definition. *)
Theorem cache_days_setting_ignored :
  CACHE_MAX_AGE_DAYS (glob (week_run (fun u => u) "u" [Byte.x2a])) = 7%Z
  /\ load_from_cache (fun u => u) (10 * 86400) "u" ".bin"
       (week_run (fun u => u) "u" [Byte.x2a]) = Some [Byte.x2a]
  /\ fetch_url_cached (fun u => u) (fun _ _ => Ok []) (10 * 86400) 0 "u" ".bin"
       (week_run (fun u => u) "u" [Byte.x2a])
     = (Ok [Byte.x2a], week_run (fun u => u) "u" [Byte.x2a]).
Proof.
  assert (H : load_from_cache (fun u => u) (10 * 86400) "u" ".bin"
                (week_run (fun u => u) "u" [Byte.x2a]) = Some [Byte.x2a]).
  { apply (load_from_cache_some (fun u => u) (10 * 86400) "u" ".bin" _
             {| content := [Byte.x2a]; st_mtime := 0 |}).
    - unfold path_lookup, week_run. simpl. apply lookup_singleton_eq.
    - rewrite default_ttl_seconds. simpl. lra. }
  split; [reflexivity|]. split; [exact H|].
  now apply fetch_url_cached_hit.
Qed.

End CacheProps.
(** ** Cache store: the window in which an entry is served *)

Module CacheWindowProps.
Import Cache CacheTrace.
Open Scope R_scope.

Section WithLibraries.
Variable md5_hexdigest : string -> string.
Variable urlopen : nat -> string -> result bytes.

#[local] Abbreviation get_cache_path := (get_cache_path md5_hexdigest).
#[local] Abbreviation load_from_cache := (load_from_cache md5_hexdigest).
#[local] Abbreviation fetch_url_cached := (fetch_url_cached md5_hexdigest urlopen).
#[local] Abbreviation fetch_many := (fetch_many md5_hexdigest urlopen).

(** A call asks the network at most once, and for its own URL. *)
Lemma fetch_url_cached_log now elapsed url suffix w :
  net_log (snd (fetch_url_cached now elapsed url suffix w)) = net_log w
  \/ net_log (snd (fetch_url_cached now elapsed url suffix w)) = url :: net_log w.
Proof.
  unfold Cache.fetch_url_cached.
  destruct (load_from_cache now url suffix w); [now left|].
  destruct (urlopen _ _); right; reflexivity.
Qed.

Lemma requests_other (url url' : string) (log : list string) :
  url' <> url -> requests url (url' :: log) = requests url log.
Proof.
  intros Hne. unfold requests. rewrite filter_cons.
  destruct (decide (url' = url)); [contradiction | reflexivity].
Qed.

Lemma requests_same (url : string) (log : list string) :
  requests url (url :: log) = S (requests url log).
Proof.
  unfold requests. rewrite filter_cons.
  destruct (decide (url = url)); [reflexivity | congruence].
Qed.

(** While the file of a URL is younger than 30 days, calls for that URL
    return its content, and calls for URLs stored under other names leave
    it alone: the file stays as it is and no request is made for the URL. *)
Lemma fetch_many_frame (calls : list call) (w1 : world) (f : file)
    (url suffix : string) :
  path_lookup w1 (get_cache_path url suffix) = Some f ->
  Forall (fun c =>
            call_url c = url /\ call_suffix c = suffix
            /\ call_time c - st_mtime f < 2592000
            \/ call_url c <> url
               /\ get_cache_path (call_url c) (call_suffix c)
                  <> get_cache_path url suffix) calls ->
  exists results w2,
    fetch_many calls w1 = (results, w2)
    /\ List.Forall2 (fun c r => call_url c = url -> r = Ok (content f))
                    calls results
    /\ requests url (net_log w2) = requests url (net_log w1)
    /\ path_lookup w2 (get_cache_path url suffix) = Some f.
Proof.
  intros Hf Hcalls. revert w1 Hf.
  induction Hcalls as [|c calls Hc _ IH]; intros w1 Hf.
  - exists [], w1. split; [reflexivity|]. split; [apply List.Forall2_nil|].
    split; [reflexivity | exact Hf].
  - cbn [CacheTrace.fetch_many].
    destruct Hc as [(Hu & Hs & Hage) | (Hu & Hpath)].
    + rewrite Hu, Hs.
      rewrite (CacheProps.fetch_url_cached_hit md5_hexdigest urlopen
                 _ _ _ _ _ (content f)).
      * destruct (IH w1 Hf) as (results & w2 & -> & Hall & Hreq & Hfile).
        exists (Ok (content f) :: results), w2.
        split; [reflexivity|]. split; [|split; assumption].
        apply List.Forall2_cons; [reflexivity | exact Hall].
      * apply (CacheProps.load_from_cache_some md5_hexdigest _ _ _ _ f);
          [exact Hf|].
        rewrite CacheProps.default_ttl_seconds. exact Hage.
    + destruct (fetch_url_cached (call_time c) (call_elapsed c) (call_url c)
                  (call_suffix c) w1) as [r w1'] eqn:E.
      assert (Hf' : path_lookup w1' (get_cache_path url suffix) = Some f).
      { pose proof (CacheProps.fetch_url_cached_other md5_hexdigest urlopen
                      (call_time c) (call_elapsed c) (call_url c) (call_suffix c)
                      w1 _ Hpath) as H.
        rewrite E in H. cbn [snd] in H. now rewrite H. }
      assert (Hlog : requests url (net_log w1') = requests url (net_log w1)).
      { pose proof (fetch_url_cached_log (call_time c) (call_elapsed c)
                      (call_url c) (call_suffix c) w1) as H.
        rewrite E in H. cbn [snd] in H.
        destruct H as [-> | ->]; [reflexivity | now apply requests_other]. }
      destruct (IH w1' Hf') as (results & w2 & -> & Hall & Hreq & Hfile).
      exists (r :: results), w2.
      split; [reflexivity|]. split; [|split; [congruence | exact Hfile]].
      apply List.Forall2_cons; [intros Hsame; contradiction | exact Hall].
Qed.

End WithLibraries.

(** C9: the window in which a stored payload is served is the 30 days
    bound into the validity check, not the time-to-live of the run.
    After a call that missed, downloaded [data] and stored it, the calls
    that follow, for this URL while the file is younger than 30 days and
    for URLs stored under other names in between, return [data] for this
    URL and add no request for it: one request in all.  But in a run
    started with [--cache-days 60], a read 40 days after the write, inside
    the window of the run, is not served from the cache: the network is
    asked again and the call returns the bytes it then gets, not those
    that were stored. *)
Theorem cache_window_is_thirty_days :
  (forall (md5_hexdigest : string -> string)
          (urlopen : nat -> string -> result bytes)
          (w : world) (url suffix : string) (now elapsed : R) (data : bytes)
          (calls : list call),
      load_from_cache md5_hexdigest now url suffix w = None ->
      urlopen (length (net_log w)) url = Ok data ->
      Forall (fun c =>
                call_url c = url /\ call_suffix c = suffix
                /\ call_time c - (now + elapsed) < 2592000
                \/ call_url c <> url
                   /\ get_cache_path md5_hexdigest (call_url c) (call_suffix c)
                      <> get_cache_path md5_hexdigest url suffix) calls ->
      exists w1 results w2,
        fetch_url_cached md5_hexdigest urlopen now elapsed url suffix w
        = (Ok data, w1)
        /\ fetch_many md5_hexdigest urlopen calls w1 = (results, w2)
        /\ List.Forall2 (fun c r => call_url c = url -> r = Ok data) calls results
        /\ requests url (net_log w2) = S (requests url (net_log w)))
  /\ CACHE_MAX_AGE_DAYS (glob two_month_run) = 60%Z
  /\ exists w1 w2,
       fetch_url_cached (fun u => u) changing_network 0 0 "u" ".bin" two_month_run
       = (Ok [Byte.x2a], w1)
       /\ path_lookup w1 (get_cache_path (fun u => u) "u" ".bin")
          = Some {| content := [Byte.x2a]; st_mtime := 0 + 0 |}
       /\ 40 * 86400 - (0 + 0) < 60 * 86400
       /\ load_from_cache (fun u => u) (40 * 86400) "u" ".bin" w1 = None
       /\ fetch_url_cached (fun u => u) changing_network (40 * 86400) 0
            "u" ".bin" w1
          = (Ok [Byte.x2b], w2)
       /\ net_log w2 = ["u"; "u"]%string.
Proof.
  split; [|split; [reflexivity|]].
  - intros md5_hexdigest urlopen w url suffix now elapsed data calls
      Hmiss Hnet Hcalls.
    set (w1 := save_to_cache md5_hexdigest (now + elapsed) data url suffix
                 {| glob := glob w; cache_dir := cache_dir w;
                    net_log := url :: net_log w |}).
    destruct (fetch_many_frame md5_hexdigest urlopen calls w1
                {| content := data; st_mtime := now + elapsed |} url suffix)
      as (results & w2 & Hmany & Hall & Hreq & _).
    { apply CacheProps.path_lookup_save. }
    { exact Hcalls. }
    exists w1, results, w2.
    split; [now apply CacheProps.fetch_url_cached_miss|].
    split; [exact Hmany|]. split; [exact Hall|].
    rewrite Hreq. subst w1. cbn [net_log save_to_cache]. apply requests_same.
  - assert (Hexpired :
      load_from_cache (fun u => u) (40 * 86400) "u" ".bin"
        (save_to_cache (fun u => u) (0 + 0) [Byte.x2a] "u" ".bin"
           {| glob := glob two_month_run; cache_dir := cache_dir two_month_run;
              net_log := "u"%string :: net_log two_month_run |}) = None).
    { apply (CacheProps.load_from_cache_expired (fun u => u) _ _ _ _
               {| content := [Byte.x2a]; st_mtime := 0 + 0 |}).
      - apply CacheProps.path_lookup_save.
      - rewrite CacheProps.default_ttl_seconds. simpl. lra. }
    eexists. eexists.
    split; [apply CacheProps.fetch_url_cached_miss; reflexivity|].
    split; [apply CacheProps.path_lookup_save|].
    split; [lra|]. split; [exact Hexpired|].
    split; [apply CacheProps.fetch_url_cached_miss; [exact Hexpired | reflexivity]|].
    reflexivity.
Qed.

Lemma cache_window_is_thirty_days_witness :
  exists w1 results w2,
    fetch_url_cached (fun u => u) changing_network 0 1 "u" ".bin" fresh_world
    = (Ok [Byte.x2a], w1)
    /\ fetch_many (fun u => u) changing_network
         [ {| call_time := 86400; call_elapsed := 1;
              call_url := "v"; call_suffix := ".bin" |};
           {| call_time := 2 * 86400; call_elapsed := 1;
              call_url := "u"; call_suffix := ".bin" |};
           {| call_time := 2000000; call_elapsed := 1;
              call_url := "u"; call_suffix := ".bin" |} ] w1
       = (results, w2)
    /\ List.Forall2 (fun c r => call_url c = "u"%string -> r = Ok [Byte.x2a])
         [ {| call_time := 86400; call_elapsed := 1;
              call_url := "v"; call_suffix := ".bin" |};
           {| call_time := 2 * 86400; call_elapsed := 1;
              call_url := "u"; call_suffix := ".bin" |};
           {| call_time := 2000000; call_elapsed := 1;
              call_url := "u"; call_suffix := ".bin" |} ] results
    /\ requests "u" (net_log w2) = 1%nat.
Proof.
  destruct cache_window_is_thirty_days as [H _].
  apply (H (fun u => u) changing_network fresh_world "u"%string ".bin"%string
           0 1 [Byte.x2a]).
  - reflexivity.
  - reflexivity.
  - apply List.Forall_cons.
    { right. cbn [call_url call_suffix]. split; [discriminate|].
      vm_compute. discriminate. }
    apply List.Forall_cons.
    { left. cbn [call_url call_suffix call_time]. repeat split. lra. }
    apply List.Forall_cons.
    { left. cbn [call_url call_suffix call_time]. repeat split. lra. }
    apply List.Forall_nil.
Defined.

End CacheWindowProps.

(** ** Statistics engine *)

Module StatsProps.
Import Stats.
Open Scope R_scope.

Lemma dropna_to_series (l : list (Z * R)) : dropna (Adapters.to_series l) = l.
Proof.
  induction l as [|[y v] l IH]; simpl; [reflexivity|]. now rewrite IH.
Qed.

Lemma dropna_idempotent (s : series) :
  dropna (Adapters.to_series (dropna s)) = dropna s.
Proof. apply dropna_to_series. Qed.

(** Every retained point is a non-missing point of the input, and every
    non-missing point of the input is retained. *)
Lemma in_dropna (s : series) (y : Z) (v : R) :
  In (y, v) (dropna s) <-> In (y, Some v) s.
Proof.
  induction s as [|[y' [v'|]] s IH]; simpl.
  - tauto.
  - rewrite IH. split; intros [H|H]; auto; left; congruence.
  - rewrite IH. split; [auto|]. intros [H|H]; [discriminate|assumption].
Qed.

Lemma index_min_le (y : Z) (l : list Z) :
  (forall z, In z (y :: l) -> index_min y l <= z)%Z /\ In (index_min y l) (y :: l).
Proof.
  induction l as [|a l [IHle IHin]]; simpl.
  - split; [intros z [Hz|[]]; lia | now left].
  - fold (index_min y l). split.
    + intros z Hz.
      assert (Hy := IHle y (or_introl eq_refl)).
      destruct Hz as [Hz|[Hz|Hz]]; [lia | lia |].
      assert (Hz' := IHle z (or_intror Hz)). lia.
    + destruct (Z.min_spec a (index_min y l)) as [[_ ->]|[_ ->]].
      * right. now left.
      * simpl in IHin. destruct IHin as [H|H]; [now left | right; now right].
Qed.

Lemma index_max_ge (y : Z) (l : list Z) :
  (forall z, In z (y :: l) -> z <= index_max y l)%Z /\ In (index_max y l) (y :: l).
Proof.
  induction l as [|a l [IHle IHin]]; simpl.
  - split; [intros z [Hz|[]]; lia | now left].
  - fold (index_max y l). split.
    + intros z Hz.
      assert (Hy := IHle y (or_introl eq_refl)).
      destruct Hz as [Hz|[Hz|Hz]]; [lia | lia |].
      assert (Hz' := IHle z (or_intror Hz)). lia.
    + destruct (Z.max_spec a (index_max y l)) as [[_ ->]|[_ ->]].
      * simpl in IHin. destruct IHin as [H|H]; [now left | right; now right].
      * right. now left.
Qed.

Lemma np_min_le (x : R) (l : list R) :
  (forall z, In z (x :: l) -> np_min x l <= z) /\ In (np_min x l) (x :: l).
Proof.
  induction l as [|a l [IHle IHin]]; simpl.
  - split; [intros z [Hz|[]]; lra | now left].
  - fold (np_min x l). split.
    + intros z Hz.
      assert (Hx := IHle x (or_introl eq_refl)).
      assert (Hl := Rmin_l a (np_min x l)). assert (Hr := Rmin_r a (np_min x l)).
      destruct Hz as [Hz|[Hz|Hz]]; [lra | lra |].
      assert (Hz' := IHle z (or_intror Hz)). lra.
    + unfold Rmin. destruct (Rle_dec a (np_min x l)).
      * right. now left.
      * simpl in IHin. destruct IHin as [H|H]; [now left | right; now right].
Qed.

Lemma np_max_ge (x : R) (l : list R) :
  (forall z, In z (x :: l) -> z <= np_max x l) /\ In (np_max x l) (x :: l).
Proof.
  induction l as [|a l [IHle IHin]]; simpl.
  - split; [intros z [Hz|[]]; lra | now left].
  - fold (np_max x l). split.
    + intros z Hz.
      assert (Hx := IHle x (or_introl eq_refl)).
      assert (Hl := Rmax_l a (np_max x l)). assert (Hr := Rmax_r a (np_max x l)).
      destruct Hz as [Hz|[Hz|Hz]]; [lra | lra |].
      assert (Hz' := IHle z (or_intror Hz)). lra.
    + unfold Rmax. destruct (Rle_dec a (np_max x l)).
      * simpl in IHin. destruct IHin as [H|H]; [now left | right; now right].
      * right. now left.
Qed.

(** A product with a zero factor is zero. *)
Lemma np_prod_zero (l : list R) : In 0 l -> np_prod l = 0.
Proof.
  induction l as [|a l IH]; simpl; [tauto|].
  intros [->|H]; [lra|]. fold (np_prod l). rewrite (IH H). lra.
Qed.

Lemma spec_product (rs : list R) :
  fold_right (fun r acc => (1 + r) * acc) 1 rs = np_prod (map (fun r => 1 + r) rs).
Proof. induction rs as [|r rs IH]; simpl; [reflexivity|]. now rewrite IH. Qed.

(** The geometric mean of the code is the one of the specification. *)
Lemma geo_mean_spec (arr : list R) : geo_mean arr = spec_geometric_mean arr.
Proof.
  unfold geo_mean, spec_geometric_mean, float_pow.
  rewrite spec_product.
  destruct (Rlt_dec 0 _) as [Hp|Hn].
  - rewrite bool_decide_eq_true_2 by exact Hp.
    replace (1 / INR (length arr)) with (/ INR (length arr)) by lra.
    reflexivity.
  - now rewrite bool_decide_eq_false_2.
Qed.

Lemma geo_mean_total_loss (arr : list R) : In (-1) arr -> geo_mean arr = -1.
Proof.
  intros Hin. unfold geo_mean.
  rewrite np_prod_zero.
  - rewrite bool_decide_eq_false_2; [reflexivity | lra].
  - apply in_map_iff. exists (-1). split; [lra | exact Hin].
Qed.

Lemma np_std_single (x : R) : np_std_ddof1 [x] = None.
Proof. reflexivity. Qed.

Lemma np_std_defined (l : list R) :
  (2 <= length l)%nat ->
  exists sd, np_std_ddof1 l = Some sd /\ 0 <= sd.
Proof.
  intros Hn. unfold np_std_ddof1.
  destruct (Nat.leb_spec (length l) 1) as [H|H]; [lia|].
  eexists. split; [reflexivity | apply sqrt_pos].
Qed.

Section WithPandas.
Variables pd_skew pd_kurtosis : list R -> option R.

#[local] Abbreviation compute_stats := (compute_stats pd_skew pd_kurtosis).

Lemma compute_stats_empty name description source (s : series) :
  dropna s = [] ->
  compute_stats name description source s
  = Raise (ValueError ("No valid returns data for " ++ name)).
Proof. intros H. unfold Stats.compute_stats. now rewrite H. Qed.

Lemma compute_stats_cons name description source (s : series) y0 r0 rest :
  dropna s = (y0, r0) :: rest ->
  compute_stats name description source s
  = Ok (stats_of pd_skew pd_kurtosis name description source y0 r0 rest).
Proof. intros H. unfold Stats.compute_stats. now rewrite H. Qed.

Lemma compute_stats_ok name description source (s : series) :
  dropna s <> [] ->
  exists st, compute_stats name description source s = Ok st
             /\ annual_returns st = map snd (dropna s)
             /\ num_years st = length (dropna s)
             /\ geometric_mean st = geo_mean (map snd (dropna s))
             /\ std_dev st = np_std_ddof1 (map snd (dropna s)).
Proof.
  intros Hne. destruct (dropna s) as [|[y0 r0] rest] eqn:E; [congruence|].
  exists (stats_of pd_skew pd_kurtosis name description source y0 r0 rest).
  split; [now apply compute_stats_cons|].
  simpl. rewrite length_map. repeat split; reflexivity.
Qed.

(** The outcome depends on the retained points only. *)
Lemma compute_stats_ext name description source (s1 s2 : series) :
  dropna s1 = dropna s2 ->
  compute_stats name description source s1
  = compute_stats name description source s2.
Proof. intros H. unfold Stats.compute_stats. now rewrite H. Qed.

(** C7: for a series with at least one non-missing return, the geometric
    mean of the result is [(prod (1 + r_i)) ^ (1/n) - 1] when the product
    of the growth multipliers is positive and the sentinel [-1] otherwise;
    a return of exactly [-1] in the series gives [-1]. *)
Theorem geometric_mean_formula name description source (s : series) :
  dropna s <> [] ->
  exists st,
    compute_stats name description source s = Ok st
    /\ let rs := map snd (dropna s) in
       let p := np_prod (map (fun r => 1 + r) rs) in
       geometric_mean st = spec_geometric_mean rs
       /\ (0 < p -> geometric_mean st = Rpower p (1 / INR (length rs)) - 1)
       /\ (p <= 0 -> geometric_mean st = -1)
       /\ (In (-1) rs -> geometric_mean st = -1).
Proof.
  intros Hne.
  destruct (compute_stats_ok name description source s Hne)
    as (st & Hst & _ & _ & Hgeo & _).
  exists st. split; [exact Hst|]. cbv zeta. rewrite Hgeo.
  split; [apply geo_mean_spec|]. split; [|split].
  - intros Hp. unfold geo_mean, float_pow.
    now rewrite bool_decide_eq_true_2.
  - intros Hp. unfold geo_mean.
    rewrite bool_decide_eq_false_2; [reflexivity | lra].
  - apply geo_mean_total_loss.
Qed.

(** C3, as the code has it: the computation raises on a series without a
    non-missing observation; with exactly one observation it does not
    raise, it returns statistics whose sample standard deviation is NaN;
    with two or more it returns statistics with a standard deviation. *)
Theorem compute_stats_outcomes name description source (s : series) :
  (dropna s = [] ->
   compute_stats name description source s
   = Raise (ValueError ("No valid returns data for " ++ name)))
  /\ (length (dropna s) = 1%nat ->
      exists st, compute_stats name description source s = Ok st
                 /\ std_dev st = None)
  /\ ((2 <= length (dropna s))%nat ->
      exists st sd, compute_stats name description source s = Ok st
                    /\ std_dev st = Some sd /\ 0 <= sd).
Proof.
  split; [apply compute_stats_empty|]. split.
  - intros Hlen.
    destruct (dropna s) as [|[y0 r0] [|? ?]] eqn:E; try discriminate Hlen.
    eexists. split; [apply (compute_stats_cons _ _ _ _ _ _ _ E)|]. reflexivity.
  - intros Hlen.
    assert (Hne : dropna s <> []) by (intros E; rewrite E in Hlen; simpl in Hlen; lia).
    destruct (compute_stats_ok name description source s Hne)
      as (st & Hst & _ & _ & _ & Hsd).
    destruct (np_std_defined (map snd (dropna s))) as (sd & Hsd' & Hpos).
    { now rewrite length_map. }
    exists st, sd. rewrite Hsd. auto.
Qed.

(** Every field of a result is computed from the retained points. *)
Lemma compute_stats_result name description source (s : series) (st : AssetStats) :
  compute_stats name description source s = Ok st ->
  let years := map fst (dropna s) in
  let arr := map snd (dropna s) in
  num_years st = length (dropna s)
  /\ annual_returns st = arr
  /\ In (start_year st) years /\ In (end_year st) years
  /\ (forall y, In y years -> (start_year st <= y <= end_year st)%Z)
  /\ arithmetic_mean st = np_mean arr
  /\ geometric_mean st = geo_mean arr
  /\ std_dev st = np_std_ddof1 arr
  /\ In (min_return st) arr /\ In (max_return st) arr
  /\ (forall v, In v arr -> min_return st <= v <= max_return st)
  /\ skewness st = pd_skew arr /\ kurtosis st = pd_kurtosis arr.
Proof.
  intros Hst.
  destruct (dropna s) as [|[y0 r0] rest] eqn:E.
  - rewrite (compute_stats_empty _ _ _ _ E) in Hst. discriminate Hst.
  - rewrite (compute_stats_cons _ _ _ _ _ _ _ E) in Hst.
    injection Hst as <-. cbv zeta. simpl map.
    destruct (index_min_le y0 (map fst rest)) as [Hmin Hmin_in].
    destruct (index_max_ge y0 (map fst rest)) as [Hmax Hmax_in].
    destruct (np_min_le r0 (map snd rest)) as [Hlo Hlo_in].
    destruct (np_max_ge r0 (map snd rest)) as [Hhi Hhi_in].
    unfold stats_of; simpl.
    rewrite length_map.
    repeat match goal with |- _ /\ _ => split end;
      try reflexivity; try assumption.
    + intros y Hy. split; [now apply Hmin | now apply Hmax].
    + intros v Hv. split; [now apply Hlo | now apply Hhi].
Qed.

(** C10: missing entries are dropped first.  The outcome is the one of the
    retained points alone; the failure for an empty input is raised exactly
    when nothing is retained; and the count, the returns, the years and
    every statistic of a result are those of the retained points. *)
Theorem missing_values_dropped name description source (s : series) :
  compute_stats name description source s
  = compute_stats name description source (Adapters.to_series (dropna s))
  /\ (compute_stats name description source s
      = Raise (ValueError ("No valid returns data for " ++ name))
      <-> dropna s = [])
  /\ (forall st, compute_stats name description source s = Ok st ->
      let years := map fst (dropna s) in
      let arr := map snd (dropna s) in
      num_years st = length (dropna s)
      /\ annual_returns st = arr
      /\ In (start_year st) years /\ In (end_year st) years
      /\ (forall y, In y years -> (start_year st <= y <= end_year st)%Z)
      /\ arithmetic_mean st = np_mean arr
      /\ geometric_mean st = geo_mean arr
      /\ std_dev st = np_std_ddof1 arr
      /\ In (min_return st) arr /\ In (max_return st) arr
      /\ (forall v, In v arr -> min_return st <= v <= max_return st)
      /\ skewness st = pd_skew arr /\ kurtosis st = pd_kurtosis arr).
Proof.
  split; [apply compute_stats_ext; symmetry; apply dropna_idempotent|].
  split.
  - split.
    + intros Hr. destruct (dropna s) as [|[y0 r0] rest] eqn:E; [reflexivity|].
      rewrite (compute_stats_cons _ _ _ _ _ _ _ E) in Hr. discriminate Hr.
    + apply compute_stats_empty.
  - apply compute_stats_result.
Qed.

End WithPandas.

Lemma geometric_mean_formula_witness :
  (exists st,
      compute_stats no_moments no_moments "A" "d" "src" wipeout = Ok st
      /\ geometric_mean st = -1)
  /\ (exists st,
         compute_stats no_moments no_moments "A" "d" "src" with_gap = Ok st
         /\ geometric_mean st
            = Rpower (np_prod (map (fun r => 1 + r) (map snd (dropna with_gap))))
                     (1 / INR (length (map snd (dropna with_gap)))) - 1).
Proof.
  split.
  - destruct (geometric_mean_formula no_moments no_moments "A" "d" "src" wipeout)
      as (st & Hst & _ & _ & Hneg & Hloss); [discriminate|].
    exists st. split; [exact Hst|].
    assert (E : geometric_mean st = -1).
    { apply Hneg. unfold np_prod. simpl. lra. }
    assert (E' : geometric_mean st = -1).
    { apply Hloss. simpl. right. now left. }
    exact E.
  - destruct (geometric_mean_formula no_moments no_moments "A" "d" "src" with_gap)
      as (st & Hst & _ & Hpos & _); [discriminate|].
    exists st. split; [exact Hst|].
    apply Hpos. unfold np_prod. simpl. lra.
Defined.

(** C3 as stated fails: with a single observation no error is raised, the
    call returns statistics with one year and a NaN standard deviation. *)
Lemma single_observation_succeeds :
  exists st,
    compute_stats no_moments no_moments "T-Bills" "d" "src" one_point = Ok st
    /\ num_years st = 1%nat /\ std_dev st = None.
Proof. eexists. split; [reflexivity|]. split; reflexivity. Qed.

Lemma compute_stats_outcomes_witness :
  compute_stats no_moments no_moments "A" "d" "src" only_missing
  = Raise (ValueError "No valid returns data for A")
  /\ (exists st, compute_stats no_moments no_moments "A" "d" "src" one_point = Ok st
                 /\ std_dev st = None)
  /\ (exists st sd, compute_stats no_moments no_moments "A" "d" "src" wipeout = Ok st
                    /\ std_dev st = Some sd /\ 0 <= sd).
Proof.
  split; [|split].
  - apply (proj1 (compute_stats_outcomes no_moments no_moments "A" "d" "src"
                    only_missing)).
    reflexivity.
  - apply (proj1 (proj2 (compute_stats_outcomes no_moments no_moments "A" "d" "src"
                           one_point))).
    reflexivity.
  - apply (proj2 (proj2 (compute_stats_outcomes no_moments no_moments "A" "d" "src"
                           wipeout))).
    simpl. lia.
Defined.

Lemma missing_values_dropped_witness :
  (exists st,
      compute_stats no_moments no_moments "A" "d" "src" with_gap = Ok st
      /\ num_years st = 2%nat
      /\ annual_returns st = [1 / 10; 1 / 5]
      /\ (start_year st <= 2002 <= end_year st)%Z
      /\ min_return st <= 1 / 5 <= max_return st)
  /\ compute_stats no_moments no_moments "A" "d" "src" only_missing
     = Raise (ValueError "No valid returns data for A").
Proof.
  split.
  - eexists. split; [reflexivity|].
    destruct (missing_values_dropped no_moments no_moments "A" "d" "src" with_gap)
      as (_ & _ & H).
    destruct (H _ eq_refl)
      as (Hn & Harr & _ & _ & Hyears & _ & _ & _ & _ & _ & Hvals & _).
    split; [exact Hn|]. split; [exact Harr|]. split.
    + apply Hyears. simpl. right. now left.
    + apply Hvals. simpl. right. now left.
  - destruct (missing_values_dropped no_moments no_moments "A" "d" "src"
                only_missing) as (_ & Hiff & _).
    apply (proj2 Hiff). reflexivity.
Defined.

End StatsProps.

(** ** Fallback chain *)

Module OrchestratorProps.
Import Stats Orchestrator.

Lemma first_success_found {A} (failed : list (string * exn)) (id : string) (a : A)
    (post : list (string * result A)) (trace : list (string * exn)) :
  first_success (map (fun p => (fst p, Raise (snd p))) failed ++ (id, Ok a) :: post)
                trace
  = (trace ++ failed, Some (id, a)).
Proof.
  revert trace. induction failed as [|[l e] failed IH]; intros trace; simpl.
  - now rewrite app_nil_r.
  - rewrite IH. now rewrite <- app_assoc.
Qed.

Lemma first_success_exhausted {A} (failed : list (string * exn))
    (trace : list (string * exn)) :
  first_success (A := A) (map (fun p => (fst p, Raise (snd p))) failed) trace
  = (trace ++ failed, None).
Proof.
  revert trace. induction failed as [|[l e] failed IH]; intros trace; simpl.
  - now rewrite app_nil_r.
  - rewrite IH. now rewrite <- app_assoc.
Qed.

Section Sources.
Variables pd_skew pd_kurtosis : list R -> option R.
Variables HAS_OPENPYXL HAS_YFINANCE : bool.
Variable fetch_shiller_sp500_returns : Z -> result AssetStats.
Variable fetch_french_market_returns : Z -> result AssetStats.
Variable fetch_yahoo_annual_returns : string -> Z -> result series.

#[local] Abbreviation run :=
  (fetch_sp500_best_run pd_skew pd_kurtosis HAS_OPENPYXL HAS_YFINANCE
     fetch_shiller_sp500_returns fetch_french_market_returns
     fetch_yahoo_annual_returns).
#[local] Abbreviation best :=
  (fetch_sp500_best pd_skew pd_kurtosis HAS_OPENPYXL HAS_YFINANCE
     fetch_shiller_sp500_returns fetch_french_market_returns
     fetch_yahoo_annual_returns).
#[local] Abbreviation candidates :=
  (sp500_candidates pd_skew pd_kurtosis HAS_OPENPYXL HAS_YFINANCE
     fetch_shiller_sp500_returns fetch_french_market_returns
     fetch_yahoo_annual_returns).
#[local] Abbreviation from_yahoo :=
  (sp500_from_yahoo pd_skew pd_kurtosis fetch_yahoo_annual_returns).

(** The unrolled statements of [fetch_sp500_best] are the chain of the
    specification over the candidates whose capability is present. *)
Lemma fetch_sp500_best_run_chain (start_year : Z) :
  run start_year = outcome (first_success (candidates start_year) []).
Proof.
  unfold fetch_sp500_best_run, sp500_candidates, try_return, outcome.
  destruct HAS_OPENPYXL, HAS_YFINANCE;
    destruct (fetch_shiller_sp500_returns start_year);
    destruct (fetch_french_market_returns (Z.max start_year 1926));
    destruct (from_yahoo start_year); reflexivity.
Qed.

Lemma yahoo_provenance (start_year : Z) (stats : AssetStats) :
  from_yahoo start_year = Ok stats -> source stats = "Yahoo Finance"%string.
Proof.
  unfold sp500_from_yahoo, rbind.
  destruct (fetch_yahoo_annual_returns _ _) as [returns|e]; [|discriminate].
  unfold compute_stats.
  destruct (dropna returns) as [|[y0 r0] rest]; [discriminate|].
  intros H. injection H as <-. reflexivity.
Qed.

Lemma candidate_yahoo (start_year : Z) (stats : AssetStats) :
  In ("Yahoo"%string, Ok stats) (candidates start_year) ->
  from_yahoo start_year = Ok stats.
Proof.
  unfold sp500_candidates. intros H.
  apply in_app_or in H. destruct H as [H|H].
  { destruct HAS_OPENPYXL; simpl in H; [|tauto].
    destruct H as [H|[]]. discriminate H. }
  apply in_app_or in H. destruct H as [H|H].
  { destruct H as [H|[]]. discriminate H. }
  destruct HAS_YFINANCE; simpl in H; [|tauto].
  destruct H as [H|[]]. congruence.
Qed.

(** C4, as the code has it: when the candidates tried before [B] failed
    and [B] succeeded with [stats], the caller receives [stats] itself,
    with the provenance the source gave it ("Yahoo Finance" for the Yahoo
    attempt).  The failures are in the local list [errors] when the
    function returns, but they are not part of what is returned; they
    reach the caller only in the message of the error raised when every
    candidate failed, in the order of the attempts. *)
Theorem fallback_returns_first_success (start_year : Z)
    (failed : list (string * exn)) :
  (forall B stats post,
      candidates start_year = failures failed ++ (B, Ok stats) :: post ->
      best start_year = Ok stats
      /\ fst (run start_year) = map trace_entry failed
      /\ (B = "Yahoo"%string -> source stats = "Yahoo Finance"%string))
  /\ (candidates start_year = failures failed ->
      best start_year
      = Raise (ValueError ("Could not fetch S&P 500 data: "
                           ++ String.concat "; " (map trace_entry failed)))).
Proof.
  split.
  - intros B stats post Hc.
    unfold fetch_sp500_best. rewrite fetch_sp500_best_run_chain, Hc.
    unfold failures. rewrite first_success_found. simpl.
    repeat split.
    intros ->. apply (yahoo_provenance start_year), candidate_yahoo.
    rewrite Hc. apply in_or_app. right. now left.
  - intros Hc.
    unfold fetch_sp500_best. rewrite fetch_sp500_best_run_chain, Hc.
    unfold failures. rewrite first_success_exhausted. reflexivity.
Qed.

End Sources.

(** C4 as stated fails: the value returned after a failure of the first
    source is the record of the second source and nothing else.  Two runs
    that differ in the failure of the first source record different
    entries in [errors] and return the same value. *)
Lemma failure_trace_not_returned :
  snd (shiller_fails (ImportError "openpyxl required for Shiller data"))
  = Ok french_stats
  /\ snd (shiller_fails (ValueError "No valid returns data for S&P 500"))
     = Ok french_stats
  /\ fst (shiller_fails (ImportError "openpyxl required for Shiller data"))
     = ["Shiller: openpyxl required for Shiller data"%string]
  /\ fst (shiller_fails (ValueError "No valid returns data for S&P 500"))
     = ["Shiller: No valid returns data for S&P 500"%string].
Proof. repeat split; reflexivity. Qed.

Lemma fallback_returns_first_success_witness :
  fetch_sp500_best no_moments no_moments true true
    (fun _ => Raise (ImportError "openpyxl required for Shiller data"))
    (fun _ => Ok french_stats)
    (fun _ _ => Raise (ImportError "yfinance is required")) 1871
  = Ok french_stats
  /\ (exists stats,
         fetch_sp500_best no_moments no_moments false true
           (fun _ => Raise (ImportError "openpyxl required for Shiller data"))
           (fun _ => Raise (ValueError "No valid returns data for US Market"))
           (fun _ _ => Ok one_point) 1871
         = Ok stats
         /\ source stats = "Yahoo Finance"%string)
  /\ fetch_sp500_best no_moments no_moments false false
       (fun _ => Raise (ImportError "openpyxl required for Shiller data"))
       (fun _ => Raise (ValueError "No valid returns data for US Market"))
       (fun _ _ => Raise (ImportError "yfinance is required")) 1871
     = Raise (ValueError
                "Could not fetch S&P 500 data: French: No valid returns data for US Market").
Proof.
  split; [|split].
  - apply (proj1 (fallback_returns_first_success
                    no_moments no_moments true true
                    (fun _ => Raise (ImportError "openpyxl required for Shiller data"))
                    (fun _ => Ok french_stats)
                    (fun _ _ => Raise (ImportError "yfinance is required")) 1871
                    [("Shiller"%string,
                      ImportError "openpyxl required for Shiller data")])
                 "French"%string french_stats
                 [("Yahoo"%string, Raise (ImportError "yfinance is required"))]).
    reflexivity.
  - eexists.
    destruct (proj1 (fallback_returns_first_success
                       no_moments no_moments false true
                       (fun _ => Raise (ImportError "openpyxl required for Shiller data"))
                       (fun _ => Raise (ValueError "No valid returns data for US Market"))
                       (fun _ _ => Ok one_point) 1871
                       [("French"%string,
                         ValueError "No valid returns data for US Market")])
                    "Yahoo"%string _ [] eq_refl) as (Hbest & _ & Hsrc).
    split; [exact Hbest | exact (Hsrc eq_refl)].
  - apply (proj2 (fallback_returns_first_success
                    no_moments no_moments false false
                    (fun _ => Raise (ImportError "openpyxl required for Shiller data"))
                    (fun _ => Raise (ValueError "No valid returns data for US Market"))
                    (fun _ _ => Raise (ImportError "yfinance is required")) 1871
                    [("French"%string,
                      ValueError "No valid returns data for US Market")])).
    reflexivity.
Defined.

End OrchestratorProps.

(** ** Source adapters: the current calendar year *)

Module AdaptersProps.
Import Stats Adapters.
Open Scope R_scope.

Lemma index_lt_years (hi : Z) (s : list (Z * R)) :
  Forall (fun p => (fst p < hi)%Z) (index_lt hi s).
Proof.
  unfold index_lt. apply List.Forall_forall. intros p Hp.
  apply list_elem_of_In, list_elem_of_filter in Hp. tauto.
Qed.

Section WithPandas.
Variables pd_skew pd_kurtosis : list R -> option R.

(** The French adapter removes the current year: the last year of its
    statistics is before the year of the call. *)
Lemma french_excludes_current_year (rows : list (Z * R * R))
    (start_year current_year : Z) (st : AssetStats) :
  fetch_french_market_returns pd_skew pd_kurtosis rows start_year current_year
  = Ok st ->
  (end_year st < current_year)%Z.
Proof.
  unfold fetch_french_market_returns. intros H.
  destruct (StatsProps.compute_stats_result _ _ _ _ _ _ _ H)
    as (_ & _ & _ & Hend & _).
  rewrite StatsProps.dropna_to_series in Hend.
  apply in_map_iff in Hend. destruct Hend as (p & <- & Hp).
  pose proof (index_lt_years current_year
                (index_ge start_year
                   (map (fun row => let '(year, mkt_rf, rf) := row in
                                    (year, mkt_rf / 100 + rf / 100)) rows))) as Hall.
  rewrite List.Forall_forall in Hall. now apply Hall.
Qed.

End WithPandas.

(** *** The Yahoo adapter keeps the last year of the download *)

Lemma resample_app (rows : list (Z * R)) (r1 r2 : Z * R) :
  exists pre,
    resample_YE_last (rows ++ [r1; r2]) = pre ++ resample_YE_last [r1; r2].
Proof.
  induction rows as [|[y p] rows [pre IH]].
  - now exists [].
  - cbn [app resample_YE_last].
    destruct (rows ++ [r1; r2]) as [|[y' p'] rest] eqn:E.
    { destruct rows; discriminate E. }
    destruct (y =? y')%Z.
    + exists pre. exact IH.
    + exists ((y, Some p) :: empty_bins y y' ++ pre).
      rewrite IH. cbn [app]. now rewrite app_assoc.
Qed.

Lemma ffill_app (prev : option R) (s1 s2 : list (Z * option R)) :
  exists prev', ffill prev (s1 ++ s2) = ffill prev s1 ++ ffill prev' s2.
Proof.
  revert prev. induction s1 as [|[y v] s1 IH]; intros prev.
  - now exists prev.
  - cbn [app ffill]. destruct (IH (match v with Some _ => v | None => prev end))
      as [prev' E].
    exists prev'. now rewrite E.
Qed.

Lemma pct_from_app (prev : option R) (s1 s2 : list (Z * option R)) :
  exists prev', pct_from prev (s1 ++ s2) = pct_from prev s1 ++ pct_from prev' s2.
Proof.
  revert prev. induction s1 as [|[y v] s1 IH]; intros prev.
  - now exists prev.
  - cbn [app pct_from]. destruct (IH v) as [prev' E].
    exists prev'. now rewrite E.
Qed.

Lemma dropna_app (s1 s2 : series) : dropna (s1 ++ s2) = dropna s1 ++ dropna s2.
Proof.
  induction s1 as [|[y [v|]] s1 IH]; simpl; [reflexivity | now rewrite IH | exact IH].
Qed.

(** When the rows of a download end with a close of the year before and
    a close of the running year, the change between the two is a point
    of the result, indexed by the running year. *)
Lemma pct_change_last_year (pad : bool) (rows : list (Z * R)) (year : Z) (a b : R) :
  In (year, b / a - 1)
     (dropna (pct_change pad
                (resample_YE_last (rows ++ [((year - 1)%Z, a); (year, b)])))).
Proof.
  destruct (resample_app rows ((year - 1)%Z, a) (year, b)) as [pre ->].
  assert (Htail : resample_YE_last [((year - 1)%Z, a); (year, b)]
                  = [((year - 1)%Z, Some a); (year, Some b)]).
  { cbn [resample_YE_last].
    destruct (Z.eqb_spec (year - 1) year) as [E|_]; [lia|].
    unfold empty_bins. replace (year - (year - 1) - 1)%Z with 0%Z by lia.
    reflexivity. }
  rewrite Htail. unfold pct_change.
  assert (Hfill : exists pre',
             (if pad
              then ffill None (pre ++ [((year - 1)%Z, Some a); (year, Some b)])
              else pre ++ [((year - 1)%Z, Some a); (year, Some b)])
             = pre' ++ [((year - 1)%Z, Some a); (year, Some b)]).
  { destruct pad.
    - destruct (ffill_app None pre [((year - 1)%Z, Some a); (year, Some b)])
        as [prev' E].
      exists (ffill None pre). now rewrite E.
    - now exists pre. }
  destruct Hfill as [pre' ->].
  destruct (pct_from_app None pre' [((year - 1)%Z, Some a); (year, Some b)])
    as [prev' ->].
  rewrite dropna_app. apply in_or_app. right.
  cbn [pct_from]. destruct prev'; simpl; auto.
Qed.

Section Yahoo.
Variable pad : bool.
Variable yahoo_history : string -> list (Z * R).
Variable yahoo_cache : string -> Z -> Z -> option (list (Z * R)).

(** With yfinance present and nothing cached, a download whose rows end
    with the year before and the running year gives a series with a point
    in the running year. *)
Lemma yahoo_current_year_in_series (current_year : Z) (ticker : string)
    (start_year : Z) (rows : list (Z * R)) (a b : R) :
  yahoo_cache ticker start_year current_year = None ->
  filter (fun p => (start_year <= fst p)%Z /\ (fst p < current_year + 1)%Z)
         (yahoo_history ticker)
  = rows ++ [((current_year - 1)%Z, a); (current_year, b)] ->
  exists returns,
    fetch_yahoo_annual_returns pad true yahoo_history yahoo_cache
      current_year ticker start_year None = Ok returns
    /\ In (current_year, b / a - 1) returns.
Proof.
  intros Hcache Hdata. unfold fetch_yahoo_annual_returns.
  cbn [negb]. rewrite Hcache, Hdata.
  destruct (rows ++ [((current_year - 1)%Z, a); (current_year, b)])
    as [|r0 rest] eqn:E.
  { destruct rows; discriminate E. }
  eexists. split; [reflexivity|]. rewrite <- E.
  apply pct_change_last_year.
Qed.

End Yahoo.

(** C5, at the failing input: a call of [fetch_reits_yahoo] made in 2025,
    with nothing cached, returns statistics over 2024 and 2025: the change
    from the last close of 2024 to the latest close of the running year is
    one of the two annual returns.  Neither [fetch_yahoo_annual_returns]
    nor its callers filter the index against the current year. *)
Theorem yahoo_keeps_current_year :
  (exists st,
      fetch_reits_yahoo no_moments no_moments true true
        vnq_history empty_yahoo_cache 2025 = Ok st
      /\ start_year st = 2024%Z /\ end_year st = 2025%Z /\ num_years st = 2%nat)
  /\ (exists st,
         fetch_reits_yahoo no_moments no_moments false true
           vnq_history empty_yahoo_cache 2025 = Ok st
         /\ start_year st = 2024%Z /\ end_year st = 2025%Z /\ num_years st = 2%nat)
  /\ fetch_yahoo_annual_returns true true vnq_history empty_yahoo_cache
       2025 "VNQ" 2004 None
     = Ok [(2024%Z, 110 / 100 - 1); (2025%Z, 121 / 110 - 1)].
Proof.
  split; [|split].
  - eexists. split; [reflexivity|]. repeat split; reflexivity.
  - eexists. split; [reflexivity|]. repeat split; reflexivity.
  - reflexivity.
Qed.

End AdaptersProps.

(** ** Student's t scale *)

Module StudentTProps.
Import Exporter.
Open Scope R_scope.

Lemma scale_ok (s df : R) :
  2 < df -> compute_student_t_scale s df = Ok (s * sqrt ((df - 2) / df)).
Proof.
  intros Hdf. unfold compute_student_t_scale.
  rewrite bool_decide_eq_false_2; [reflexivity | lra].
Qed.

Lemma scale_square (s df : R) :
  2 < df -> (s * sqrt ((df - 2) / df)) ^ 2 * (df / (df - 2)) = s ^ 2.
Proof.
  intros Hdf.
  assert (Hq : 0 <= (df - 2) / df).
  { apply Rlt_le, Rdiv_lt_0_compat; lra. }
  replace ((s * sqrt ((df - 2) / df)) ^ 2)
    with (s ^ 2 * (sqrt ((df - 2) / df) * sqrt ((df - 2) / df))) by ring.
  rewrite (sqrt_def _ Hq). field. split; lra.
Qed.

(** Bounds of a square root from bounds of the squares. *)
Lemma sqrt_between (x lo hi : R) :
  0 <= lo -> 0 <= hi -> lo * lo < x -> x < hi * hi -> lo < sqrt x < hi.
Proof.
  intros Hlo Hhi H1 H2. split.
  - rewrite <- (sqrt_square lo Hlo). apply sqrt_lt_1_alt. nra.
  - rewrite <- (sqrt_square hi Hhi). apply sqrt_lt_1_alt. nra.
Qed.

(** C8: for a target standard deviation [s >= 0] and [df > 2] the scale is
    [s * sqrt ((df - 2) / df)], and [scale ^ 2 * df / (df - 2)] is the
    variance [s ^ 2] again; [s = 0.20] and [df = 5] give a scale within
    [1e-6] of [0.154919] and the variance [0.04]; [df <= 2] raises. *)
Theorem student_t_scale_inverts_variance :
  (forall s df : R, 0 <= s -> 2 < df ->
     exists scale,
       compute_student_t_scale s df = Ok scale
       /\ scale = s * sqrt ((df - 2) / df)
       /\ 0 <= scale
       /\ scale ^ 2 * (df / (df - 2)) = s ^ 2)
  /\ (exists scale,
         compute_student_t_scale 0.20 5 = Ok scale
         /\ Rabs (scale - 0.154919) < 0.000001
         /\ scale ^ 2 * (5 / (5 - 2)) = 0.04)
  /\ (forall s df : R, df <= 2 ->
        compute_student_t_scale s df
        = Raise (ValueError "df must be > 2 for finite variance")).
Proof.
  split; [|split].
  - intros s df Hs Hdf. eexists. split; [now apply scale_ok|].
    split; [reflexivity|]. split; [|now apply scale_square].
    apply Rmult_le_pos; [exact Hs | apply sqrt_pos].
  - eexists. split; [apply scale_ok; lra|]. split.
    + destruct (sqrt_between ((5 - 2) / 5) 0.77459 0.7746) as [H1 H2]; try lra.
      apply Rabs_def1; lra.
    + rewrite scale_square; lra.
  - intros s df Hdf. unfold compute_student_t_scale.
    now rewrite bool_decide_eq_true_2.
Qed.

Lemma student_t_scale_inverts_variance_witness :
  (exists scale,
      compute_student_t_scale (1 / 10) 4 = Ok scale
      /\ scale = 1 / 10 * sqrt ((4 - 2) / 4)
      /\ 0 <= scale
      /\ scale ^ 2 * (4 / (4 - 2)) = (1 / 10) ^ 2)
  /\ compute_student_t_scale (1 / 10) 2
     = Raise (ValueError "df must be > 2 for finite variance").
Proof.
  split.
  - apply (proj1 student_t_scale_inverts_variance (1 / 10) 4); lra.
  - apply (proj2 (proj2 student_t_scale_inverts_variance) (1 / 10) 2); lra.
Defined.

End StudentTProps.

(** ** LogNormal: the CSV utility *)

Module InflationProps.
Import Inflation.
Open Scope R_scope.

Lemma filter_split_length (P : R -> Prop) `{forall x, Decision (P x)} (l : list R) :
  (length (filter P l) + length (filter (fun x => ~ P x) l) = length l)%nat.
Proof.
  induction l as [|a l IH]; [reflexivity|].
  rewrite !filter_cons.
  destruct (decide (P a)), (decide (~ P a)); cbn [length]; try tauto.
  - cbn [Nat.add]. f_equal. exact IH.
  - rewrite Nat.add_succ_r. f_equal. exact IH.
Qed.

Lemma excluded_count (values : list R) :
  excluded values = (length (multipliers values) - length (positive values))%nat
  /\ (length (positive values) <= length (multipliers values))%nat.
Proof.
  unfold excluded, positive.
  pose proof (filter_split_length (fun m => m > 0) (multipliers values)) as H.
  revert H.
  generalize (length (filter (fun m => m > 0) (multipliers values))).
  generalize (length (filter (fun m => ~ m > 0) (multipliers values))).
  generalize (length (multipliers values)).
  intros; lia.
Qed.

(** The statement of lines 91-95 prints the warning of the definition. *)
Lemma warning_printed (value_name : string) (values : list R) :
  (if (length (positive values) <? length (multipliers values))%nat
   then print (ExcludedWarning
                 (length (multipliers values) - length (positive values))
                 value_name)
   else mret tt)
  = (warning value_name values, Ok tt).
Proof.
  destruct (excluded_count values) as [Hc Hle]. unfold warning.
  destruct (Nat.ltb_spec (length (positive values)) (length (multipliers values)))
    as [Hlt|Hge].
  - rewrite <- Hc. destruct (excluded values) eqn:E; [lia | reflexivity].
  - destruct (excluded values) eqn:E; [reflexivity | lia].
Qed.

Lemma lognormal_section_unfold (value_name : string) (values : list R) :
  lognormal_section value_name values
  = (_ ← (warning value_name values, Ok tt);
     match positive values with
     | _ :: _ =>
         mu ← lift (mean (map ln (positive values)));
         sigma ← lift (std_dev (map ln (positive values)) true);
         print (Lognormal mu sigma)
     | [] => print LognormalCannot
     end).
Proof.
  unfold lognormal_section. fold (multipliers values). fold (positive values).
  now rewrite warning_printed.
Qed.

Lemma mean_nonempty (l : list R) : l <> [] -> mean l = Ok (sample_mean l).
Proof. destruct l; [congruence | reflexivity]. Qed.

Lemma std_dev_sample (l : list R) :
  (2 <= length l)%nat -> std_dev l true = Ok (sample_std l).
Proof.
  intros Hn. unfold std_dev.
  rewrite mean_nonempty by (destruct l; [simpl in Hn; lia | discriminate]).
  simpl rbind.
  destruct (Z.eqb_spec (Z.of_nat (length l) - 1) 0) as [E|_]; [lia|].
  unfold sample_std. do 3 f_equal.
  rewrite minus_INR by lia. rewrite minus_IZR, <- INR_IZR_INZ. reflexivity.
Qed.

Lemma std_dev_single (x : R) :
  std_dev [x] true = Raise (ZeroDivisionError "float division by zero").
Proof. reflexivity. Qed.

(** No positive multiplier: the notice replaces the lognormal line. *)
Lemma lognormal_section_none (value_name : string) (values : list R) :
  positive values = [] ->
  lognormal_section value_name values
  = (warning value_name values ++ [LognormalCannot], Ok tt).
Proof. intros H. rewrite lognormal_section_unfold, H. reflexivity. Qed.

(** Two or more positive multipliers: the line carries the mean and the
    sample standard deviation of their logarithms. *)
Lemma lognormal_section_fit (value_name : string) (values : list R) :
  (2 <= length (positive values))%nat ->
  lognormal_section value_name values
  = (warning value_name values
     ++ [Lognormal (sample_mean (map ln (positive values)))
                   (sample_std (map ln (positive values)))],
     Ok tt).
Proof.
  intros Hn. rewrite lognormal_section_unfold.
  destruct (positive values) as [|m ms] eqn:E; [simpl in Hn; lia|].
  rewrite mean_nonempty by discriminate.
  rewrite std_dev_sample by (rewrite length_map; exact Hn).
  reflexivity.
Qed.

(** Exactly one positive multiplier: the division by [n - 1 = 0] raises
    and no lognormal line is printed. *)
Lemma lognormal_section_single (value_name : string) (values : list R) (m : R) :
  positive values = [m] ->
  lognormal_section value_name values
  = (warning value_name values, Raise (ZeroDivisionError "float division by zero")).
Proof.
  intros H. rewrite lognormal_section_unfold, H. simpl.
  now rewrite app_nil_r.
Qed.

End InflationProps.

(** ** LogNormal: the Rust exporter *)

Module RustGateProps.
Import Stats DecimalText Exporter.
Open Scope R_scope.

Lemma Ok_inj {A} (a b : A) : Ok a = Ok b -> a = b.
Proof. congruence. Qed.

Lemma append_inv_head (p a b : string) : (p ++ a)%string = (p ++ b)%string -> a = b.
Proof.
  induction p as [|c p IH]; simpl; [auto|].
  intros H. injection H as H. auto.
Qed.

(** Two texts that share a prefix and then differ in a character are
    different. *)
Ltac differ H :=
  repeat (simpl in H;
          match type of H with
          | String _ _ = String _ _ =>
              let Hc := fresh "Hc" in
              injection H as Hc H; try discriminate Hc
          | (?p ++ _)%string = (?p ++ _)%string => apply append_inv_head in H
          end);
  try discriminate H.

Lemma header_not_in_base (stats : AssetStats) (rn : string) :
  ~ In (lognormal_header rn) (base_lines stats rn).
Proof.
  unfold base_lines, lognormal_header. intros H.
  repeat (destruct H as [H|H]; [differ H|]). exact H.
Qed.

Lemma header_not_in_student (stats : AssetStats) (rn : string) (scale : R) :
  ~ In (lognormal_header rn) (student_t_lines stats rn scale).
Proof.
  unfold student_t_lines, lognormal_header. intros H.
  repeat (destruct H as [H|H]; [differ H|]). exact H.
Qed.

Lemma header_in_lognormal (stats : AssetStats) (rn : string) :
  In (lognormal_header rn) (lognormal_lines stats rn).
Proof. now left. Qed.

Lemma format_rust_const_lines_shape (stats : AssetStats) (const_prefix : string) :
  format_rust_const_lines stats const_prefix
  = Ok (base_lines stats (rust_name const_prefix)
        ++ (if lognormal_appropriate stats
            then lognormal_lines stats (rust_name const_prefix) else [])
        ++ student_block stats (rust_name const_prefix)).
Proof.
  unfold format_rust_const_lines, student_block.
  destruct (std_dev stats) as [s|].
  - destruct (bool_decide (s > 0.05)).
    + rewrite StudentTProps.scale_ok by lra. simpl rbind.
      destruct (lognormal_appropriate stats);
        now rewrite <- ?app_assoc, ?app_nil_l.
    + destruct (lognormal_appropriate stats); now rewrite ?app_nil_r.
  - destruct (lognormal_appropriate stats); now rewrite ?app_nil_r.
Qed.

Lemma header_not_in_student_block (stats : AssetStats) (rn : string) :
  ~ In (lognormal_header rn) (student_block stats rn).
Proof.
  unfold student_block. destruct (std_dev stats) as [s|]; [|tauto].
  destruct (bool_decide _); [apply header_not_in_student | tauto].
Qed.

(** The LogNormal constant is written exactly under the condition of
    line 1365. *)
Lemma lognormal_block_iff (stats : AssetStats) (const_prefix : string)
    (lines : list string) :
  format_rust_const_lines stats const_prefix = Ok lines ->
  In (lognormal_header (rust_name const_prefix)) lines
  <-> lognormal_appropriate stats = true.
Proof.
  rewrite format_rust_const_lines_shape. intros H.
  apply Ok_inj in H. subst lines.
  rewrite !in_app_iff. split.
  - intros [H|[H|H]].
    + now apply header_not_in_base in H.
    + destruct (lognormal_appropriate stats); [reflexivity | destruct H].
    + now apply header_not_in_student_block in H.
  - intros ->. right. left. apply header_in_lognormal.
Qed.

Lemma lognormal_appropriate_spec (stats : AssetStats) :
  lognormal_appropriate stats = true
  <-> arithmetic_mean stats > 0
      /\ exists s, std_dev stats = Some s /\ s < arithmetic_mean stats * 3.
Proof.
  unfold lognormal_appropriate. rewrite andb_true_iff, bool_decide_eq_true.
  destruct (std_dev stats) as [s|].
  - rewrite bool_decide_eq_true. split.
    + intros [H1 H2]. split; [exact H1|]. now exists s.
    + intros [H1 (s' & [= <-] & H2)]. now split.
  - split; [intros [_ H]; discriminate H|].
    intros [_ (s' & H & _)]. discriminate H.
Qed.

End RustGateProps.

(** ** LogNormal: both rules *)

Module LogNormalProps.
Import Stats DecimalText Exporter Inflation.
Open Scope R_scope.



Lemma positive_none : positive [- (3 / 2); -2] = [].
Proof.
  unfold positive, multipliers. simpl map.
  rewrite !filter_cons_False by lra. reflexivity.
Qed.

Lemma positive_two :
  positive [1 / 20; - (3 / 2); 1 / 10] = [1 + 1 / 20; 1 + 1 / 10].
Proof.
  unfold positive, multipliers. simpl map.
  rewrite filter_cons_True by lra. rewrite filter_cons_False by lra.
  rewrite filter_cons_True by lra. reflexivity.
Qed.

Lemma excluded_none : excluded [1 / 20; 1 / 10] = 0%nat.
Proof.
  unfold excluded, multipliers. simpl map.
  rewrite !filter_cons_False by (intros H; apply H; lra). reflexivity.
Qed.

Lemma excluded_one : excluded [1 / 20; - (3 / 2); 1 / 10] = 1%nat.
Proof.
  unfold excluded, multipliers. simpl map.
  rewrite filter_cons_False by (intros H; apply H; lra).
  rewrite filter_cons_True by lra.
  rewrite filter_cons_False by (intros H; apply H; lra). reflexivity.
Qed.


End LogNormalProps.

(** ** Decimal text *)

Module DecimalProps.
Import DecimalText.
Open Scope Z_scope.

Lemma fold_digits (ds : list Z) (acc : Z) :
  fold_left (fun a d => 10 * a + d) ds acc
  = acc * 10 ^ Z.of_nat (length ds) + digits_value ds.
Proof.
  unfold digits_value. revert acc.
  induction ds as [|d ds IH]; intros acc.
  - simpl. lia.
  - cbn [fold_left length]. rewrite IH, (IH (10 * 0 + d)).
    rewrite Nat2Z.inj_succ, Z.pow_succ_r by lia. ring.
Qed.

Lemma digits_value_app (l1 l2 : list Z) :
  digits_value (l1 ++ l2)
  = digits_value l1 * 10 ^ Z.of_nat (length l2) + digits_value l2.
Proof.
  unfold digits_value at 1. rewrite fold_left_app.
  fold (digits_value l1). apply fold_digits.
Qed.

Lemma digits_value_cons (d : Z) (ds : list Z) :
  digits_value (d :: ds) = d * 10 ^ Z.of_nat (length ds) + digits_value ds.
Proof. apply (digits_value_app [d] ds). Qed.

Lemma digits_value_nonneg (ds : list Z) : all_digits ds -> 0 <= digits_value ds.
Proof.
  induction 1 as [|d ds Hd _ IH]; [unfold digits_value; simpl; lia|].
  rewrite digits_value_cons.
  assert (0 < 10 ^ Z.of_nat (length ds)) by (apply Z.pow_pos_nonneg; lia). nia.
Qed.

Lemma digits_value_bound (ds : list Z) :
  all_digits ds -> digits_value ds < 10 ^ Z.of_nat (length ds).
Proof.
  induction 1 as [|d ds Hd _ IH]; [unfold digits_value; simpl; lia|].
  rewrite digits_value_cons. cbn [length].
  rewrite Nat2Z.inj_succ, Z.pow_succ_r by lia. nia.
Qed.

Lemma digits_value_zeros (k : nat) : digits_value (replicate k 0) = 0.
Proof.
  induction k as [|k IH]; [reflexivity|].
  cbn [replicate]. rewrite digits_value_cons, IH. lia.
Qed.

Lemma all_digits_zeros (k : nat) : all_digits (replicate k 0).
Proof. induction k; constructor; [lia | assumption]. Qed.

Lemma all_digits_app (l1 l2 : list Z) :
  all_digits l1 -> all_digits l2 -> all_digits (l1 ++ l2).
Proof. intros H1 H2. apply Forall_app. now split. Qed.

Lemma digits_fixed_length (w : nat) (n : Z) : length (digits_fixed w n) = w.
Proof.
  revert n. induction w as [|w IH]; intros n; [reflexivity|].
  cbn [digits_fixed]. rewrite length_app, IH. simpl. lia.
Qed.

Lemma digits_fixed_range (w : nat) (n : Z) : all_digits (digits_fixed w n).
Proof.
  revert n. induction w as [|w IH]; intros n; [constructor|].
  cbn [digits_fixed]. apply all_digits_app; [apply IH|].
  constructor; [|constructor]. pose proof (Z.mod_pos_bound n 10). lia.
Qed.

Lemma digits_fixed_value (w : nat) (n : Z) :
  digits_value (digits_fixed w n) = n mod 10 ^ Z.of_nat w.
Proof.
  revert n. induction w as [|w IH]; intros n.
  - simpl. now rewrite Z.mod_1_r.
  - cbn [digits_fixed]. rewrite digits_value_app, IH.
    change (digits_value [n mod 10]) with (10 * 0 + n mod 10).
    change (Z.of_nat (length [n mod 10])) with 1. rewrite Z.pow_1_r.
    rewrite Nat2Z.inj_succ, Z.pow_succ_r by lia.
    assert (Hp : 0 < 10 ^ Z.of_nat w) by (apply Z.pow_pos_nonneg; lia).
    rewrite (Z.mul_comm 10), Z.rem_mul_r by lia. lia.
Qed.

Lemma digits_fixed_exact (w : nat) (n : Z) :
  0 <= n < 10 ^ Z.of_nat w -> digits_value (digits_fixed w n) = n.
Proof. intros H. rewrite digits_fixed_value. now apply Z.mod_small. Qed.

Lemma num_digits_fuel_bound (fuel : nat) (n : Z) :
  0 <= n -> n < 2 ^ Z.of_nat (S fuel) ->
  n < 10 ^ Z.of_nat (num_digits_fuel fuel n).
Proof.
  revert n. induction fuel as [|fuel IH]; intros n Hn Hlt.
  - simpl in *. lia.
  - cbn [num_digits_fuel]. destruct (Z.ltb_spec n 10) as [H|H]; [simpl; lia|].
    rewrite Nat2Z.inj_succ, Z.pow_succ_r by lia.
    assert (Hq : n / 10 < 10 ^ Z.of_nat (num_digits_fuel fuel (n / 10))).
    { apply IH; [apply Z.div_pos; lia|].
      rewrite Nat2Z.inj_succ, Z.pow_succ_r in Hlt by lia.
      apply Z.div_lt_upper_bound; lia. }
    pose proof (Z.div_mod n 10 ltac:(lia)) as Hdm.
    pose proof (Z.mod_pos_bound n 10 ltac:(lia)). lia.
Qed.

Lemma num_digits_bound (n : Z) : 0 <= n -> n < 10 ^ Z.of_nat (num_digits n).
Proof.
  intros Hn. unfold num_digits. apply num_digits_fuel_bound; [exact Hn|].
  destruct (Z.eq_dec n 0) as [->|Hne]; [simpl; lia|].
  rewrite Nat2Z.inj_succ, Z2Nat.id by apply Z.log2_nonneg.
  apply Z.log2_spec. lia.
Qed.

Lemma digits_exact (n : Z) : 0 <= n -> digits_value (digits n) = n.
Proof.
  intros Hn. unfold digits. apply digits_fixed_exact.
  split; [exact Hn | now apply num_digits_bound].
Qed.

Lemma num_digits_pos (n : Z) : (1 <= num_digits n)%nat.
Proof.
  unfold num_digits. destruct (Z.to_nat (Z.log2 n)); simpl; [lia|].
  destruct (n <? 10); lia.
Qed.

Lemma digits_nonempty (n : Z) : digits n <> [].
Proof.
  intros H. apply (f_equal (@length Z)) in H.
  unfold digits in H. rewrite digits_fixed_length in H.
  pose proof (num_digits_pos n). simpl in H. lia.
Qed.

Lemma digits_range (n : Z) : all_digits (digits n).
Proof. apply digits_fixed_range. Qed.

(** Removing trailing zeros divides by a power of ten. *)
Lemma strip_range (ds : list Z) :
  all_digits ds -> all_digits (strip_trailing_zeros ds).
Proof.
  induction 1 as [|d ds Hd _ IH]; [constructor|].
  cbn [strip_trailing_zeros].
  destruct (strip_trailing_zeros ds) as [|r rs].
  - destruct (d =? 0); constructor; [exact Hd | constructor].
  - now constructor.
Qed.

Create HintDb digits.
#[local] Hint Resolve digits_fixed_range digits_range all_digits_zeros
  all_digits_app strip_range : digits.

Lemma strip_length (ds : list Z) :
  (length (strip_trailing_zeros ds) <= length ds)%nat.
Proof.
  induction ds as [|d ds IH]; [reflexivity|].
  cbn [strip_trailing_zeros].
  destruct (strip_trailing_zeros ds) as [|r rs].
  - destruct (d =? 0); simpl; lia.
  - simpl in *. lia.
Qed.

Lemma strip_value (ds : list Z) :
  digits_value ds
  = digits_value (strip_trailing_zeros ds)
    * 10 ^ Z.of_nat (length ds - length (strip_trailing_zeros ds)).
Proof.
  induction ds as [|d ds IH]; [reflexivity|].
  pose proof (strip_length ds) as Hlen.
  cbn [strip_trailing_zeros].
  rewrite digits_value_cons, IH.
  destruct (strip_trailing_zeros ds) as [|r rs] eqn:E.
  - change (digits_value []) with 0.
    destruct (Z.eqb_spec d 0) as [->|Hd].
    + change (digits_value []) with 0. lia.
    + change (digits_value [d]) with (10 * 0 + d). cbn [length].
      replace (S (length ds) - 1)%nat with (length ds) by lia. lia.
  - rewrite (digits_value_cons d (r :: rs)).
    cbn [length] in *.
    replace (S (length ds) - S (S (length rs)))%nat
      with (length ds - S (length rs))%nat by lia.
    replace (Z.of_nat (length ds))
      with (Z.of_nat (S (length rs)) + Z.of_nat (length ds - S (length rs)))
      by lia.
    rewrite Z.pow_add_r by lia. ring.
Qed.

Lemma strip_nonempty (ds : list Z) :
  digits_value ds <> 0 -> strip_trailing_zeros ds <> [].
Proof.
  intros Hv E. rewrite strip_value, E in Hv. apply Hv. reflexivity.
Qed.

(** *** Reading back what was printed *)

Lemma digit_of_char_digit (d : Z) :
  0 <= d <= 9 -> digit_of_char (digit_char d) = Some d.
Proof.
  intros Hd.
  assert (H : d = 0 \/ d = 1 \/ d = 2 \/ d = 3 \/ d = 4 \/ d = 5 \/ d = 6
              \/ d = 7 \/ d = 8 \/ d = 9) by lia.
  repeat (destruct H as [->|H]; [reflexivity|]). now subst.
Qed.

Lemma read_digits_stop (rest : list ascii) : stops rest -> read_digits rest = ([], rest).
Proof. destruct rest as [|c r]; simpl; [reflexivity|]. now intros ->. Qed.

Lemma read_digits_render (ds : list Z) (rest : list ascii) :
  all_digits ds -> stops rest ->
  read_digits (render_digits ds ++ rest) = (ds, rest).
Proof.
  intros Hds Hrest. induction Hds as [|d ds Hd _ IH].
  - now apply read_digits_stop.
  - cbn [render_digits map app read_digits].
    rewrite (digit_of_char_digit d Hd). fold (render_digits ds). now rewrite IH.
Qed.

Lemma render_chars_parts (d : numeral) :
  render_chars d
  = (if negative d then ["-"%char] else [])
    ++ render_digits (int_part d) ++ frac_chars (frac_part d)
    ++ exp_chars (exponent d).
Proof. reflexivity. Qed.

Lemma exp_chars_stops (ex : option Z) : stops (exp_chars ex).
Proof. destruct ex; simpl; [reflexivity | exact I]. Qed.

Lemma frac_exp_stops (fp : list Z) (ex : option Z) :
  stops (frac_chars fp ++ exp_chars ex).
Proof.
  destruct fp; simpl; [apply exp_chars_stops | reflexivity].
Qed.

Lemma read_exponent_render (ex : option Z) : read_exponent (exp_chars ex) = Some ex.
Proof.
  destruct ex as [e|]; [|reflexivity].
  unfold exp_chars, render_exponent.
  set (w := Nat.max 2 (num_digits (Z.abs e))).
  assert (Hval : digits_value (digits_fixed w (Z.abs e)) = Z.abs e).
  { apply digits_fixed_exact. split; [lia|].
    eapply Z.lt_le_trans; [apply num_digits_bound; lia|].
    apply Z.pow_le_mono_r; lia. }
  assert (Hlen : length (digits_fixed w (Z.abs e)) = w) by apply digits_fixed_length.
  cbn [read_exponent]. rewrite bool_decide_eq_true_2 by reflexivity.
  rewrite <- (app_nil_r (render_digits _)).
  rewrite read_digits_render by (apply digits_fixed_range || exact I).
  destruct (digits_fixed w (Z.abs e)) as [|d0 ds] eqn:E.
  { simpl in Hlen. lia. }
  rewrite Hval.
  destruct (Z.ltb_spec e 0) as [Hneg|Hpos].
  - rewrite bool_decide_eq_true_2 by reflexivity. do 2 f_equal. lia.
  - rewrite bool_decide_eq_false_2 by discriminate.
    rewrite bool_decide_eq_true_2 by reflexivity. do 2 f_equal. lia.
Qed.

Lemma read_numeral_render (d : numeral) :
  well_formed d -> read_numeral (render d) = Some d.
Proof.
  destruct d as [neg ip fp ex]. intros (Hne & Hip & Hfp). simpl in *.
  unfold read_numeral, render.
  rewrite list_ascii_of_string_of_list_ascii, render_chars_parts. simpl.
  assert (Hbody :
    (let '(ip0, s) := read_digits (render_digits ip ++ frac_chars fp ++ exp_chars ex) in
     match ip0 with
     | [] => None
     | _ :: _ =>
         let '(fp0, s0) :=
           match s with
           | c :: rest =>
               if bool_decide (c = "."%char) then read_digits rest else ([], s)
           | [] => ([], s)
           end in
         e ← read_exponent s0;
         Some {| negative := neg; int_part := ip0; frac_part := fp0; exponent := e |}
     end)
    = Some {| negative := neg; int_part := ip; frac_part := fp; exponent := ex |}).
  { rewrite read_digits_render by (assumption || apply frac_exp_stops).
    destruct ip as [|i0 ip']; [congruence|].
    destruct fp as [|f0 fp'].
    - simpl frac_chars. simpl app.
      destruct ex as [e|].
      + unfold exp_chars at 1, render_exponent at 1.
        rewrite bool_decide_eq_false_2 by discriminate.
        fold (render_exponent e). change (render_exponent e) with (exp_chars (Some e)).
        now rewrite read_exponent_render.
      + reflexivity.
    - cbn [frac_chars app]. rewrite bool_decide_eq_true_2 by reflexivity.
      rewrite read_digits_render by (assumption || apply exp_chars_stops).
      now rewrite read_exponent_render. }
  destruct neg.
  - cbn [app]. rewrite bool_decide_eq_true_2 by reflexivity. exact Hbody.
  - cbn [app].
    destruct ip as [|i0 ip']; [congruence|].
    cbn [render_digits map app]. 
    rewrite bool_decide_eq_false_2.
    + exact Hbody.
    + intros E. inversion Hip as [|? ? Hi0 _]; subst.
      pose proof (digit_of_char_digit i0 Hi0) as Hd. rewrite E in Hd. discriminate Hd.
Qed.

(** *** Rounding *)

Open Scope R_scope.

Lemma Rabs_le_inv (x a : R) : Rabs x <= a -> - a <= x <= a.
Proof. unfold Rabs. destruct (Rcase_abs x); lra. Qed.

Lemma Int_part_bounds (x : R) : IZR (Int_part x) <= x < IZR (Int_part x) + 1.
Proof. destruct (base_Int_part x) as [H1 H2]. lra. Qed.

Lemma Int_part_ge (x : R) (a : Z) : IZR a <= x -> (a <= Int_part x)%Z.
Proof.
  intros H. destruct (Int_part_bounds x) as [_ H2].
  assert (Hlt : IZR a < IZR (Int_part x + 1)) by (rewrite plus_IZR; lra).
  apply lt_IZR in Hlt. lia.
Qed.

Lemma round_half_even_cases (x : R) :
  round_half_even x = Int_part x \/ round_half_even x = (Int_part x + 1)%Z.
Proof.
  unfold round_half_even.
  repeat (destruct (bool_decide _)); auto. destruct (Z.even _); auto.
Qed.

(** The rounded value is within one half of the argument. *)
Lemma round_half_even_spec (x : R) : Rabs (IZR (round_half_even x) - x) <= 1 / 2.
Proof.
  destruct (Int_part_bounds x) as [H1 H2]. unfold round_half_even.
  destruct (bool_decide (x - IZR (Int_part x) < 1 / 2)) eqn:E1.
  { apply bool_decide_eq_true in E1. apply Rabs_le. lra. }
  apply bool_decide_eq_false in E1.
  destruct (bool_decide (x - IZR (Int_part x) > 1 / 2)) eqn:E2.
  { apply bool_decide_eq_true in E2. rewrite plus_IZR. apply Rabs_le. lra. }
  apply bool_decide_eq_false in E2.
  destruct (Z.even (Int_part x)); [|rewrite plus_IZR]; apply Rabs_le; lra.
Qed.

Lemma round_half_even_ge (x : R) (a : Z) : IZR a <= x -> (a <= round_half_even x)%Z.
Proof.
  intros H. apply Int_part_ge in H.
  destruct (round_half_even_cases x) as [-> | ->]; lia.
Qed.

Lemma round_half_even_le (x : R) (b : Z) : x <= IZR b -> (round_half_even x <= b)%Z.
Proof.
  intros H. destruct (Int_part_bounds x) as [H1 H2].
  assert (Hf : (Int_part x <= b)%Z) by (apply le_IZR; lra).
  pose proof (round_half_even_spec x) as Hs. apply Rabs_le_inv in Hs.
  destruct (round_half_even_cases x) as [E | E]; [lia|].
  rewrite E in *. rewrite plus_IZR in Hs.
  destruct (Z.eq_dec (Int_part x) b) as [Eb|]; [|lia].
  exfalso. rewrite Eb in *.
  revert E. unfold round_half_even. rewrite Eb.
  rewrite bool_decide_eq_true_2 by lra. lia.
Qed.

(** A number within less than one half of an integer rounds to it. *)
Lemma round_half_even_near (x : R) (n : Z) :
  Rabs (x - IZR n) < 1 / 2 -> round_half_even x = n.
Proof.
  intros H. apply Rabs_def2 in H.
  pose proof (round_half_even_spec x) as Hs. apply Rabs_le_inv in Hs.
  apply eq_IZR. 
  assert (Hlt : IZR (round_half_even x) - IZR n < 1) by lra.
  assert (Hgt : -1 < IZR (round_half_even x) - IZR n) by lra.
  rewrite <- minus_IZR in Hlt, Hgt.
  apply lt_IZR in Hlt. apply lt_IZR in Hgt. f_equal. lia.
Qed.

Lemma round_half_even_IZR (n : Z) : round_half_even (IZR n) = n.
Proof.
  apply round_half_even_near. rewrite Rminus_diag, Rabs_R0. lra.
Qed.

(** *** Powers of ten *)

Lemma IZR_pow10 (n : nat) : IZR (10 ^ Z.of_nat n) = 10 ^ n.
Proof. now rewrite <- pow_IZR. Qed.

Lemma pow10_pos (n : nat) : 0 < 10 ^ n.
Proof. apply pow_lt. lra. Qed.

Lemma powerRZ10_pos (z : Z) : 0 < powerRZ 10 z.
Proof. apply powerRZ_lt. lra. Qed.

Lemma powerRZ10_add (a b : Z) : powerRZ 10 (a + b) = powerRZ 10 a * powerRZ 10 b.
Proof. apply powerRZ_add. lra. Qed.

Lemma powerRZ10_nat (n : nat) : powerRZ 10 (Z.of_nat n) = 10 ^ n.
Proof. symmetry. apply pow_powerRZ. Qed.

Lemma powerRZ10_neg_nat (n : nat) : powerRZ 10 (- Z.of_nat n) = / 10 ^ n.
Proof. rewrite powerRZ_neg', powerRZ10_nat. reflexivity. Qed.

Lemma ln10_pos : 0 < ln 10.
Proof. rewrite <- ln_1. apply ln_increasing; lra. Qed.

Lemma ln_powerRZ10 (z : Z) : ln (powerRZ 10 z) = IZR z * ln 10.
Proof. rewrite powerRZ_Rpower by lra. apply ln_Rpower. Qed.

Lemma ln_le (x y : R) : 0 < x -> x <= y -> ln x <= ln y.
Proof.
  intros Hx [Hlt | ->]; [|lra]. left. now apply ln_increasing.
Qed.

(** The exponent of a positive number, whichever way it is found. *)
Lemma decimal_exponent_unique (a : R) (e : Z) :
  powerRZ 10 e <= a < powerRZ 10 (e + 1) -> decimal_exponent a = e.
Proof.
  intros [Hlo Hhi]. pose proof (powerRZ10_pos e) as Hpe.
  pose proof ln10_pos as Hl.
  unfold decimal_exponent. symmetry. apply Int_part_spec.
  assert (H1 : IZR e * ln 10 <= ln a).
  { rewrite <- ln_powerRZ10. apply ln_le; lra. }
  assert (H2 : ln a < (IZR e + 1) * ln 10).
  { rewrite <- plus_IZR, <- ln_powerRZ10. apply ln_increasing; lra. }
  split.
  - apply Rmult_lt_reg_r with (ln 10); [exact Hl|].
    unfold Rdiv, Rminus. rewrite Rmult_plus_distr_r, Rmult_assoc, Rinv_l by lra. lra.
  - apply Rmult_le_reg_r with (ln 10); [exact Hl|].
    unfold Rdiv. rewrite Rmult_assoc, Rinv_l by lra. lra.
Qed.

Lemma decimal_exponent_spec (a : R) :
  0 < a ->
  powerRZ 10 (decimal_exponent a) <= a < powerRZ 10 (decimal_exponent a + 1).
Proof.
  intros Ha. pose proof ln10_pos as Hl.
  destruct (Int_part_bounds (ln a / ln 10)) as [H1 H2].
  fold (decimal_exponent a) in H1, H2.
  assert (E : ln a = ln a / ln 10 * ln 10) by (field; lra).
  assert (Hexp : exp (ln a) = a) by now apply exp_ln.
  split.
  - assert (H : IZR (decimal_exponent a) * ln 10 <= ln a) by (rewrite E; nra).
    rewrite powerRZ_Rpower by lra. unfold Rpower. rewrite <- Hexp at 2.
    destruct H as [H | H]; [left; now apply exp_increasing | rewrite H; lra].
  - assert (H : ln a < IZR (decimal_exponent a + 1) * ln 10).
    { rewrite plus_IZR. rewrite E at 1. nra. }
    rewrite powerRZ_Rpower by lra. unfold Rpower. rewrite <- Hexp at 1.
    now apply exp_increasing.
Qed.

Lemma powerRZ10_le (a b : Z) : (a <= b)%Z -> powerRZ 10 a <= powerRZ 10 b.
Proof.
  intros Hab. replace b with (a + Z.of_nat (Z.to_nat (b - a)))%Z by lia.
  rewrite powerRZ10_add, powerRZ10_nat.
  pose proof (powerRZ10_pos a).
  assert (1 <= 10 ^ Z.to_nat (b - a)) by (apply pow_R1_Rle; lra). nra.
Qed.

Lemma IZR_pow10_powerRZ (n : nat) : IZR (10 ^ Z.of_nat n) = powerRZ 10 (Z.of_nat n).
Proof. now rewrite IZR_pow10, powerRZ10_nat. Qed.

(** *** Fixed notation *)

Lemma numeral_value_fixed (neg : bool) (ip fp : list Z) :
  numeral_value {| negative := neg; int_part := ip; frac_part := fp;
                   exponent := None |}
  = sign_factor neg
    * (IZR (digits_value ip) + IZR (digits_value fp) / 10 ^ length fp).
Proof. unfold numeral_value, sign_factor. simpl. ring. Qed.

Lemma scaled_bound (n : Z) (a P : R) :
  0 < P -> Rabs (IZR n - a * P) <= 1 / 2 -> Rabs (IZR n / P - a) <= 1 / 2 / P.
Proof.
  intros HP H. apply Rabs_le_inv in H. apply Rabs_le.
  assert (Hu : 0 < / P) by now apply Rinv_0_lt_compat.
  assert (E : IZR n / P - a = (IZR n - a * P) * / P) by (field; lra).
  rewrite E. unfold Rdiv. split; nra.
Qed.

Lemma signed_bound (x v d : R) :
  Rabs (v - Rabs x) <= d ->
  Rabs (sign_factor (bool_decide (x < 0)) * v - x) <= d.
Proof.
  intros H. apply Rabs_le_inv in H. apply Rabs_le. unfold sign_factor.
  destruct (Rlt_dec x 0) as [Hx|Hx].
  - rewrite bool_decide_eq_true_2 by exact Hx.
    rewrite Rabs_left in H by exact Hx. lra.
  - rewrite bool_decide_eq_false_2 by exact Hx.
    rewrite Rabs_right in H by lra. lra.
Qed.

Lemma round_scaled_nonneg (x P : R) : 0 <= P -> (0 <= round_half_even (Rabs x * P))%Z.
Proof.
  intros HP. apply round_half_even_ge.
  pose proof (Rabs_pos x). simpl. nra.
Qed.

Lemma numeral_f_well_formed (prec : nat) (x : R) : well_formed (numeral_f prec x).
Proof.
  unfold well_formed, numeral_f. simpl.
  split; [apply digits_nonempty|]. split; auto with digits.
Qed.

Lemma numeral_f_value (prec : nat) (x : R) :
  numeral_value (numeral_f prec x)
  = sign_factor (bool_decide (x < 0))
    * (IZR (round_half_even (Rabs x * 10 ^ prec)) / 10 ^ prec).
Proof.
  unfold numeral_f. rewrite numeral_value_fixed. f_equal.
  set (n := round_half_even (Rabs x * 10 ^ prec)).
  assert (Hn : (0 <= n)%Z) by (apply round_scaled_nonneg; left; apply pow10_pos).
  assert (HP : (0 < 10 ^ Z.of_nat prec)%Z) by (apply Z.pow_pos_nonneg; lia).
  rewrite digits_exact by (apply Z.div_pos; lia).
  rewrite digits_fixed_value, Z.mod_mod by lia.
  rewrite digits_fixed_length.
  pose proof (Z.div_mod n (10 ^ Z.of_nat prec) ltac:(lia)) as Hdm.
  apply (f_equal IZR) in Hdm.
  rewrite plus_IZR, mult_IZR, IZR_pow10 in Hdm.
  pose proof (pow10_pos prec). rewrite Hdm. field. lra.
Qed.

(** A number printed with [prec] digits after the point reads back within
    half a unit of the last digit. *)
Lemma fmt_f_round_trip (prec : nat) (x : R) :
  exists y, read_decimal (fmt_f prec (Some x)) = Some y
            /\ Rabs (y - x) <= 1 / 2 / 10 ^ prec.
Proof.
  exists (numeral_value (numeral_f prec x)). split.
  - unfold read_decimal, fmt_f.
    now rewrite read_numeral_render by apply numeral_f_well_formed.
  - rewrite numeral_f_value. apply signed_bound, scaled_bound.
    + apply pow10_pos.
    + apply round_half_even_spec.
Qed.

(** *** Significant digits *)

Lemma value_split (ds : list Z) (j : nat) :
  (j <= length ds)%nat ->
  IZR (digits_value (take j ds))
  + IZR (digits_value (drop j ds)) / 10 ^ length (drop j ds)
  = IZR (digits_value ds) * powerRZ 10 (Z.of_nat j - Z.of_nat (length ds)).
Proof.
  intros Hj.
  pose proof (digits_value_app (take j ds) (drop j ds)) as H.
  rewrite take_drop in H. rewrite H, plus_IZR, mult_IZR, IZR_pow10.
  rewrite length_drop.
  replace (Z.of_nat j - Z.of_nat (length ds))%Z
    with (- Z.of_nat (length ds - j))%Z by lia.
  rewrite powerRZ10_neg_nat.
  pose proof (pow10_pos (length ds - j)). field. lra.
Qed.

Lemma take_nonempty {A} (l : list A) (j : nat) :
  l <> [] -> (1 <= j)%nat -> take j l <> [].
Proof. destruct l, j; simpl; (congruence || lia || discriminate). Qed.

(** The layout of [p] significant digits is a well-formed numeral and
    denotes the digits scaled by the exponent. *)
Lemma layout_g_spec (p : nat) (neg : bool) (n0 e0 : Z) :
  (1 <= p)%nat ->
  (10 ^ (Z.of_nat p - 1) <= n0 <= 10 ^ Z.of_nat p)%Z ->
  well_formed (layout_g p neg n0 e0)
  /\ numeral_value (layout_g p neg n0 e0)
     = sign_factor neg * (IZR n0 * powerRZ 10 (e0 + 1 - Z.of_nat p)).
Proof.
  intros Hp Hn0.
  assert (Hpow : (10 ^ Z.of_nat p = 10 * 10 ^ (Z.of_nat p - 1))%Z).
  { rewrite <- Z.pow_succ_r by lia. f_equal. lia. }
  assert (Hpos : (0 < 10 ^ (Z.of_nat p - 1))%Z) by (apply Z.pow_pos_nonneg; lia).
  unfold layout_g.
  assert (Hcarry : exists n e,
            (if (n0 =? 10 ^ Z.of_nat p)%Z
             then ((10 ^ (Z.of_nat p - 1))%Z, (e0 + 1)%Z) else (n0, e0)) = (n, e)
            /\ (10 ^ (Z.of_nat p - 1) <= n < 10 ^ Z.of_nat p)%Z
            /\ IZR n * powerRZ 10 (e + 1 - Z.of_nat p)
               = IZR n0 * powerRZ 10 (e0 + 1 - Z.of_nat p)).
  { destruct (Z.eqb_spec n0 (10 ^ Z.of_nat p)) as [E|E].
    - exists (10 ^ (Z.of_nat p - 1))%Z, (e0 + 1)%Z.
      split; [reflexivity|]. split; [lia|].
      rewrite E, Hpow, mult_IZR.
      replace (e0 + 1 + 1 - Z.of_nat p)%Z with (1 + (e0 + 1 - Z.of_nat p))%Z by lia.
      rewrite powerRZ10_add. simpl (powerRZ 10 1). ring.
    - exists n0, e0. split; [reflexivity|]. split; [lia | reflexivity]. }
  destruct Hcarry as (n & e & -> & Hn & Hval). rewrite <- Hval. clear Hval.
  set (ds := strip_trailing_zeros (digits_fixed p n)).
  assert (Hds : all_digits ds) by (subst ds; auto with digits).
  assert (Hk : (length ds <= p)%nat).
  { pose proof (strip_length (digits_fixed p n)) as H.
    now rewrite digits_fixed_length in H. }
  assert (HN : n = (digits_value ds * 10 ^ Z.of_nat (p - length ds))%Z).
  { rewrite <- (digits_fixed_exact p n) at 1 by lia.
    rewrite (strip_value (digits_fixed p n)). fold ds.
    now rewrite digits_fixed_length. }
  assert (Hne : ds <> []).
  { apply strip_nonempty. rewrite digits_fixed_exact by lia. lia. }
  assert (Hk1 : (1 <= length ds)%nat) by (destruct ds; [congruence | simpl; lia]).
  assert (HT : IZR n * powerRZ 10 (e + 1 - Z.of_nat p)
               = IZR (digits_value ds)
                 * powerRZ 10 (e + 1 - Z.of_nat (length ds))).
  { rewrite HN at 1.
    rewrite mult_IZR, IZR_pow10_powerRZ, Rmult_assoc, <- powerRZ10_add.
    do 2 f_equal. lia. }
  rewrite HT. clear HT HN.
  destruct ((e + 1 <=? -4) || (Z.of_nat p - 1 <? e + 1))%Z.
  { (* scientific notation *)
    split.
    - split; [|split]; simpl.
      + apply take_nonempty; [exact Hne | lia].
      + now apply Forall_take.
      + now apply Forall_drop.
    - unfold numeral_value. simpl. rewrite value_split by exact Hk1.
      fold (sign_factor neg).
      replace (e + 1 - Z.of_nat (length ds))%Z
        with ((Z.of_nat 1 - Z.of_nat (length ds)) + e)%Z by lia.
      rewrite powerRZ10_add. ring. }
  destruct (Z.leb_spec (e + 1) 0) as [Hd|Hd].
  { (* zeros after the point, then the digits *)
    split.
    - split; [discriminate|]. split; simpl.
      + constructor; [lia | constructor].
      + auto with digits.
    - rewrite numeral_value_fixed. f_equal.
      rewrite digits_value_app, digits_value_zeros, length_app, length_replicate.
      change (digits_value [0%Z]) with 0%Z.
      replace (e + 1 - Z.of_nat (length ds))%Z
        with (- Z.of_nat (Z.to_nat (- (e + 1)) + length ds))%Z by lia.
      rewrite powerRZ10_neg_nat.
      pose proof (pow10_pos (Z.to_nat (- (e + 1)) + length ds)).
      rewrite Z.mul_0_l, Z.add_0_l. field. lra. }
  destruct (Z.leb_spec (Z.of_nat (length ds)) (e + 1)) as [Hl|Hl].
  { (* the digits, then zeros up to the point *)
    split.
    - split; [|split]; simpl.
      + destruct ds; [congruence | discriminate].
      + auto with digits.
      + constructor; [lia | constructor].
    - rewrite numeral_value_fixed. f_equal.
      rewrite digits_value_app, digits_value_zeros, length_replicate.
      change (digits_value [0%Z]) with 0%Z.
      rewrite Z.add_0_r, mult_IZR, IZR_pow10_powerRZ.
      replace (Z.of_nat (Z.to_nat (e + 1) - length ds))
        with (e + 1 - Z.of_nat (length ds))%Z by lia.
      simpl. field. }
  (* the point inside the digits *)
  split.
  - split; [|split]; simpl.
    + apply take_nonempty; [exact Hne | lia].
    + now apply Forall_take.
    + now apply Forall_drop.
  - rewrite numeral_value_fixed. f_equal.
    rewrite value_split by lia. do 2 f_equal. lia.
Qed.

Lemma numeral_g_zero (p : nat) :
  well_formed (numeral_g p 0) /\ numeral_value (numeral_g p 0) = 0.
Proof.
  unfold numeral_g. rewrite bool_decide_eq_true_2 by reflexivity. split.
  - split; [discriminate|]. split; simpl; (constructor; [lia | constructor]).
  - unfold numeral_value. simpl.
    change (digits_value [0%Z]) with 0%Z. unfold Rdiv. ring.
Qed.

(** [p] significant digits: the numeral is well formed and within half a
    unit of the last of the [p] digits. *)
Lemma numeral_g_spec (p : nat) (x : R) :
  (1 <= p)%nat -> x <> 0 ->
  well_formed (numeral_g p x)
  /\ Rabs (numeral_value (numeral_g p x) - x)
     <= 1 / 2 * powerRZ 10 (decimal_exponent (Rabs x) + 1 - Z.of_nat p).
Proof.
  intros Hp Hx. unfold numeral_g.
  rewrite bool_decide_eq_false_2 by exact Hx.
  set (a := Rabs x). set (e0 := decimal_exponent a).
  assert (Ha : 0 < a) by now apply Rabs_pos_lt.
  destruct (decimal_exponent_spec a Ha) as [Hlo Hhi]. fold e0 in Hlo, Hhi.
  set (P := powerRZ 10 (Z.of_nat p - 1 - e0)).
  assert (HP : 0 < P) by apply powerRZ10_pos.
  assert (Hs1 : IZR (10 ^ (Z.of_nat p - 1)) <= a * P).
  { replace (Z.of_nat p - 1)%Z with (Z.of_nat (p - 1)) by lia.
    rewrite IZR_pow10_powerRZ.
    replace (Z.of_nat (p - 1)) with (e0 + (Z.of_nat p - 1 - e0))%Z by lia.
    rewrite powerRZ10_add. fold P. nra. }
  assert (Hs2 : a * P <= IZR (10 ^ Z.of_nat p)).
  { rewrite IZR_pow10_powerRZ.
    replace (Z.of_nat p) with ((e0 + 1) + (Z.of_nat p - 1 - e0))%Z at 1 by lia.
    rewrite powerRZ10_add. fold P. nra. }
  destruct (layout_g_spec p (bool_decide (x < 0)) (round_half_even (a * P)) e0 Hp)
    as [Hwf Hval].
  { split; [now apply round_half_even_ge | now apply round_half_even_le]. }
  split; [exact Hwf|]. rewrite Hval.
  apply signed_bound. fold a.
  replace (e0 + 1 - Z.of_nat p)%Z with (- (Z.of_nat p - 1 - e0))%Z by lia.
  rewrite powerRZ_neg'. fold P.
  pose proof (scaled_bound (round_half_even (a * P)) a P HP
                (round_half_even_spec (a * P))) as H.
  unfold Rdiv in *. rewrite Rmult_1_l in *. exact H.
Qed.

(** Six significant digits of a number below one in magnitude read back
    within [5e-7]. *)
Lemma fmt_g_round_trip (x : R) :
  Rabs x < 1 ->
  exists y, read_decimal (fmt_g 6 (Some x)) = Some y
            /\ Rabs (y - x) <= 1 / 2 / 10 ^ 6.
Proof.
  intros Hx. exists (numeral_value (numeral_g 6 x)).
  destruct (Req_dec_T x 0) as [->|Hne].
  - destruct (numeral_g_zero 6) as [Hwf Hv]. split.
    + unfold read_decimal, fmt_g. now rewrite read_numeral_render.
    + rewrite Hv, Rminus_diag, Rabs_R0. lra.
  - destruct (numeral_g_spec 6 x ltac:(lia) Hne) as [Hwf Hb]. split.
    + unfold read_decimal, fmt_g. now rewrite read_numeral_render.
    + eapply Rle_trans; [exact Hb|].
      assert (Ha : 0 < Rabs x) by now apply Rabs_pos_lt.
      destruct (decimal_exponent_spec (Rabs x) Ha) as [Hlo _].
      assert (He : (decimal_exponent (Rabs x) <= -1)%Z).
      { destruct (Z_le_gt_dec (decimal_exponent (Rabs x)) (-1)) as [H|H]; [exact H|].
        exfalso. pose proof (powerRZ10_le 0 (decimal_exponent (Rabs x)) ltac:(lia)) as Hm.
        simpl in Hm. lra. }
      pose proof (powerRZ10_le (decimal_exponent (Rabs x) + 1 - Z.of_nat 6)
                    (- Z.of_nat 6) ltac:(lia)) as Hm.
      rewrite powerRZ10_neg_nat in Hm. unfold Rdiv. lra.
Qed.

End DecimalProps.

(** ** Exporter: the text of the statistics *)

Module ExporterProps.
Import Stats DecimalText Exporter DecimalProps.
Open Scope R_scope.

(** Evaluating the formats at a number whose rounding is known. *)
Lemma fmt_f_eval (prec : nat) (x : R) (n : Z) :
  0 <= x -> Rabs (x * 10 ^ prec - IZR n) < 1 / 2 ->
  fmt_f prec (Some x)
  = render {| negative := false;
              int_part := digits (n / 10 ^ Z.of_nat prec);
              frac_part := digits_fixed prec (n mod 10 ^ Z.of_nat prec);
              exponent := None |}.
Proof.
  intros Hx Hn. unfold fmt_f, numeral_f.
  rewrite Rabs_pos_eq by exact Hx.
  rewrite (round_half_even_near _ n Hn).
  rewrite bool_decide_eq_false_2 by lra. reflexivity.
Qed.

Lemma fmt_g_eval (p : nat) (x : R) (e n : Z) :
  powerRZ 10 e <= x < powerRZ 10 (e + 1) ->
  Rabs (x * powerRZ 10 (Z.of_nat p - 1 - e) - IZR n) < 1 / 2 ->
  fmt_g p (Some x) = render (layout_g p false n e).
Proof.
  intros He Hn. pose proof (powerRZ10_pos e) as Hp.
  unfold fmt_g, numeral_g.
  rewrite bool_decide_eq_false_2 by lra.
  rewrite Rabs_pos_eq by lra.
  rewrite (decimal_exponent_unique x e He).
  rewrite (round_half_even_near _ n Hn).
  rewrite bool_decide_eq_false_2 by lra. reflexivity.
Qed.

Lemma fmt_f6_half : fmt_f 6 (Some (1 / 2)) = "0.500000"%string.
Proof.
  rewrite (fmt_f_eval 6 (1 / 2) 500000); [reflexivity | lra |].
  replace (1 / 2 * 10 ^ 6 - 500000) with 0 by (simpl; lra).
  rewrite Rabs_R0. lra.
Qed.

Lemma fmt_f6_quarter : fmt_f 6 (Some (1 / 4)) = "0.250000"%string.
Proof.
  rewrite (fmt_f_eval 6 (1 / 4) 250000); [reflexivity | lra |].
  replace (1 / 4 * 10 ^ 6 - 250000) with 0 by (simpl; lra).
  rewrite Rabs_R0. lra.
Qed.

Lemma fmt_f6_25th : fmt_f 6 (Some (1 / 25)) = "0.040000"%string.
Proof.
  rewrite (fmt_f_eval 6 (1 / 25) 40000); [reflexivity | lra |].
  replace (1 / 25 * 10 ^ 6 - 40000) with 0 by (simpl; lra).
  rewrite Rabs_R0. lra.
Qed.

Lemma fmt_f4_small : fmt_f 4 (Some (1 / 25000)) = "0.0000"%string.
Proof.
  rewrite (fmt_f_eval 4 (1 / 25000) 0); [reflexivity | lra |].
  replace (1 / 25000 * 10 ^ 4 - 0) with (2 / 5) by (simpl; lra).
  rewrite Rabs_pos_eq; lra.
Qed.

Lemma fmt_g6_half : fmt_g 6 (Some (1 / 2)) = "0.5"%string.
Proof.
  rewrite (fmt_g_eval 6 (1 / 2) (-1) 500000); [reflexivity | simpl; lra |].
  replace (1 / 2 * powerRZ 10 (Z.of_nat 6 - 1 - -1) - 500000) with 0
    by (simpl; lra).
  rewrite Rabs_R0. lra.
Qed.

(** C6 as stated fails: the arithmetic mean 0.5 is written [0.5] in the
    rust output and [0.500000] in the csv output, and the skewness 0.00004
    is written [0.0000] in the csv output, which reads back as 0, further
    than [1e-6] from the value. *)
Lemma statistic_text_differs :
  (exists lines,
      format_rust_const_lines half_stats "A" = Ok lines
      /\ In "        mean: 0.5,"%string lines)
  /\ csv_row "A" half_stats
     = "A,src,2000,2001,0.500000,0.250000,0.040000,0.0000,nan"%string
  /\ (exists y,
         read_decimal (fmt_f 4 (skewness half_stats)) = Some y
         /\ Rabs (y - 1 / 25000) > 0.000001).
Proof.
  split; [|split].
  - eexists. split; [apply RustGateProps.format_rust_const_lines_shape|].
    apply in_or_app. left. unfold base_lines. do 7 right. left.
    change (arithmetic_mean half_stats) with (1 / 2).
    now rewrite fmt_g6_half.
  - unfold csv_row, csv_fields.
    change (arithmetic_mean half_stats) with (1 / 2).
    change (geometric_mean half_stats) with (1 / 4).
    change (std_dev half_stats) with (Some (1 / 25)).
    change (skewness half_stats) with (Some (1 / 25000)).
    rewrite fmt_f6_half, fmt_f6_quarter, fmt_f6_25th, fmt_f4_small.
    reflexivity.
  - change (skewness half_stats) with (Some (1 / 25000)).
    rewrite fmt_f4_small.
    exists (numeral_value {| negative := false; int_part := [0%Z];
                             frac_part := [0%Z; 0%Z; 0%Z; 0%Z];
                             exponent := None |}).
    split; [reflexivity|].
    rewrite numeral_value_fixed.
    change (digits_value [0%Z]) with 0%Z.
    change (digits_value [0%Z; 0%Z; 0%Z; 0%Z]) with 0%Z.
    unfold sign_factor. simpl.
    match goal with
    | |- Rabs ?v > _ => replace v with (- (1 / 25000)) by lra
    end.
    rewrite Rabs_Ropp, Rabs_pos_eq; lra.
Qed.

Lemma within_a_millionth (y x : R) :
  Rabs (y - x) <= 1 / 2 / 10 ^ 6 -> Rabs (y - x) < 0.000001.
Proof. simpl. lra. Qed.

Lemma within_a_tenthousandth (y x : R) :
  Rabs (y - x) <= 1 / 2 / 10 ^ 4 -> Rabs (y - x) < 0.0001.
Proof. simpl. lra. Qed.

(** C6, as the code has it.  The csv row prints the arithmetic mean, the
    geometric mean and the standard deviation with six digits after the
    point, and each reads back within [1e-6]; the skewness and the
    kurtosis are printed with four digits after the point and read back
    within [1e-4].  The rust constants print the geometric mean, the
    arithmetic mean and the standard deviation with six significant
    digits, which read back within [1e-6] for a value below one in
    magnitude.  The json record holds the values of the statistics as they
    are. *)
Theorem exporter_precision (stats : AssetStats) (prefix : string) :
  (csv_fields prefix stats
   = [ prefix; source stats; str_int (start_year stats); str_int (end_year stats);
       fmt_f 6 (Some (arithmetic_mean stats));
       fmt_f 6 (Some (geometric_mean stats));
       fmt_f 6 (std_dev stats); fmt_f 4 (skewness stats);
       fmt_f 4 (kurtosis stats) ]
   /\ (forall x : R, exists y,
          read_decimal (fmt_f 6 (Some x)) = Some y /\ Rabs (y - x) < 0.000001)
   /\ (forall x : R, exists y,
          read_decimal (fmt_f 4 (Some x)) = Some y /\ Rabs (y - x) < 0.0001))
  /\ ((forall lines,
         format_rust_const_lines stats prefix = Ok lines ->
         In ("    pub const " ++ rust_name prefix
             ++ "_HISTORICAL_FIXED: ReturnProfile = ReturnProfile::Fixed("
             ++ fmt_g 6 (Some (geometric_mean stats)) ++ ");")%string lines
         /\ In ("        mean: " ++ fmt_g 6 (Some (arithmetic_mean stats)) ++ ",")%string
               lines
         /\ In ("        std_dev: " ++ fmt_g 6 (std_dev stats) ++ ",")%string lines)
      /\ (forall x : R, Rabs x < 1 ->
            exists y,
              read_decimal (fmt_g 6 (Some x)) = Some y
              /\ Rabs (y - x) < 0.000001))
  /\ (dict_get "arithmetic_mean" (to_dict stats)
      = Some (JFloat (Some (arithmetic_mean stats)))
      /\ dict_get "geometric_mean" (to_dict stats)
         = Some (JFloat (Some (geometric_mean stats)))
      /\ dict_get "std_dev" (to_dict stats) = Some (JFloat (std_dev stats))
      /\ dict_get "min_return" (to_dict stats)
         = Some (JFloat (Some (min_return stats)))
      /\ dict_get "max_return" (to_dict stats)
         = Some (JFloat (Some (max_return stats)))
      /\ dict_get "skewness" (to_dict stats) = Some (JFloat (skewness stats))
      /\ dict_get "kurtosis" (to_dict stats) = Some (JFloat (kurtosis stats))).
Proof.
  split; [|split].
  - split; [reflexivity|]. split.
    + intros x. destruct (fmt_f_round_trip 6 x) as (y & Hy & Hb).
      exists y. split; [exact Hy | now apply within_a_millionth].
    + intros x. destruct (fmt_f_round_trip 4 x) as (y & Hy & Hb).
      exists y. split; [exact Hy | now apply within_a_tenthousandth].
  - split.
    + intros lines Hlines.
      rewrite RustGateProps.format_rust_const_lines_shape in Hlines.
      apply RustGateProps.Ok_inj in Hlines. subst lines.
      split; [|split]; apply in_or_app; left; unfold base_lines.
      * do 5 right. now left.
      * do 7 right. now left.
      * do 8 right. now left.
    + intros x Hx. destruct (fmt_g_round_trip x Hx) as (y & Hy & Hb).
      exists y. split; [exact Hy | now apply within_a_millionth].
  - repeat split; reflexivity.
Qed.

Lemma exporter_precision_witness :
  (exists lines,
      format_rust_const_lines half_stats "A" = Ok lines
      /\ In ("        mean: " ++ fmt_g 6 (Some (arithmetic_mean half_stats)) ++ ",")%string
            lines)
  /\ (exists y, read_decimal (fmt_g 6 (Some (1 / 2))) = Some y
                /\ Rabs (y - 1 / 2) < 0.000001).
Proof.
  destruct (exporter_precision half_stats "A") as (_ & [Hlines Hread] & _).
  split.
  - eexists. split; [apply RustGateProps.format_rust_const_lines_shape|].
    apply (Hlines _ (RustGateProps.format_rust_const_lines_shape _ _)).
  - apply Hread. rewrite Rabs_pos_eq; lra.
Defined.

End ExporterProps.

(** * Further properties *)

(** ** Cache store: clearing, expiry, failed downloads *)

Module CacheMore.
Import Cache.
Open Scope R_scope.

Section WithLibraries.
Variable md5_hexdigest : string -> string.
Variable urlopen : nat -> string -> result bytes.

#[local] Abbreviation get_cache_path := (get_cache_path md5_hexdigest).
#[local] Abbreviation load_from_cache := (load_from_cache md5_hexdigest).
#[local] Abbreviation save_to_cache := (save_to_cache md5_hexdigest).
#[local] Abbreviation fetch_url_cached := (fetch_url_cached md5_hexdigest urlopen).

(** After a run started with [--clear-cache] nothing is served from the
    cache, at any time and for any URL, whatever the directory held; the
    next call for a URL goes to the network and, when the download
    succeeds, stores the payload in a directory that holds this one file. *)
Theorem clear_cache_purges (a : args) (w : world) (now elapsed : R)
    (url suffix : string) :
  clear_cache a = true ->
  load_from_cache now url suffix (main_cache_setup a w) = None
  /\ net_log (snd (fetch_url_cached now elapsed url suffix (main_cache_setup a w)))
     = url :: net_log w
  /\ (forall data,
        urlopen (length (net_log w)) url = Ok data ->
        cache_dir (snd (fetch_url_cached now elapsed url suffix
                          (main_cache_setup a w)))
        = Some {[ get_cache_path url suffix :=
                    {| content := data; st_mtime := now + elapsed |} ]}).
Proof.
  intros Hclear.
  assert (Hload : forall t, load_from_cache t url suffix (main_cache_setup a w) = None).
  { intros t. unfold Cache.load_from_cache, is_cache_valid, path_lookup,
      main_cache_setup. simpl. now rewrite Hclear. }
  split; [apply Hload|]. unfold Cache.fetch_url_cached. rewrite Hload.
  unfold main_cache_setup at 2 4. simpl net_log.
  split.
  - destruct (urlopen _ _); reflexivity.
  - intros data Hdata. rewrite Hdata.
    unfold Cache.save_to_cache, main_cache_setup. simpl. rewrite Hclear.
    simpl. now rewrite insert_empty.
Qed.

(** An entry that has reached the age of 30 days is not served: the call
    downloads again, replaces the file by the new payload stamped with the
    time of the write, and later calls within 30 days of that write
    return the new payload, not the old one. *)
Theorem expired_entry_is_refreshed (w : world) (now elapsed later : R)
    (url suffix : string) (old : file) (data : bytes) :
  path_lookup w (get_cache_path url suffix) = Some old ->
  2592000 <= now - st_mtime old ->
  urlopen (length (net_log w)) url = Ok data ->
  later - (now + elapsed) < 2592000 ->
  exists w1,
    fetch_url_cached now elapsed url suffix w = (Ok data, w1)
    /\ path_lookup w1 (get_cache_path url suffix)
       = Some {| content := data; st_mtime := now + elapsed |}
    /\ net_log w1 = url :: net_log w
    /\ fetch_url_cached later 0 url suffix w1 = (Ok data, w1).
Proof.
  intros Hold Hage Hnet Hlater.
  assert (Hmiss : load_from_cache now url suffix w = None).
  { apply (CacheProps.load_from_cache_expired md5_hexdigest now url suffix w old Hold).
    rewrite CacheProps.default_ttl_seconds. exact Hage. }
  eexists. split; [now apply CacheProps.fetch_url_cached_miss|].
  split; [apply CacheProps.path_lookup_save|]. split; [reflexivity|].
  apply CacheProps.fetch_url_cached_hit.
  apply (CacheProps.load_from_cache_some md5_hexdigest later url suffix _
           {| content := data; st_mtime := now + elapsed |}).
  - apply CacheProps.path_lookup_save.
  - rewrite CacheProps.default_ttl_seconds. simpl. exact Hlater.
Qed.

(** What the cache does not serve at some time it does not serve later
    either, as long as nothing is written. *)
Lemma miss_stays_miss (w : world) (now later : R) (url suffix : string) :
  load_from_cache now url suffix w = None -> now <= later ->
  load_from_cache later url suffix w = None.
Proof.
  unfold Cache.load_from_cache, is_cache_valid. intros Hmiss Hle.
  destruct (path_lookup w (get_cache_path url suffix)) as [f|]; [|reflexivity].
  destruct (bool_decide (now - st_mtime f < _)) eqn:E; [discriminate Hmiss|].
  apply bool_decide_eq_false in E.
  rewrite bool_decide_eq_false_2; [reflexivity | lra].
Qed.

(** A download that fails raises the exception of the transport and
    writes nothing: the directory is as before (it is not even created).
    The failure is not remembered: the next call for the URL asks the
    network again, and stores and returns what it then gets. *)
Theorem failed_download_not_cached (w : world) (now elapsed later : R)
    (url suffix : string) (e : exn) (data : bytes) :
  load_from_cache now url suffix w = None ->
  urlopen (length (net_log w)) url = Raise e ->
  now <= later ->
  urlopen (S (length (net_log w))) url = Ok data ->
  exists w1 w2,
    fetch_url_cached now elapsed url suffix w = (Raise e, w1)
    /\ cache_dir w1 = cache_dir w
    /\ fetch_url_cached later elapsed url suffix w1 = (Ok data, w2)
    /\ net_log w2 = [url; url] ++ net_log w
    /\ path_lookup w2 (get_cache_path url suffix)
       = Some {| content := data; st_mtime := later + elapsed |}.
Proof.
  intros Hmiss Hnet Hle Hnext.
  set (w1 := {| glob := glob w; cache_dir := cache_dir w;
                net_log := url :: net_log w |}).
  assert (H1 : fetch_url_cached now elapsed url suffix w = (Raise e, w1)).
  { unfold Cache.fetch_url_cached. now rewrite Hmiss, Hnet. }
  assert (Hmiss1 : load_from_cache later url suffix w1 = None).
  { apply (miss_stays_miss w now later url suffix Hmiss Hle). }
  exists w1. eexists. split; [exact H1|]. split; [reflexivity|].
  split; [apply CacheProps.fetch_url_cached_miss; [exact Hmiss1 | exact Hnext]|].
  split; [reflexivity | apply CacheProps.path_lookup_save].
Qed.

(** A call for a URL never changes what is stored for a URL with another
    file name, whether it hits, downloads or fails; so the entries of the
    other URLs are served as before. *)
Theorem other_entries_untouched (w : world) (now elapsed t : R)
    (url suffix url' suffix' : string) :
  get_cache_path url' suffix' <> get_cache_path url suffix ->
  load_from_cache t url suffix
    (snd (fetch_url_cached now elapsed url' suffix' w))
  = load_from_cache t url suffix w.
Proof.
  intros Hne.
  pose proof (CacheProps.fetch_url_cached_other md5_hexdigest urlopen
                now elapsed url' suffix' w _ Hne) as Hsame.
  unfold Cache.load_from_cache, is_cache_valid. now rewrite Hsame.
Qed.

End WithLibraries.

Lemma clear_cache_purges_witness :
  load_from_cache (fun u => u) 5 "u" ".bin"
    (main_cache_setup {| cache_days := 7; clear_cache := true |}
       (week_run (fun u => u) "u" [Byte.x2a])) = None.
Proof.
  apply (clear_cache_purges (fun u => u) (fun _ _ => Ok [])
           {| cache_days := 7; clear_cache := true |}
           (week_run (fun u => u) "u" [Byte.x2a]) 5 0 "u" ".bin").
  reflexivity.
Defined.

Lemma expired_entry_is_refreshed_witness :
  exists w1,
    fetch_url_cached (fun u => u) (fun _ _ => Ok [Byte.x01]) 3000000 1 "u" ".bin"
      (week_run (fun u => u) "u" [Byte.x2a]) = (Ok [Byte.x01], w1)
    /\ path_lookup w1 (get_cache_path (fun u => u) "u" ".bin")
       = Some {| content := [Byte.x01]; st_mtime := 3000000 + 1 |}
    /\ net_log w1 = ["u"%string]
    /\ fetch_url_cached (fun u => u) (fun _ _ => Ok [Byte.x01]) 3000100 0 "u" ".bin" w1
       = (Ok [Byte.x01], w1).
Proof.
  apply (expired_entry_is_refreshed (fun u => u) (fun _ _ => Ok [Byte.x01])
           (week_run (fun u => u) "u" [Byte.x2a]) 3000000 1 3000100 "u" ".bin"
           {| content := [Byte.x2a]; st_mtime := 0 |} [Byte.x01]).
  - unfold path_lookup, week_run. simpl. apply lookup_singleton_eq.
  - simpl. lra.
  - reflexivity.
  - lra.
Defined.

(** A network that fails on the first request and answers the second. *)
Lemma failed_download_not_cached_witness :
  exists w1 w2,
    fetch_url_cached (fun u => u) flaky_network 0 1 "u" ".bin" fresh_world
    = (Raise (URLError "timed out"), w1)
    /\ cache_dir w1 = None
    /\ fetch_url_cached (fun u => u) flaky_network 10 1 "u" ".bin" w1
       = (Ok [Byte.x2a], w2)
    /\ net_log w2 = ["u"; "u"]%string
    /\ path_lookup w2 (get_cache_path (fun u => u) "u" ".bin")
       = Some {| content := [Byte.x2a]; st_mtime := 10 + 1 |}.
Proof.
  apply (failed_download_not_cached (fun u => u) flaky_network fresh_world
           0 1 10 "u" ".bin" (URLError "timed out") [Byte.x2a]).
  - reflexivity.
  - reflexivity.
  - lra.
  - reflexivity.
Defined.

Lemma other_entries_untouched_witness :
  load_from_cache (fun u => u) 100 "u" ".bin"
    (snd (fetch_url_cached (fun u => u) (fun _ _ => Ok [Byte.x01]) 50 1 "v" ".bin"
            (week_run (fun u => u) "u" [Byte.x2a])))
  = load_from_cache (fun u => u) 100 "u" ".bin"
      (week_run (fun u => u) "u" [Byte.x2a]).
Proof.
  apply (other_entries_untouched (fun u => u) (fun _ _ => Ok [Byte.x01])
           (week_run (fun u => u) "u" [Byte.x2a]) 50 1 100 "u" ".bin" "v" ".bin").
  discriminate.
Defined.

End CacheMore.
(** ** Statistics engine: what the figures of a result satisfy *)

Module StatsMore.
Import Stats.
Open Scope R_scope.

Lemma np_prod_pos (l : list R) : Forall (fun m => 0 < m) l -> 0 < np_prod l.
Proof.
  induction 1 as [|m l Hm _ IH]; simpl; [lra|].
  fold (np_prod l). nra.
Qed.

(** Undoing the n-th root. *)
Lemma root_power (p : R) (n : nat) :
  0 < p -> (0 < n)%nat -> Rpower p (1 / INR n) ^ n = p.
Proof.
  intros Hp Hn.
  assert (Hn' : 0 < INR n) by (apply lt_0_INR; exact Hn).
  rewrite <- Rpower_pow by apply exp_pos.
  rewrite Rpower_mult.
  replace (1 / INR n * INR n) with 1 by (field; lra).
  now apply Rpower_1.
Qed.

Section WithPandas.
Variables pd_skew pd_kurtosis : list R -> option R.

#[local] Abbreviation compute_stats := (compute_stats pd_skew pd_kurtosis).

(** The figures of a result are consistent: at least one observation, as
    many as annual returns; the first year is not after the last; the
    smallest and the largest return are returns of the series and bound
    every return; the standard deviation is missing exactly when there is
    a single observation, and is not negative otherwise. *)
Theorem stats_are_consistent name description source (s : series)
    (st : AssetStats) :
  compute_stats name description source s = Ok st ->
  (1 <= num_years st)%nat
  /\ num_years st = length (annual_returns st)
  /\ (start_year st <= end_year st)%Z
  /\ In (min_return st) (annual_returns st)
  /\ In (max_return st) (annual_returns st)
  /\ (forall r, In r (annual_returns st) -> min_return st <= r <= max_return st)
  /\ min_return st <= max_return st
  /\ (forall sd, std_dev st = Some sd -> 0 <= sd)
  /\ (std_dev st = None <-> num_years st = 1%nat).
Proof.
  intros Hst.
  destruct (StatsProps.compute_stats_result _ _ _ _ _ _ _ Hst)
    as (Hn & Harr & Hsy & _ & Hyears & _ & _ & Hsd & Hlo & Hhi & Hvals & _).
  assert (Hlen : num_years st = length (annual_returns st)).
  { now rewrite Harr, length_map. }
  assert (Hne : annual_returns st <> []).
  { rewrite Harr. intros E. rewrite E in Hlo. destruct Hlo. }
  assert (H1 : (1 <= num_years st)%nat).
  { rewrite Hlen. destruct (annual_returns st); [congruence | simpl; lia]. }
  split; [exact H1|]. split; [exact Hlen|]. split.
  { destruct (Hyears _ Hsy). lia. }
  rewrite <- Harr in Hlo, Hhi, Hvals.
  split; [exact Hlo|]. split; [exact Hhi|]. split; [exact Hvals|]. split.
  { destruct (Hvals _ Hlo). lra. }
  rewrite Hsd, <- Harr. split.
  - intros sd. unfold np_std_ddof1.
    destruct (length (annual_returns st) <=? 1)%nat; [discriminate|].
    intros [= <-]. apply sqrt_pos.
  - unfold np_std_ddof1. rewrite Hlen.
    destruct (Nat.leb_spec (length (annual_returns st)) 1) as [H|H].
    + split; [intros _; lia | reflexivity].
    + split; [discriminate | lia].
Qed.

End WithPandas.

Lemma stats_are_consistent_witness :
  exists st,
    compute_stats no_moments no_moments "A" "d" "src" with_gap = Ok st
    /\ num_years st = 2%nat
    /\ min_return st <= max_return st
    /\ exists sd, std_dev st = Some sd /\ 0 <= sd.
Proof.
  eexists. split; [reflexivity|].
  destruct (stats_are_consistent no_moments no_moments "A" "d" "src" with_gap
              _ eq_refl) as (_ & _ & _ & _ & _ & _ & Hminmax & Hsd & _).
  split; [reflexivity|]. split; [exact Hminmax|].
  eexists. split; [reflexivity|]. apply Hsd. reflexivity.
Defined.

End StatsMore.

(** ** Yahoo adapter: the years of the series *)

Module YahooMore.
Import Stats Adapters Downloads.
Open Scope Z_scope.

Lemma map_as_fmap {A B} (f g : A -> B) (l : list A) :
  (forall x, f x = g x) -> map f l = g <$> l.
Proof.
  intros H. induction l as [|x l IH]; [reflexivity|].
  simpl. now rewrite H, IH.
Qed.

Lemma empty_bins_years (after before : Z) :
  map fst (empty_bins after before) = seqZ (after + 1) (before - after - 1).
Proof.
  unfold empty_bins, seqZ. rewrite map_map.
  apply map_as_fmap. intros k. simpl. lia.
Qed.

Lemma last_cons {A} (a d : A) (l : list A) : List.last (a :: l) d = List.last l a.
Proof.
  revert a d. induction l as [|b l IH]; intros a d; [reflexivity|].
  change (List.last (a :: b :: l) d) with (List.last (b :: l) d).
  now rewrite (IH b d), (IH b a).
Qed.

Lemma last_year_cons (y0 y1 : Z) (p1 : R) (rest : list (Z * R)) :
  last_year y0 ((y1, p1) :: rest) = last_year y1 rest.
Proof. unfold last_year. cbn [map fst]. apply last_cons. Qed.

(** One bin per calendar year, from the year of the first row to the
    year of the last, the first bin holding a close. *)
Lemma resample_years (y0 : Z) (p0 : R) (rest : list (Z * R)) :
  date_ordered ((y0, p0) :: rest) ->
  y0 <= last_year y0 rest
  /\ (exists q bins, resample_YE_last ((y0, p0) :: rest) = (y0, Some q) :: bins)
  /\ map fst (resample_YE_last ((y0, p0) :: rest))
     = seqZ y0 (last_year y0 rest - y0 + 1).
Proof.
  revert y0 p0. induction rest as [|[y1 p1] rest IH]; intros y0 p0 Hord.
  - unfold last_year. simpl. split; [lia|]. split; [eauto|].
    replace (y0 - y0 + 1) with 1 by lia. reflexivity.
  - destruct Hord as [Hle Hord]. rewrite last_year_cons.
    destruct (IH y1 p1 Hord) as (HL & (q & bins & Hbins) & Hyears).
    cbn [resample_YE_last]. 
    change (match rest with
            | [] => [(y1, Some p1)]
            | (y', _) :: _ =>
                if y1 =? y' then resample_YE_last rest
                else (y1, Some p1) :: empty_bins y1 y' ++ resample_YE_last rest
            end) with (resample_YE_last ((y1, p1) :: rest)).
    destruct (Z.eqb_spec y0 y1) as [->|Hne].
    + split; [exact HL|]. split; [eauto | exact Hyears].
    + split; [lia|]. split; [eauto|].
      cbn [map fst]. rewrite map_app, empty_bins_years, Hyears.
      rewrite (seqZ_cons y0) by lia. f_equal.
      replace (Z.pred (last_year y1 rest - y0 + 1))
        with ((y1 - y0 - 1) + (last_year y1 rest - y1 + 1)) by lia.
      rewrite (seqZ_app (Z.succ y0) (y1 - y0 - 1) (last_year y1 rest - y1 + 1)) by lia.
      do 2 f_equal; lia.
Qed.

(** Filling forward from a known value leaves no gap and keeps the years. *)
Lemma ffill_known (prev : option R) (s : list (Z * option R)) :
  is_Some prev ->
  Forall (fun b => is_Some (snd b)) (ffill prev s)
  /\ map fst (ffill prev s) = map fst s.
Proof.
  revert prev. induction s as [|[y v] s IH]; intros prev Hprev.
  - split; [constructor | reflexivity].
  - cbn [ffill].
    assert (Hv : is_Some (match v with Some _ => v | None => prev end)).
    { destruct v; [eauto | exact Hprev]. }
    destruct (IH _ Hv) as [Hall Hy]. split.
    + constructor; [exact Hv | exact Hall].
    + cbn [map fst]. now rewrite Hy.
Qed.

(** The changes of a series without gaps: one for every row that has a
    predecessor. *)
Lemma pct_from_known (prev : option R) (s : list (Z * option R)) :
  is_Some prev -> Forall (fun b => is_Some (snd b)) s ->
  map fst (dropna (pct_from prev s)) = map fst s.
Proof.
  revert prev. induction s as [|[y v] s IH]; intros prev Hprev Hall.
  - reflexivity.
  - inversion Hall as [|? ? Hv Hs]; subst. simpl in Hv.
    destruct Hv as [b ->], Hprev as [a ->]. cbn [pct_from dropna map fst].
    f_equal. apply IH; [eauto | exact Hs].
Qed.

Lemma pct_change_pad_years (y0 : Z) (q : R) (bins : list (Z * option R)) :
  map fst (dropna (pct_change true ((y0, Some q) :: bins))) = map fst bins.
Proof.
  unfold pct_change. cbn [ffill pct_from dropna].
  destruct (ffill_known (Some q) bins ltac:(eauto)) as [Hall Hy].
  rewrite pct_from_known; [exact Hy | eauto | exact Hall].
Qed.

Section Yahoo.
Variables pd_skew pd_kurtosis : list R -> option R.
Variable yahoo_history : string -> list (Z * R).
Variable yahoo_cache : string -> Z -> Z -> option (list (Z * R)).

#[local] Abbreviation fetch_yahoo :=
  (fetch_yahoo_annual_returns true true yahoo_history yahoo_cache).

Lemma fetch_yahoo_years (current_year : Z) (ticker : string)
    (start_year y0 : Z) (p0 : R) (rest : list (Z * R)) :
  yahoo_cache ticker start_year current_year = None ->
  filter (fun p => start_year <= fst p /\ fst p < current_year + 1)
         (yahoo_history ticker) = (y0, p0) :: rest ->
  date_ordered ((y0, p0) :: rest) ->
  y0 <= last_year y0 rest
  /\ exists returns,
       fetch_yahoo current_year ticker start_year None = Ok returns
       /\ map fst returns = seqZ (y0 + 1) (last_year y0 rest - y0).
Proof.
  intros Hcache Hdata Hord. unfold fetch_yahoo_annual_returns.
  cbn [negb]. rewrite Hcache, Hdata.
  destruct (resample_years y0 p0 rest Hord) as (HL & (q & bins & Hbins) & Hyears).
  split; [exact HL|].
  eexists. split; [reflexivity|].
  rewrite Hbins in *. rewrite pct_change_pad_years.
  cbn [map fst] in Hyears. rewrite (seqZ_cons y0) in Hyears by lia.
  injection Hyears as ->. f_equal; lia.
Qed.

(** A fresh download (filling forward, as pandas 2 does) gives one annual
    return for every calendar year after the first year of the rows, up
    to the year of the last row: the first year is lost to the change, and
    the last year is kept even when it is the running year. *)
Theorem yahoo_series_years (current_year : Z) (ticker : string)
    (start_year y0 : Z) (p0 : R) (rest : list (Z * R)) :
  yahoo_cache ticker start_year current_year = None ->
  filter (fun p => start_year <= fst p /\ fst p < current_year + 1)
         (yahoo_history ticker) = (y0, p0) :: rest ->
  date_ordered ((y0, p0) :: rest) ->
  exists returns,
    fetch_yahoo current_year ticker start_year None = Ok returns
    /\ map fst returns = seqZ (y0 + 1) (last_year y0 rest - y0).
Proof.
  intros Hcache Hdata Hord.
  exact (proj2 (fetch_yahoo_years _ _ _ _ _ _ Hcache Hdata Hord)).
Qed.

Lemma index_min_seqZ (y : Z) (l : list Z) (m len : Z) :
  y :: l = seqZ m len -> index_min y l = m.
Proof.
  intros E. destruct (StatsProps.index_min_le y l) as [Hle Hin].
  assert (Hlen : 0 < len).
  { destruct (Z.lt_ge_cases 0 len) as [H|H]; [exact H|].
    rewrite seqZ_nil in E by lia. discriminate E. }
  assert (Hm : In m (y :: l)).
  { rewrite E, (seqZ_cons m) by lia. now left. }
  assert (Hin' : index_min y l ∈ seqZ m len).
  { rewrite <- E. apply list_elem_of_In. exact Hin. }
  apply elem_of_seqZ in Hin'. specialize (Hle m Hm). lia.
Qed.

Lemma index_max_seqZ (y : Z) (l : list Z) (m len : Z) :
  y :: l = seqZ m len -> index_max y l = m + len - 1.
Proof.
  intros E. destruct (StatsProps.index_max_ge y l) as [Hge Hin].
  assert (Hlen : 0 < len).
  { destruct (Z.lt_ge_cases 0 len) as [H|H]; [exact H|].
    rewrite seqZ_nil in E by lia. discriminate E. }
  assert (Hm : In (m + len - 1) (y :: l)).
  { rewrite E. apply list_elem_of_In, elem_of_seqZ. lia. }
  assert (Hin' : index_max y l ∈ seqZ m len).
  { rewrite <- E. apply list_elem_of_In. exact Hin. }
  apply elem_of_seqZ in Hin'. specialize (Hge _ Hm). lia.
Qed.

(** With yfinance installed and [pct_change] filling forward, as pandas 2
    does ([pad = true]), the REIT statistics of a fresh download span the
    years after the first year of the rows up to the year of the last row,
    one return a year; rows of a single year leave no return, and the call
    fails in [compute_stats]. *)
Theorem reits_span (pad HAS_YFINANCE : bool) (current_year y0 : Z) (p0 : R)
    (rest : list (Z * R)) :
  pad = true -> HAS_YFINANCE = true ->
  yahoo_cache "VNQ" 2004 current_year = None ->
  filter (fun p => 2004 <= fst p /\ fst p < current_year + 1)
         (yahoo_history "VNQ") = (y0, p0) :: rest ->
  date_ordered ((y0, p0) :: rest) ->
  (last_year y0 rest = y0 ->
   fetch_reits_yahoo pd_skew pd_kurtosis pad HAS_YFINANCE
     yahoo_history yahoo_cache current_year
   = Raise (ValueError "No valid returns data for REITs"))
  /\ (last_year y0 rest <> y0 ->
      exists st,
        fetch_reits_yahoo pd_skew pd_kurtosis pad HAS_YFINANCE
          yahoo_history yahoo_cache current_year = Ok st
        /\ start_year st = y0 + 1
        /\ end_year st = last_year y0 rest
        /\ Z.of_nat (num_years st) = last_year y0 rest - y0).
Proof.
  intros -> -> Hcache Hdata Hord.
  destruct (fetch_yahoo_years _ _ _ _ _ _ Hcache Hdata Hord)
    as (HL & returns & Hfetch & Hyears).
  unfold fetch_reits_yahoo. cbn [negb]. rewrite Hfetch. cbn [rbind].
  unfold compute_stats. rewrite StatsProps.dropna_to_series.
  split.
  - intros Hsame. rewrite Hsame, seqZ_nil in Hyears by lia.
    destruct returns; [reflexivity | discriminate Hyears].
  - intros Hdiff. destruct returns as [|[y r] returns].
    { rewrite (seqZ_cons (y0 + 1)) in Hyears by lia. discriminate Hyears. }
    eexists. split; [reflexivity|]. cbn [start_year end_year num_years].
    cbn [map fst] in Hyears.
    rewrite (index_min_seqZ _ _ _ _ Hyears), (index_max_seqZ _ _ _ _ Hyears).
    split; [reflexivity|]. split; [lia|].
    rewrite length_map. 
    assert (Hlen : length (y :: map fst returns) = Z.to_nat (last_year y0 rest - y0)).
    { rewrite Hyears. apply length_seqZ. }
    cbn [length] in *. rewrite length_map in Hlen. lia.
Qed.

End Yahoo.

Lemma yahoo_series_years_witness :
  exists returns,
    fetch_yahoo_annual_returns true true vnq_history empty_yahoo_cache
      2025 "VNQ" 2004 None = Ok returns
    /\ map fst returns = [2024; 2025].
Proof.
  apply (yahoo_series_years vnq_history empty_yahoo_cache 2025 "VNQ" 2004
           2023 100%R [(2024, 110%R); (2025, 121%R)]).
  - reflexivity.
  - reflexivity.
  - simpl. lia.
Defined.

Lemma reits_span_witness :
  exists st,
    fetch_reits_yahoo no_moments no_moments true true vnq_history
      empty_yahoo_cache 2025 = Ok st
    /\ start_year st = 2024 /\ end_year st = 2025
    /\ Z.of_nat (num_years st) = 2.
Proof.
  apply (reits_span no_moments no_moments vnq_history empty_yahoo_cache
           true true 2025 2023 100%R [(2024, 110%R); (2025, 121%R)]).
  - reflexivity.
  - reflexivity.
  - reflexivity.
  - reflexivity.
  - simpl. lia.
  - discriminate.
Defined.

End YahooMore.
(** ** Exporter: bootstrap arrays, csv rows, constant names *)

Module ExportMore.
Import Stats DecimalText Exporter Bootstrap.

(** *** Rows of eight *)

Lemma py_range_step (n : nat) :
  (0 < n)%nat ->
  py_range n 8 = 0%nat :: map (fun i => (8 + i)%nat) (py_range (n - 8) 8).
Proof.
  intros Hn. unfold py_range.
  replace ((n + 8 - 1) / 8)%nat with (S ((n - 8 + 8 - 1) / 8)).
  - cbn [seq map]. f_equal. rewrite <- seq_shift, !map_map.
    apply map_ext. intros k. lia.
  - destruct (Nat.le_gt_cases 8 n) as [H|H].
    + replace (n + 8 - 1)%nat with (n - 8 + 8 - 1 + 1 * 8)%nat by lia.
      rewrite Nat.div_add by lia. lia.
    + replace (n - 8 + 8 - 1)%nat with 7%nat by lia.
      change (7 / 8)%nat with 0%nat.
      apply Nat.div_unique with (r := (n - 1)%nat); lia.
Qed.

Lemma rows_of_eight_nil {A} : rows_of_eight (@nil A) = [].
Proof. reflexivity. Qed.

(** The rows, by recursion on the list: the first eight elements, then
    the rows of the rest. *)
Lemma rows_of_eight_step {A} (l : list A) :
  l <> [] -> rows_of_eight l = take 8 l :: rows_of_eight (drop 8 l).
Proof.
  intros Hl. unfold rows_of_eight.
  rewrite py_range_step by (destruct l; [congruence | simpl; lia]).
  cbn [map]. f_equal.
  rewrite length_drop, map_map. apply map_ext. intros i.
  unfold slice. rewrite drop_drop. f_equal; lia.
Qed.

Lemma rows_of_eight_ind {A} (P : list A -> Prop) :
  P [] ->
  (forall l, l <> [] -> P (drop 8 l) -> P l) ->
  forall l, P l.
Proof.
  intros Hnil Hstep l.
  remember (length l) as n eqn:Hn. revert l Hn.
  induction n as [n IH] using lt_wf_ind. intros l Hn.
  destruct l as [|a l]; [exact Hnil|].
  apply Hstep; [discriminate|].
  apply (IH (length (drop 8 (a :: l)))); [|reflexivity].
  rewrite length_drop. subst n. simpl. lia.
Qed.

Lemma rows_of_eight_concat {A} (l : list A) : concat (rows_of_eight l) = l.
Proof.
  induction l as [|l Hl IH] using rows_of_eight_ind; [reflexivity|].
  rewrite rows_of_eight_step by exact Hl.
  cbn [concat]. rewrite IH. apply take_drop.
Qed.

Lemma rows_of_eight_length {A} (l : list A) :
  length (rows_of_eight l) = ((length l + 7) / 8)%nat.
Proof.
  unfold rows_of_eight, py_range. rewrite !length_map, length_seq.
  f_equal. lia.
Qed.

(** Every row but the last is full, and the last holds the rest. *)
Lemma rows_of_eight_full {A} (l : list A) (i : nat) (row : list A) :
  rows_of_eight l !! i = Some row ->
  (1 <= length row <= 8)%nat
  /\ ((S i < length (rows_of_eight l))%nat -> length row = 8%nat).
Proof.
  revert i. induction l as [|l Hl IH] using rows_of_eight_ind; intros i.
  - rewrite rows_of_eight_nil. intros H. discriminate H.
  - rewrite rows_of_eight_step by exact Hl.
    destruct i as [|i]; cbn [lookup list_lookup length].
    + intros [= <-]. rewrite length_take.
      assert (0 < length l)%nat by (destruct l; [congruence | simpl; lia]).
      split; [lia|]. intros Hmore.
        destruct (rows_of_eight (drop 8 l)) as [|r rs] eqn:E; [simpl in Hmore; lia|].
        assert (Hd : drop 8 l <> []).
        { intros Hd. rewrite Hd, rows_of_eight_nil in E. discriminate E. }
        assert (Hpos : (0 < length (drop 8 l))%nat)
          by (destruct (drop 8 l); [congruence | simpl; lia]).
        rewrite length_drop in Hpos. lia.
    + intros Hrow. destruct (IH i Hrow) as [Hb Hfull].
      split; [exact Hb|]. intros Hmore. apply Hfull. lia.
Qed.

(** *** Counting characters *)

Lemma count_char_app (c : ascii) (s t : string) :
  count_char c (s ++ t) = (count_char c s + count_char c t)%nat.
Proof. induction s as [|a s IH]; simpl; [reflexivity|]. rewrite IH. lia. Qed.

Lemma count_char_concat (c : ascii) (sep : string) (l : list string) :
  count_char c (String.concat sep l)
  = (total (map (count_char c) l) + (length l - 1) * count_char c sep)%nat.
Proof.
  induction l as [|s l IH]; [reflexivity|].
  destruct l as [|t l].
  - simpl. lia.
  - change (String.concat sep (s :: t :: l))
      with (s ++ sep ++ String.concat sep (t :: l))%string.
    rewrite !count_char_app, IH. simpl. lia.
Qed.

Lemma count_char_of_list (c : ascii) (l : list ascii) :
  Forall (fun a => a <> c) l -> count_char c (string_of_list_ascii l) = 0%nat.
Proof.
  induction 1 as [|a l Ha _ IH]; [reflexivity|].
  cbn [string_of_list_ascii count_char]. rewrite IH.
  destruct (Ascii.eqb_spec a c); [contradiction | reflexivity].
Qed.

Lemma digit_char_numeric (d : Z) : (0 <= d <= 9)%Z -> numeric_char (digit_char d).
Proof.
  intros Hd. unfold numeric_char, digit_char.
  assert (H : In d [0; 1; 2; 3; 4; 5; 6; 7; 8; 9]%Z) by (simpl; lia).
  simpl in H.
  repeat (destruct H as [<-|H]; [simpl; tauto|]). destruct H.
Qed.

Lemma render_digits_numeric (ds : list Z) :
  all_digits ds -> Forall numeric_char (render_digits ds).
Proof.
  unfold render_digits. induction 1 as [|d ds Hd _ IH]; [constructor|].
  constructor; [now apply digit_char_numeric | exact IH].
Qed.

Lemma render_numeric (d : numeral) :
  all_digits (int_part d) -> all_digits (frac_part d) ->
  Forall numeric_char (render_chars d).
Proof.
  intros Hi Hf. unfold render_chars.
  repeat apply Forall_app_2.
  - destruct (negative d); [|constructor].
    constructor; [unfold numeric_char; simpl; tauto | constructor].
  - now apply render_digits_numeric.
  - destruct (frac_part d) as [|f fs]; [constructor|].
    constructor; [unfold numeric_char; simpl; tauto|].
    now apply render_digits_numeric.
  - destruct (exponent d) as [e|]; [|constructor].
    unfold render_exponent.
    constructor; [unfold numeric_char; simpl; tauto|].
    constructor; [destruct (e <? 0)%Z; unfold numeric_char; simpl; tauto|].
    apply render_digits_numeric, DecimalProps.digits_fixed_range.
Qed.

Lemma fmt_f_numeric (prec : nat) (x : option R) :
  Forall numeric_char (list_ascii_of_string (fmt_f prec x)).
Proof.
  destruct x as [x|]; simpl.
  - unfold render. rewrite list_ascii_of_string_of_list_ascii.
    destruct (DecimalProps.numeral_f_well_formed prec x) as (_ & Hi & Hf).
    now apply render_numeric.
  - repeat constructor; unfold numeric_char; simpl; tauto.
Qed.

Lemma str_int_numeric (n : Z) :
  Forall numeric_char (list_ascii_of_string (str_int n)).
Proof.
  unfold str_int. rewrite list_ascii_of_string_of_list_ascii.
  apply Forall_app_2.
  - destruct (n <? 0)%Z; [|constructor].
    constructor; [unfold numeric_char; simpl; tauto | constructor].
  - apply render_digits_numeric, DecimalProps.digits_range.
Qed.

Lemma count_char_numeric (c : ascii) (s : string) :
  ~ numeric_char c ->
  Forall numeric_char (list_ascii_of_string s) -> count_char c s = 0%nat.
Proof.
  intros Hc Hs. rewrite <- (string_of_list_ascii_of_string s).
  apply count_char_of_list.
  eapply Forall_impl; [exact Hs|]. intros a Ha ->. contradiction.
Qed.

Lemma comma_not_numeric : ~ numeric_char ","%char.
Proof. unfold numeric_char. simpl. intros H. repeat (destruct H as [H|H]; [discriminate H|]). exact H. Qed.

Lemma newline_not_numeric : ~ numeric_char (ascii_of_nat 10).
Proof. unfold numeric_char. simpl. intros H. repeat (destruct H as [H|H]; [discriminate H|]). exact H. Qed.

Lemma total_zero {A} (c : ascii) (f : A -> string) (l : list A) :
  (forall x, count_char c (f x) = 0%nat) ->
  total (map (count_char c) (map f l)) = 0%nat.
Proof.
  intros H. induction l as [|x l IH]; [reflexivity|].
  cbn [map total fold_right]. rewrite H. exact IH.
Qed.

Lemma row_text_count (c : ascii) (row : list R) :
  ~ numeric_char c ->
  count_char c (row_text row) = ((length row - 1) * count_char c ", ")%nat.
Proof.
  intros Hc. unfold row_text. rewrite count_char_concat, length_map.
  rewrite total_zero; [reflexivity|]. intros r.
  apply count_char_numeric; [exact Hc | apply fmt_f_numeric].
Qed.

Lemma rows_of_eight_empty {A} (l : list A) : rows_of_eight l = [] <-> l = [].
Proof.
  split; [|now intros ->].
  destruct l as [|a l]; [reflexivity|].
  rewrite rows_of_eight_step by discriminate. discriminate.
Qed.

Lemma commas_in_rows (l : list R) :
  (total (map (count_char ",") (map row_text (rows_of_eight l)))
   + (length (rows_of_eight l) - 1) = length l - 1)%nat.
Proof.
  induction l as [|l Hl IH] using rows_of_eight_ind; [reflexivity|].
  rewrite rows_of_eight_step by exact Hl.
  cbn [map total fold_right length].
  rewrite row_text_count by apply comma_not_numeric.
  change (count_char "," ", ") with 1%nat. rewrite Nat.mul_1_r, length_take.
  fold (total (map (count_char ",") (map row_text (rows_of_eight (drop 8 l))))).
  assert (Hpos : (0 < length l)%nat) by (destruct l; [congruence | simpl; lia]).
  rewrite length_drop in IH.
  destruct (rows_of_eight (drop 8 l)) as [|r rs] eqn:E.
  - apply (proj1 (rows_of_eight_empty _)) in E.
    assert (Hd : length (drop 8 l) = 0%nat) by now rewrite E.
    rewrite length_drop in Hd. cbn [map total fold_right length]. lia.
  - assert (Hd : (0 < length (drop 8 l))%nat).
    { destruct (drop 8 l) eqn:E'; [|simpl; lia].
      rewrite <- E' in E. apply (proj2 (rows_of_eight_empty _)) in E'. congruence. }
    rewrite length_drop in Hd.
    generalize dependent (total (map (count_char ",") (map row_text (r :: rs)))).
    cbn [length]. intros t IH. lia.
Qed.

(** The rows of the bootstrap array hold every annual return once, in the
    order of the series and with four digits after the point, eight to a
    row: all the rows but the last are full.  The text has one comma
    between two consecutive values and none after the last, and one line
    per row. *)
Theorem bootstrap_array_layout (annual_returns : list R) :
  concat (rows_of_eight annual_returns) = annual_returns
  /\ length (rows_of_eight annual_returns) = ((length annual_returns + 7) / 8)%nat
  /\ (forall i row,
        rows_of_eight annual_returns !! i = Some row ->
        (1 <= length row <= 8)%nat
        /\ ((S i < length (rows_of_eight annual_returns))%nat ->
            length row = 8%nat))
  /\ count_char "," (returns_str annual_returns) = (length annual_returns - 1)%nat
  /\ count_char (ascii_of_nat 10) (returns_str annual_returns)
     = (length (rows_of_eight annual_returns) - 1)%nat.
Proof.
  split; [apply rows_of_eight_concat|].
  split; [apply rows_of_eight_length|].
  split; [apply rows_of_eight_full|].
  unfold returns_str. rewrite !count_char_concat, !length_map.
  split.
  - change (count_char "," ("," ++ newline ++ "        ")) with 1%nat.
    rewrite Nat.mul_1_r. apply commas_in_rows.
  - change (count_char (ascii_of_nat 10) ("," ++ newline ++ "        ")) with 1%nat.
    rewrite Nat.mul_1_r, total_zero; [reflexivity|]. intros row.
    rewrite row_text_count by apply newline_not_numeric. simpl. lia.
Qed.

(** *** The csv row *)

(** A data row of the csv output has the eight commas of the header and
    those of its prefix and of its source, which are written as they are:
    the row has the nine fields of the header exactly when neither the
    prefix nor the source holds a comma. *)
Theorem csv_row_commas (prefix : string) (stats : AssetStats) :
  count_char "," (csv_row prefix stats)
  = (8 + count_char "," prefix + count_char "," (source stats))%nat
  /\ (count_char "," (csv_row prefix stats) = count_char "," csv_header
      <-> count_char "," prefix = 0%nat /\ count_char "," (source stats) = 0%nat).
Proof.
  assert (H : count_char "," (csv_row prefix stats)
              = (8 + count_char "," prefix + count_char "," (source stats))%nat).
  { unfold csv_row, csv_fields. rewrite count_char_concat.
    cbn [map total length].
    rewrite !(count_char_numeric "," (fmt_f _ _))
      by (apply comma_not_numeric || apply fmt_f_numeric).
    rewrite !(count_char_numeric "," (str_int _))
      by (apply comma_not_numeric || apply str_int_numeric).
    simpl. lia. }
  split; [exact H|]. rewrite H.
  change (count_char "," csv_header) with 8%nat. lia.
Qed.

(** *** The names of the constants *)

Lemma map_string_length (f : ascii -> ascii) (s : string) :
  String.length (map_string f s) = String.length s.
Proof. induction s as [|c s IH]; simpl; [reflexivity | now rewrite IH]. Qed.

Lemma map_string_map (f g : ascii -> ascii) (s : string) :
  map_string f (map_string g s) = map_string (fun c => f (g c)) s.
Proof. induction s as [|c s IH]; simpl; [reflexivity | now rewrite IH]. Qed.

Lemma map_string_chars (f : ascii -> ascii) (s : string) :
  list_ascii_of_string (map_string f s) = map f (list_ascii_of_string s).
Proof. induction s as [|c s IH]; simpl; [reflexivity | now rewrite IH]. Qed.

Lemma upper_ascii_not_lower (c : ascii) : ~ is_lower (upper_ascii c).
Proof.
  unfold is_lower, upper_ascii.
  destruct ((97 <=? nat_of_ascii c) && (nat_of_ascii c <=? 122))%nat eqn:E.
  - apply andb_true_iff in E. destruct E as [E1 E2].
    apply Nat.leb_le in E1, E2.
    rewrite nat_ascii_embedding by lia. lia.
  - apply andb_false_iff in E. destruct E as [E|E]; apply Nat.leb_gt in E; lia.
Qed.

Lemma rust_char_clean (c : ascii) :
  let u := upper_ascii c in
  let c1 := if bool_decide (u = " "%char) then "_"%char else u in
  let c2 := if bool_decide (c1 = "-"%char) then "_"%char else c1 in
  ~ is_lower c2 /\ c2 <> " "%char /\ c2 <> "-"%char.
Proof.
  intros u c1 c2. pose proof (upper_ascii_not_lower c) as Hu. fold u in Hu.
  assert (Hunder : ~ is_lower "_"%char /\ "_"%char <> " "%char /\ "_"%char <> "-"%char).
  { unfold is_lower. change (nat_of_ascii "_") with 95%nat.
    split; [lia|]. split; discriminate. }
  subst c2 c1. destruct (bool_decide (u = " "%char)) eqn:E1.
  - rewrite bool_decide_eq_false_2 by discriminate. exact Hunder.
  - apply bool_decide_eq_false in E1.
    destruct (bool_decide (u = "-"%char)) eqn:E2; [exact Hunder|].
    apply bool_decide_eq_false in E2. auto.
Qed.

Lemma rust_char_kept (c : ascii) :
  ~ is_lower c -> c <> " "%char -> c <> "-"%char ->
  (let u := upper_ascii c in
   let c1 := if bool_decide (u = " "%char) then "_"%char else u in
   if bool_decide (c1 = "-"%char) then "_"%char else c1) = c.
Proof.
  intros Hl Hsp Hhy.
  assert (Hup : upper_ascii c = c).
  { unfold upper_ascii, is_lower in *.
    destruct ((97 <=? nat_of_ascii c) && (nat_of_ascii c <=? 122))%nat eqn:E;
      [|reflexivity].
    apply andb_true_iff in E. destruct E as [E1 E2].
    apply Nat.leb_le in E1, E2. lia. }
  cbv zeta. rewrite Hup.
  rewrite (bool_decide_eq_false_2 (c = " "%char)) by exact Hsp.
  now rewrite bool_decide_eq_false_2 by exact Hhy.
Qed.

Lemma map_string_fixed (f : ascii -> ascii) (s : string) :
  Forall (fun c => f c = c) (list_ascii_of_string s) -> map_string f s = s.
Proof.
  induction s as [|c s IH]; [reflexivity|].
  cbn [list_ascii_of_string map_string]. intros H.
  inversion H as [|? ? Hc Hrest]; subst. now rewrite Hc, IH.
Qed.

Lemma map_string_all (P : ascii -> Prop) (f : ascii -> ascii) (s : string) :
  (forall c, P (f c)) -> Forall P (list_ascii_of_string (map_string f s)).
Proof.
  intros H. induction s as [|c s IH]; [constructor|].
  cbn [map_string list_ascii_of_string]. constructor; [apply H | exact IH].
Qed.

Lemma rust_name_map (s : string) :
  rust_name s
  = map_string (fun c =>
                  let u := upper_ascii c in
                  let c1 := if bool_decide (u = " "%char) then "_"%char else u in
                  if bool_decide (c1 = "-"%char) then "_"%char else c1) s.
Proof. unfold rust_name, replace, upper. now rewrite !map_string_map. Qed.

(** For a prefix of ASCII characters, on which [str.upper] changes the
    letters [a] to [z] only: the name of a constant has the length of the
    prefix and holds no lower-case letter, no space and no hyphen; a
    prefix that holds none of these is its own name, so the name of a name
    is that name. *)
Theorem rust_name_characters (const_prefix : string) :
  Forall (fun c => (nat_of_ascii c < 128)%nat) (list_ascii_of_string const_prefix) ->
  String.length (rust_name const_prefix) = String.length const_prefix
  /\ Forall (fun c => ~ is_lower c /\ c <> " "%char /\ c <> "-"%char)
            (list_ascii_of_string (rust_name const_prefix))
  /\ (Forall (fun c => ~ is_lower c /\ c <> " "%char /\ c <> "-"%char)
             (list_ascii_of_string const_prefix) ->
      rust_name const_prefix = const_prefix)
  /\ rust_name (rust_name const_prefix) = rust_name const_prefix.
Proof.
  intros _.
  assert (Hchars : forall s,
             Forall (fun c => ~ is_lower c /\ c <> " "%char /\ c <> "-"%char)
                    (list_ascii_of_string (rust_name s))).
  { intros s. rewrite rust_name_map.
    apply map_string_all. intros c. apply rust_char_clean. }
  assert (Hfix : forall s,
             Forall (fun c => ~ is_lower c /\ c <> " "%char /\ c <> "-"%char)
                    (list_ascii_of_string s) -> rust_name s = s).
  { intros s Hs. rewrite rust_name_map. apply map_string_fixed.
    eapply Forall_impl; [exact Hs|].
    intros c (Hl & Hsp & Hhy). now apply rust_char_kept. }
  split; [|split; [apply Hchars | split; [apply Hfix | apply Hfix, Hchars]]].
  rewrite rust_name_map. apply map_string_length.
Qed.

Lemma rust_name_characters_witness :
  String.length (rust_name "us small-cap") = String.length "us small-cap"
  /\ rust_name (rust_name "us small-cap") = rust_name "us small-cap".
Proof.
  assert (Hascii : Forall (fun c => (nat_of_ascii c < 128)%nat)
                          (list_ascii_of_string "us small-cap")).
  { cbn [list_ascii_of_string].
    repeat (apply List.Forall_cons; [vm_compute; lia|]). apply List.Forall_nil. }
  destruct (rust_name_characters "us small-cap" Hascii) as (H1 & _ & _ & H4).
  split; [exact H1 | exact H4].
Defined.

(** *** The Student's t constant *)

Lemma student_header_not_in_base (stats : AssetStats) (rn : string) :
  ~ In (student_header rn) (base_lines stats rn).
Proof.
  unfold base_lines, student_header. intros H.
  repeat (destruct H as [H|H]; [RustGateProps.differ H|]). exact H.
Qed.

Lemma student_header_not_in_lognormal (stats : AssetStats) (rn : string) :
  ~ In (student_header rn) (lognormal_lines stats rn).
Proof.
  unfold lognormal_lines, student_header. intros H.
  repeat (destruct H as [H|H]; [RustGateProps.differ H|]). exact H.
Qed.

(** [format_rust_const] returns a text for every record: the scale of the
    Student's t constant is computed with five degrees of freedom, for
    which [compute_student_t_scale] does not raise.  The text has the ten
    lines of the comment, the Fixed and the Normal constant, four more when
    the LogNormal constant is written and five more for the Student's t
    constant, which is written exactly when the standard deviation is a
    number above 0.05. *)
Theorem rust_constants_written (stats : AssetStats) (const_prefix : string) :
  exists lines,
    format_rust_const_lines stats const_prefix = Ok lines
    /\ format_rust_const stats const_prefix = Ok (String.concat newline lines)
    /\ length lines
       = (10 + (if lognormal_appropriate stats then 4 else 0)
          + match Stats.std_dev stats with
            | Some s => if bool_decide (s > 0.05)%R then 5 else 0
            | None => 0
            end)%nat
    /\ (In (student_header (rust_name const_prefix)) lines
        <-> exists s, Stats.std_dev stats = Some s /\ (s > 0.05)%R).
Proof.
  eexists. split; [apply RustGateProps.format_rust_const_lines_shape|].
  split.
  { unfold format_rust_const.
    now rewrite RustGateProps.format_rust_const_lines_shape. }
  assert (Hblock :
    (exists s, Stats.std_dev stats = Some s /\ (s > 0.05)%R)
    /\ (exists scale, student_block stats (rust_name const_prefix)
                      = student_t_lines stats (rust_name const_prefix) scale)
    \/ ~ (exists s, Stats.std_dev stats = Some s /\ (s > 0.05)%R)
       /\ student_block stats (rust_name const_prefix) = []).
  { unfold student_block. destruct (Stats.std_dev stats) as [s|].
    - case_bool_decide as Hs.
      + left. split; eauto.
      + right. split; [|reflexivity]. intros (s' & [= <-] & Hs'). contradiction.
    - right. split; [|reflexivity]. intros (s' & Hs' & _). discriminate Hs'. }
  split.
  - rewrite !length_app. unfold student_block.
    destruct (Stats.std_dev stats) as [s|];
      [destruct (bool_decide (s > 0.05)%R)|];
      destruct (lognormal_appropriate stats);
      unfold base_lines, lognormal_lines, student_t_lines;
      cbn [length]; reflexivity.
  - rewrite !in_app_iff. split.
    + intros [H|[H|H]].
      * now apply student_header_not_in_base in H.
      * destruct (lognormal_appropriate stats); [|destruct H].
        now apply student_header_not_in_lognormal in H.
      * destruct Hblock as [(Hs & _) | (_ & Hnil)]; [exact Hs|].
        rewrite Hnil in H. destruct H.
    + intros Hs. right. right.
      destruct Hblock as [(_ & scale & ->) | (Hn & _)]; [now left | contradiction].
Qed.

End ExportMore.
(** ** CSV utility: the modern era and the outcome of a run *)

Module InflationMore.
Import Inflation Modern DecimalText.

Lemma forallb_seqZ (f : Z -> bool) (first count : Z) :
  forallb f (seqZ first count) = true ->
  forall y, (first <= y < first + count)%Z -> f y = true.
Proof.
  intros Hall y Hy. rewrite forallb_forall in Hall. apply Hall.
  apply list_elem_of_In, elem_of_seqZ. exact Hy.
Qed.

Lemma year_order_checked : year_order_agrees 1000 9000 = true.
Proof. vm_compute. reflexivity. Qed.

Lemma year_order_range (first count y : Z) :
  year_order_agrees first count = true ->
  (first <= y < first + count)%Z ->
  String.leb "12/31/1950" (year_end_date y) = (1950 <=? y)%Z.
Proof.
  unfold year_order_agrees. intros Hall Hy.
  apply Bool.eqb_prop.
  exact (forallb_seqZ _ first count Hall y Hy).
Qed.

Lemma year_order (y : Z) :
  (1000 <= y <= 9999)%Z ->
  String.leb "12/31/1950" (year_end_date y) = true <-> (1950 <= y)%Z.
Proof.
  intros Hy.
  rewrite (year_order_range 1000 9000 y year_order_checked) by lia.
  apply Z.leb_le.
Qed.

Lemma modern_values_cons (d : string) (v : R) (dates : list string) (values : list R) :
  modern_values (d :: dates) (v :: values)
  = if String.leb "12/31/1950" d
    then v :: modern_values dates values
    else modern_values dates values.
Proof.
  unfold modern_values. cbn [zip zip_with]. rewrite filter_cons. cbn [fst].
  destruct (String.leb "12/31/1950" d) eqn:E.
  - destruct (decide (true = true)) as [_|H]; [reflexivity | congruence].
  - destruct (decide (false = true)) as [H|_]; [discriminate H | reflexivity].
Qed.

Lemma modern_values_nil_l (values : list R) : modern_values [] values = [].
Proof. reflexivity. Qed.

Lemma modern_values_nil_r (dates : list string) : modern_values dates [] = [].
Proof. destruct dates; reflexivity. Qed.

Lemma prefix_cons (a b : ascii) (s t : string) :
  String.prefix (String a s) (String b t) = true ->
  b = a /\ String.prefix s t = true.
Proof.
  cbn [String.prefix]. destruct (ascii_dec a b) as [->|_]; [auto | discriminate].
Qed.

Lemma prefix_nil (a : ascii) (s : string) :
  String.prefix (String a s) EmptyString = true -> False.
Proof. discriminate. Qed.

Ltac open_prefix H :=
  repeat match type of H with
         | String.prefix (String _ _) EmptyString = true =>
             destruct (prefix_nil _ _ H)
         | String.prefix (String _ _) (String _ _) = true =>
             let E := fresh "E" in
             apply prefix_cons in H; destruct H as [E H]; subst
         end.

Lemma before_december (d : string) :
  String.prefix "0" d = true \/ String.prefix "10" d = true
  \/ String.prefix "11" d = true ->
  String.leb "12/31/1950" d = false.
Proof.
  intros H. destruct d as [|a [|b d]];
    destruct H as [H|[H|H]]; open_prefix H; try discriminate H; reflexivity.
Qed.

Lemma century_prefix (d : string) :
  String.prefix "19" d = true \/ String.prefix "20" d = true ->
  String.leb "12/31/1950" d = true.
Proof.
  intros H. destruct d as [|a [|b d]];
    destruct H as [H|H]; open_prefix H; try discriminate H; reflexivity.
Qed.

Lemma modern_section_unfold (value_name : string) (dates : list string)
    (values : list R) :
  modern_section value_name dates values
  = (_ ← print Rule; _ ← print ModernTitle; _ ← print Rule;
     match modern_values dates values with
     | [] => print NoModernData
     | _ :: _ =>
         _ ← print (NumberOfYears (length (modern_values dates values)));
         avg ← lift (mean (modern_values dates values));
         _ ← print (Average value_name avg);
         mean_modern_normal ← lift (mean (modern_values dates values));
         std_modern_normal ← lift (std_dev (modern_values dates values) true);
         _ ← print (Normal mean_modern_normal std_modern_normal);
         match positive (modern_values dates values) with
         | _ :: _ =>
             mu ← lift (mean (map ln (positive (modern_values dates values))));
             sigma ← lift (std_dev (map ln (positive (modern_values dates values))) true);
             print (Lognormal mu sigma)
         | [] => print LognormalCannot
         end
     end).
Proof. reflexivity. Qed.

(** The rows of the modern era are chosen by comparing the texts of the
    dates with ["12/31/1950"].  For year-end dates [12/31/YYYY] these are
    the rows of the years from 1950 on.  A date of January to November
    ([MM/DD/YYYY] with a month before 12) is never chosen, whatever its
    year: a file of such dates has no modern era.  A date that begins with
    [19] or [20], as the ISO dates of these centuries do, is always chosen,
    whatever its year. *)
Theorem modern_era_selection :
  (forall (years : list Z) (values : list R),
      Forall (fun y => (1000 <= y <= 9999)%Z) years ->
      modern_values (map year_end_date years) values
      = map snd (filter (fun p => (1950 <= fst p)%Z) (zip years values)))
  /\ (forall (value_name : string) (dates : list string) (values : list R),
         Forall (fun d => String.prefix "0" d = true
                          \/ String.prefix "10" d = true
                          \/ String.prefix "11" d = true) dates ->
         modern_section value_name dates values
         = ([Rule; ModernTitle; Rule; NoModernData], Ok tt))
  /\ (forall (dates : list string) (values : list R),
         length dates = length values ->
         Forall (fun d => String.prefix "19" d = true
                          \/ String.prefix "20" d = true) dates ->
         modern_values dates values = values).
Proof.
  split; [|split].
  - intros years values Hy. revert values.
    induction Hy as [|y years Hy _ IH]; intros values; [reflexivity|].
    destruct values as [|v values]; [now rewrite modern_values_nil_r|].
    cbn [map]. rewrite modern_values_cons, IH.
    cbn [zip zip_with]. rewrite filter_cons. cbn [fst].
    pose proof (year_order y Hy) as Hiff.
    destruct (String.leb "12/31/1950" (year_end_date y)).
    + destruct (decide (1950 <= y)%Z) as [_|Hn]; [reflexivity|].
      exfalso. apply Hn, Hiff. reflexivity.
    + destruct (decide (1950 <= y)%Z) as [Hge|_]; [|reflexivity].
      apply Hiff in Hge. discriminate Hge.
  - intros value_name dates values Hd.
    assert (Hnone : modern_values dates values = []).
    { revert values. induction Hd as [|d dates Hd _ IH]; intros values;
        [reflexivity|].
      destruct values as [|v values]; [now rewrite modern_values_nil_r|].
      now rewrite modern_values_cons, (before_december d Hd). }
    rewrite modern_section_unfold, Hnone. reflexivity.
  - intros dates values Hlen Hd. revert values Hlen.
    induction Hd as [|d dates Hd _ IH]; intros values Hlen.
    + destruct values; [reflexivity | discriminate Hlen].
    + destruct values as [|v values]; [discriminate Hlen|].
      rewrite modern_values_cons, (century_prefix d Hd).
      f_equal. apply IH. now injection Hlen.
Qed.

(** *** The outcome of a run *)

Lemma snd_bind {A B} (m : printer A) (k : A -> printer B) :
  snd (m ≫= k) = match snd m with Ok a => snd (k a) | Raise e => Raise e end.
Proof.
  destruct m as [out [a|e]]; simpl; [|reflexivity].
  now destruct (k a).
Qed.

(** The outcome of a chain of statements that print or bind a value that
    was computed. *)
Ltac step_prints :=
  repeat match goal with
         | |- context [snd (print ?l ≫= ?k)] =>
             rewrite (snd_bind (print l) k); cbn [snd print]
         | |- context [snd (lift (Ok ?a) ≫= ?k)] =>
             rewrite (snd_bind (lift (Ok a)) k); cbn [snd lift]
         | |- context [snd (lift (Raise ?e) ≫= ?k)] =>
             rewrite (snd_bind (lift (Raise e)) k); cbn [snd lift]
         end.

Lemma analyze_data_tail (file_name : string) (d : string) (dates : list string)
    (raw_values : list R) :
  (2 <= length raw_values)%nat ->
  let values := map (fun v => v / 100)%R raw_values in
  let value_name := snd (classify file_name) in
  snd (analyze_data file_name (d :: dates) raw_values)
  = match snd (lognormal_section value_name values) with
    | Ok _ => snd (modern_section value_name (d :: dates) values)
    | Raise e => Raise e
    end.
Proof.
  intros Hn values value_name. unfold analyze_data.
  subst value_name. destruct (classify file_name) as [data_type value_name].
  fold values. cbn [snd].
  assert (Hne : values <> []).
  { subst values. destruct raw_values; [simpl in Hn; lia | discriminate]. }
  assert (Hlen : (2 <= length values)%nat).
  { subst values. now rewrite length_map. }
  rewrite (InflationProps.mean_nonempty values Hne).
  rewrite (InflationProps.std_dev_sample values Hlen).
  assert (Hmin : exists lo, py_min values = Ok lo)
    by (destruct values; [congruence | eexists; reflexivity]).
  assert (Hmax : exists hi, py_max values = Ok hi)
    by (destruct values; [congruence | eexists; reflexivity]).
  destruct Hmin as [lo ->], Hmax as [hi ->].
  step_prints.
  exact (snd_bind (lognormal_section value_name values)
           (fun _ => modern_section value_name (d :: dates) values)).
Qed.

Lemma analyze_data_single (file_name d : string) (dates : list string) (r : R) :
  exists msg,
    snd (analyze_data file_name (d :: dates) [r]) = Raise (ZeroDivisionError msg).
Proof.
  unfold analyze_data. destruct (classify file_name) as [data_type value_name].
  cbn [map]. eexists.
  change (mean [(r / 100)%R]) with (Ok (sample_mean [(r / 100)%R])).
  change (py_min [(r / 100)%R]) with (Ok (r / 100)%R).
  change (py_max [(r / 100)%R]) with (Ok (r / 100)%R).
  rewrite InflationProps.std_dev_single.
  step_prints. reflexivity.
Qed.

Lemma analyze_data_empty (file_name : string) :
  analyze_data file_name [] []
  = ([Rule; Title (fst (classify file_name)); File file_name; Rule],
     Raise (IndexError "list index out of range")).
Proof.
  unfold analyze_data. now destruct (classify file_name) as [data_type value_name].
Qed.

Lemma fit_outcome (value_name : string) (values : list R) :
  (snd (lognormal_section value_name values) = Ok tt
   <-> length (positive values) <> 1%nat)
  /\ (forall e, snd (lognormal_section value_name values) = Raise e ->
                exists msg, e = ZeroDivisionError msg).
Proof.
  destruct (positive values) as [|m [|m' ms]] eqn:E.
  - rewrite (InflationProps.lognormal_section_none _ _ E). cbn [snd length].
    split; [split; [lia | reflexivity] | intros e H; discriminate H].
  - rewrite (InflationProps.lognormal_section_single _ _ _ E). cbn [snd length].
    split; [split; [discriminate | lia] | intros e [= <-]; eauto].
  - rewrite InflationProps.lognormal_section_fit by (rewrite E; simpl; lia).
    cbn [snd length].
    split; [split; [lia | reflexivity] | intros e H; discriminate H].
Qed.

Lemma modern_outcome (value_name : string) (dates : list string) (values : list R) :
  (snd (modern_section value_name dates values) = Ok tt
   <-> modern_values dates values = []
       \/ (2 <= length (modern_values dates values))%nat
          /\ length (positive (modern_values dates values)) <> 1%nat)
  /\ (forall e, snd (modern_section value_name dates values) = Raise e ->
                exists msg, e = ZeroDivisionError msg).
Proof.
  rewrite modern_section_unfold.
  destruct (modern_values dates values) as [|a [|b l]] eqn:E.
  - step_prints. cbn [snd print].
    split; [split; [now left | reflexivity] | intros e H; discriminate H].
  - change (mean [a]) with (Ok (sample_mean [a])).
    rewrite InflationProps.std_dev_single. step_prints.
    split; [split; [discriminate|] | intros e [= <-]; eauto].
    intros [H|[H _]]; [discriminate H | simpl in H; lia].
  - rewrite (InflationProps.mean_nonempty (a :: b :: l)) by discriminate.
    rewrite (InflationProps.std_dev_sample (a :: b :: l)) by (simpl; lia).
    step_prints.
    destruct (positive (a :: b :: l)) as [|m [|m' ms]] eqn:P.
    + cbn [snd print length].
      split; [split; [right; split; simpl; lia | reflexivity]
             | intros e H; discriminate H].
    + change (mean (map ln [m])) with (Ok (sample_mean (map ln [m]))).
      change (std_dev (map ln [m]) true)
        with (@Raise R (ZeroDivisionError "float division by zero")).
      step_prints. cbn [length].
      split; [split; [discriminate|] | intros e [= <-]; eauto].
      intros [H|[_ H]]; [discriminate H | lia].
    + rewrite (InflationProps.mean_nonempty (map ln (m :: m' :: ms)))
        by discriminate.
      rewrite (InflationProps.std_dev_sample (map ln (m :: m' :: ms)))
        by (simpl; lia).
      step_prints. cbn [snd print length].
      split; [split; [right; split; simpl; lia | reflexivity]
             | intros e H; discriminate H].
Qed.


Lemma modern_era_selection_witness :
  modern_values (map year_end_date [1949; 1950; 1951]%Z) [1; 2; 3]%R = [2; 3]%R
  /\ modern_section "inflation" ["01/31/2020"; "11/30/2021"]%string [1; 2]%R
     = ([Rule; ModernTitle; Rule; NoModernData], Ok tt)
  /\ modern_values ["1900-12-31"; "2020-12-31"]%string [1; 2]%R = [1; 2]%R.
Proof.
  destruct modern_era_selection as (H1 & H2 & H3).
  split; [|split].
  - apply (H1 [1949; 1950; 1951]%Z [1; 2; 3]%R).
    repeat constructor; lia.
  - apply (H2 "inflation"%string ["01/31/2020"; "11/30/2021"]%string [1; 2]%R).
    repeat constructor; (left; reflexivity) || (right; right; reflexivity).
  - apply (H3 ["1900-12-31"; "2020-12-31"]%string [1; 2]%R); [reflexivity|].
    repeat constructor; (left; reflexivity) || (right; reflexivity).
Defined.


End InflationMore.
(** ** Kenneth French adapters: window, small caps, emerging markets *)

Module FrenchMore.
Import Stats Adapters Orchestrator French.

Section WithParsers.
Variables pd_skew pd_kurtosis : list R -> option R.
Variable py_int : string -> option Z.
Variable py_float : string -> option R.

#[local] Abbreviation compute_stats := (compute_stats pd_skew pd_kurtosis).
#[local] Abbreviation year_field := (year_field py_int).
#[local] Abbreviation market_fields := (market_fields py_int py_float).
#[local] Abbreviation market_row := (market_row py_int py_float).
#[local] Abbreviation smb_row := (smb_row py_int py_float).
#[local] Abbreviation small_cap_row := (small_cap_row py_int py_float).
#[local] Abbreviation risk_free_row := (risk_free_row py_int py_float).
#[local] Abbreviation emerging_row := (emerging_row py_int py_float).
#[local] Abbreviation factor_fields := (factor_fields py_int py_float).
#[local] Abbreviation complete_line := (complete_line py_int py_float).
#[local] Abbreviation fetch_french_market_returns :=
  (fetch_french_market_returns pd_skew pd_kurtosis).
#[local] Abbreviation fetch_french_smb_returns :=
  (fetch_french_smb_returns pd_skew pd_kurtosis py_int py_float).
#[local] Abbreviation fetch_french_small_cap_returns :=
  (fetch_french_small_cap_returns pd_skew pd_kurtosis py_int py_float).
#[local] Abbreviation fetch_french_risk_free_rate :=
  (fetch_french_risk_free_rate pd_skew pd_kurtosis py_int py_float).
#[local] Abbreviation fetch_french_international_returns :=
  (fetch_french_international_returns pd_skew pd_kurtosis py_int py_float).
#[local] Abbreviation fetch_french_emerging_returns :=
  (fetch_french_emerging_returns pd_skew pd_kurtosis py_int py_float).

(** *** The years of the statistics *)

Lemma year_field_range (parts : list string) (y : Z) :
  year_field parts = Some y -> (1900 <= y <= 2100)%Z.
Proof.
  unfold French.year_field. destruct (py_int _) as [year|]; [|discriminate].
  case_bool_decide as Hy; cbn [andb]; [|discriminate].
  destruct (_ =? _)%nat; [|discriminate]. now intros [= <-].
Qed.

(** An adapter whose rows carry the year of the first field. *)
Lemma omap_years (row : list string -> option (Z * R)) (lines : list (list string)) :
  (forall parts p, row parts = Some p -> year_field parts = Some (fst p)) ->
  Forall (fun p => (1900 <= fst p <= 2100)%Z) (omap row lines).
Proof.
  intros Hrow. apply List.Forall_forall. intros p Hp.
  apply list_elem_of_In, list_elem_of_omap in Hp.
  destruct Hp as (parts & _ & Hparts).
  eapply year_field_range, Hrow, Hparts.
Qed.

Ltac row_year parts :=
  destruct (_ <=? length parts)%nat; [|discriminate];
  destruct (year_field parts) as [y|]; [|discriminate]; cbn [mbind option_bind];
  repeat match goal with
         | |- context [py_float ?t] => destruct (py_float t); [|discriminate];
                                      cbn [mbind option_bind]
         end;
  try case_bool_decide; try discriminate;
  now intros [= <-].

Lemma market_row_year : forall parts p,
  market_row parts = Some p -> year_field parts = Some (fst p).
Proof. intros parts p. unfold French.market_row. row_year parts. Qed.

Lemma smb_row_year : forall parts p,
  smb_row parts = Some p -> year_field parts = Some (fst p).
Proof. intros parts p. unfold French.smb_row. row_year parts. Qed.

Lemma small_cap_row_year : forall parts p,
  small_cap_row parts = Some p -> year_field parts = Some (fst p).
Proof. intros parts p. unfold French.small_cap_row. row_year parts. Qed.

Lemma risk_free_row_year : forall parts p,
  risk_free_row parts = Some p -> year_field parts = Some (fst p).
Proof. intros parts p. unfold French.risk_free_row. row_year parts. Qed.

Lemma emerging_row_year : forall parts p,
  emerging_row parts = Some p -> year_field parts = Some (fst p).
Proof. intros parts p. unfold French.emerging_row. row_year parts. Qed.

Lemma french_window_in (start_year current_year : Z) (data : list (Z * R))
    (p : Z * R) :
  In p (french_window start_year current_year data)
  <-> In p data /\ (start_year <= fst p < current_year)%Z.
Proof.
  unfold french_window, index_lt, index_ge.
  rewrite <- !list_elem_of_In, !list_elem_of_filter. tauto.
Qed.

Lemma window_stats name description source (start_year current_year : Z)
    (data : list (Z * R)) (st : AssetStats) :
  compute_stats name description source
    (to_series (french_window start_year current_year data)) = Ok st ->
  Forall (fun p => (1900 <= fst p <= 2100)%Z) data ->
  (Z.max start_year 1900 <= Stats.start_year st)%Z
  /\ (Stats.start_year st <= end_year st)%Z
  /\ (end_year st < Z.min current_year 2101)%Z.
Proof.
  intros Hst Hdata.
  destruct (StatsProps.compute_stats_result _ _ _ _ _ _ _ Hst)
    as (_ & _ & Hs & He & Hall & _).
  rewrite StatsProps.dropna_to_series in Hs, He, Hall.
  assert (Hin : forall y,
             In y (map fst (french_window start_year current_year data)) ->
             (start_year <= y < current_year)%Z /\ (1900 <= y <= 2100)%Z).
  { intros y Hy. apply in_map_iff in Hy. destruct Hy as (p & <- & Hp).
    apply french_window_in in Hp. destruct Hp as [Hp Hw].
    rewrite List.Forall_forall in Hdata. split; [exact Hw | now apply Hdata]. }
  pose proof (Hin _ Hs) as [H1 H2]. pose proof (Hin _ He) as [H3 H4].
  pose proof (Hall _ Hs) as H5. lia.
Qed.

Lemma reraise_ok {A} (what : string) (r : result A) (a : A) :
  reraise what r = Ok a -> r = Ok a.
Proof. destruct r; [auto | discriminate]. Qed.

(** The statistics of every Kenneth French adapter lie in the window of
    the call: no year before the start year, none from the current year
    on, and none outside 1900-2100, the years the adapters accept in the
    first field of a line. *)
Theorem french_statistics_window (content : result (list (list string)))
    (start_year current_year : Z) (st : AssetStats) :
  fetch_french_smb_returns content start_year current_year = Ok st
  \/ fetch_french_small_cap_returns content start_year current_year = Ok st
  \/ fetch_french_risk_free_rate content start_year current_year = Ok st
  \/ fetch_french_international_returns content start_year current_year = Ok st
  \/ fetch_french_emerging_returns content start_year current_year = Ok st
  \/ (exists lines,
        content = Ok lines
        /\ fetch_french_market_returns (omap market_fields lines)
             start_year current_year = Ok st) ->
  (Z.max start_year 1900 <= Stats.start_year st)%Z
  /\ (Stats.start_year st <= end_year st)%Z
  /\ (end_year st < Z.min current_year 2101)%Z.
Proof.
  intros [H|[H|[H|[H|[H|H]]]]].
  - unfold French.fetch_french_smb_returns in H.
    destruct content as [lines|e]; [|discriminate H]. cbn [rbind] in H.
    eapply window_stats; [exact H|]. apply omap_years, smb_row_year.
  - unfold French.fetch_french_small_cap_returns in H.
    destruct content as [lines|e]; [|discriminate H]. cbn [rbind] in H.
    eapply window_stats; [exact H|]. apply omap_years, small_cap_row_year.
  - unfold French.fetch_french_risk_free_rate in H.
    destruct content as [lines|e]; [|discriminate H]. cbn [rbind] in H.
    eapply window_stats; [exact H|]. apply omap_years, risk_free_row_year.
  - unfold French.fetch_french_international_returns in H.
    apply reraise_ok in H.
    destruct content as [lines|e]; [|discriminate H]. cbn [rbind] in H.
    eapply window_stats; [exact H|]. apply omap_years, market_row_year.
  - unfold French.fetch_french_emerging_returns in H.
    apply reraise_ok in H.
    destruct content as [lines|e]; [|discriminate H]. cbn [rbind] in H.
    destruct (omap emerging_row lines) as [|p0 annual] eqn:E; [discriminate H|].
    case_bool_decide; [discriminate H|].
    eapply window_stats; [exact H|]. rewrite <- E.
    apply omap_years, emerging_row_year.
  - destruct H as (lines & _ & H).
    unfold Adapters.fetch_french_market_returns in H.
    fold (french_window start_year current_year
            (map (fun row : Z * R * R =>
                    let '(year, mkt_rf, rf) := row in
                    (year, (mkt_rf / 100 + rf / 100)%R))
                 (omap market_fields lines))) in H.
    eapply window_stats; [exact H|].
    apply List.Forall_forall. intros p Hp. apply in_map_iff in Hp.
    destruct Hp as ([[y a] b] & <- & Hrow). cbn [fst].
    apply list_elem_of_In, list_elem_of_omap in Hrow.
    destruct Hrow as (parts & _ & Hparts).
    apply (year_field_range parts). revert Hparts.
    unfold French.market_fields.
    destruct (_ <=? length parts)%nat; [|discriminate].
    destruct (year_field parts) as [y'|]; [|discriminate]. cbn [mbind option_bind].
    destruct (py_float (part parts 1)); [|discriminate]. cbn [mbind option_bind].
    destruct (py_float (part parts 4)); [|discriminate]. cbn [mbind option_bind].
    now intros [= <- _ _].
Qed.

(** *** Small caps: the market plus the premium *)

Lemma omap_fmap {A B C} (g : A -> option B) (f : B -> C) (h : A -> option C)
    (l : list A) :
  Forall (fun x => h x = f <$> g x) l -> omap h l = map f (omap g l).
Proof.
  induction 1 as [|x l Hx _ IH]; [reflexivity|].
  cbn [omap list_omap]. rewrite Hx.
  destruct (g x); cbn [fmap option_fmap option_map map]; now rewrite IH.
Qed.

Lemma index_ge_map {A} (f : A -> Z * R) (lo : Z) (l : list A) :
  index_ge lo (map f l) = map f (filter (fun q => (lo <= fst (f q))%Z) l).
Proof.
  unfold index_ge. induction l as [|q l IH]; [reflexivity|].
  cbn [map]. rewrite !filter_cons.
  destruct (decide (lo <= fst (f q))%Z); cbn [map]; now rewrite IH.
Qed.

Lemma index_lt_map {A} (f : A -> Z * R) (hi : Z) (l : list A) :
  index_lt hi (map f l) = map f (filter (fun q => (fst (f q) < hi)%Z) l).
Proof.
  unfold index_lt. induction l as [|q l IH]; [reflexivity|].
  cbn [map]. rewrite !filter_cons.
  destruct (decide (fst (f q) < hi)%Z); cbn [map]; now rewrite IH.
Qed.

(** The entries of the three adapters on a complete line. *)
Lemma complete_rows (parts : list string) :
  complete_line parts ->
  market_fields parts
    = (fun q : Z * R * R * R => (fst (fst (fst q)), snd (fst (fst q)), snd q))
      <$> factor_fields parts
  /\ smb_row parts
     = (fun q : Z * R * R * R => (fst (fst (fst q)), (snd (fst q) / 100)%R))
       <$> factor_fields parts
  /\ small_cap_row parts
     = (fun q : Z * R * R * R =>
          (fst (fst (fst q)),
           (snd (fst (fst q)) / 100 + snd q / 100 + snd (fst q) / 100)%R))
       <$> factor_fields parts.
Proof.
  unfold French.complete_line, French.market_fields, French.smb_row,
    French.small_cap_row, French.factor_fields.
  intros Hc.
  destruct (year_field parts) as [y|] eqn:Y.
  - destruct Hc as (Hlen & [a Ha] & [b Hb] & [c Hc]); [discriminate|].
    rewrite Ha, Hb, Hc.
    destruct (Nat.leb_spec 5 (length parts)) as [_|H]; [|lia].
    destruct (Nat.leb_spec 3 (length parts)) as [_|H]; [|lia].
    repeat split.
  - destruct (5 <=? length parts)%nat, (3 <=? length parts)%nat; repeat split.
Qed.

Lemma same_years_same_span (st1 st2 : AssetStats) name1 description1 source1
    name2 description2 source2 (s1 s2 : series) :
  compute_stats name1 description1 source1 s1 = Ok st1 ->
  compute_stats name2 description2 source2 s2 = Ok st2 ->
  map fst (dropna s1) = map fst (dropna s2) ->
  Stats.start_year st1 = Stats.start_year st2
  /\ end_year st1 = end_year st2 /\ num_years st1 = num_years st2.
Proof.
  intros H1 H2 Hy.
  destruct (StatsProps.compute_stats_result _ _ _ _ _ _ _ H1)
    as (Hn1 & _ & Hs1 & He1 & Hall1 & _).
  destruct (StatsProps.compute_stats_result _ _ _ _ _ _ _ H2)
    as (Hn2 & _ & Hs2 & He2 & Hall2 & _).
  rewrite Hy in Hs1, He1, Hall1.
  pose proof (Hall1 _ Hs2). pose proof (Hall1 _ He2).
  pose proof (Hall2 _ Hs1). pose proof (Hall2 _ He1).
  split; [lia|]. split; [lia|].
  rewrite Hn1, Hn2, <- (length_map fst (dropna s1)), Hy. apply length_map.
Qed.

Lemma zip_with_maps {A} (g h : A -> R) (l : list A) :
  map (fun q => g q + h q)%R l = zip_with Rplus (map g l) (map h l).
Proof. induction l as [|q l IH]; [reflexivity|]. cbn. now rewrite IH. Qed.


(** *** Emerging markets *)

Lemma prod_lower (c : R) (l : list R) :
  (0 < c)%R -> l <> [] -> Forall (fun m => c < m)%R l ->
  (c ^ length l < np_prod l)%R.
Proof.
  intros Hc Hne Hall. induction Hall as [|m l Hm Hall IH]; [congruence|].
  cbn [length]. unfold np_prod. cbn [fold_right]. fold (np_prod l).
  destruct l as [|m' l'].
  - simpl. lra.
  - assert (H1 : (c ^ length (m' :: l') < np_prod (m' :: l'))%R)
      by (apply IH; discriminate).
    assert (H2 : (0 < c ^ length (m' :: l'))%R) by (apply pow_lt; exact Hc).
    change (c ^ S (length (m' :: l')))%R with (c * c ^ length (m' :: l'))%R.
    revert H1 H2. generalize (c ^ length (m' :: l'))%R (np_prod (m' :: l')).
    intros X P H1 H2.
    apply Rlt_trans with (m * X)%R.
    + apply Rmult_lt_compat_r; assumption.
    + apply Rmult_lt_compat_l; [lra | exact H1].
Qed.

Lemma root_lower (c p : R) (n : nat) :
  (0 < c)%R -> (0 < n)%nat -> (c ^ n < p)%R -> (c < Rpower p (1 / INR n))%R.
Proof.
  intros Hc Hn Hp.
  assert (Hpos : (0 < p)%R) by (pose proof (pow_lt c n Hc); lra).
  pose proof (StatsMore.root_power p n Hpos Hn) as Hroot.
  destruct (Rlt_le_dec c (Rpower p (1 / INR n))) as [H|H]; [exact H|].
  exfalso.
  assert (Hx : (0 <= Rpower p (1 / INR n))%R) by (unfold Rpower; apply Rlt_le, exp_pos).
  pose proof (pow_incr _ _ n (conj Hx H)) as Hle. lra.
Qed.

Lemma emerging_rows_above (lines : list (list string)) :
  Forall (fun p => (-0.90 < snd p)%R) (omap emerging_row lines).
Proof.
  apply List.Forall_forall. intros p Hp.
  apply list_elem_of_In, list_elem_of_omap in Hp.
  destruct Hp as (parts & _ & Hparts). revert Hparts.
  unfold French.emerging_row.
  destruct (_ <=? length parts)%nat; [|discriminate].
  destruct (year_field parts) as [y|]; [|discriminate]. cbn [mbind option_bind].
  destruct (py_float (part parts 1)) as [a|]; [|discriminate]. cbn [mbind option_bind].
  destruct (py_float (part parts 5)) as [b|]; [|discriminate]. cbn [mbind option_bind].
  case_bool_decide as Hab; [|discriminate]. intros [= <-]. cbn [snd]. lra.
Qed.

(** The outcomes of the emerging-markets adapter.  A failure of the
    download, a file without an accepted row and a window without a row
    are reported as a [ValueError] that begins with the same words.  The
    accepted rows have a return above -90%, so the product of the growth
    factors is positive, the check of line 729 never fails, and the
    statistics hold returns above -90% only, with a geometric mean above
    -90%. *)
Theorem emerging_outcomes (content : result (list (list string)))
    (start_year current_year : Z) :
  (forall e, content = Raise e ->
     fetch_french_emerging_returns content start_year current_year
     = Raise (ValueError ("Could not fetch emerging markets data: " ++ exn_str e)))
  /\ (forall lines, content = Ok lines ->
        let annual_data := omap emerging_row lines in
        let series := french_window start_year current_year annual_data in
        (annual_data = [] ->
         fetch_french_emerging_returns content start_year current_year
         = Raise (ValueError
                    "Could not fetch emerging markets data: No valid data found"))
        /\ (annual_data <> [] -> series = [] ->
            fetch_french_emerging_returns content start_year current_year
            = Raise (ValueError
                       "Could not fetch emerging markets data: No valid returns data for Emerging Markets"))
        /\ (series <> [] ->
            exists st,
              fetch_french_emerging_returns content start_year current_year = Ok st
              /\ annual_returns st = map snd series
              /\ Forall (fun r => -0.90 < r)%R (annual_returns st)
              /\ (-0.90 < geometric_mean st)%R)).
Proof.
  split.
  { intros e ->. reflexivity. }
  intros lines -> annual_data series.
  unfold French.fetch_french_emerging_returns. cbn [rbind].
  fold annual_data. fold series.
  assert (Habove : Forall (fun r => -0.90 < r)%R (map snd series)).
  { apply List.Forall_forall. intros r Hr. apply in_map_iff in Hr.
    destruct Hr as (p & <- & Hp). subst series.
    apply french_window_in in Hp. destruct Hp as [Hp _].
    pose proof (emerging_rows_above lines) as Hall.
    rewrite List.Forall_forall in Hall. now apply Hall. }
  assert (Hfactors : Forall (fun m => 0.1 < m)%R
                            (map (fun r => 1 + r)%R (map snd series))).
  { apply List.Forall_forall. intros m Hm. apply in_map_iff in Hm.
    destruct Hm as (r & <- & Hr). rewrite List.Forall_forall in Habove.
    specialize (Habove r Hr). lra. }
  assert (Hprod : (0 < np_prod (map (fun r => 1 + r)%R (map snd series)))%R).
  { apply StatsMore.np_prod_pos. eapply Forall_impl; [exact Hfactors|].
    intros m Hm. simpl in Hm. lra. }
  split; [|split].
  - intros E. rewrite E. reflexivity.
  - intros Hne E. destruct annual_data as [|p0 rest]; [congruence|].
    rewrite bool_decide_eq_false_2 by lra.
    rewrite E. reflexivity.
  - intros Hne.
    assert (Hdata : annual_data <> []).
    { intros E. subst series. rewrite E in Hne. now apply Hne. }
    destruct annual_data as [|p0 rest] eqn:Eannual; [congruence|].
    rewrite bool_decide_eq_false_2 by lra.
    destruct (StatsProps.compute_stats_ok pd_skew pd_kurtosis
                "Emerging Markets" "Emerging Markets (Fama-French)"
                "Kenneth French Data Library, Dartmouth" (to_series series))
      as (st & Hst & Harr & _ & Hgeo & _).
    { now rewrite StatsProps.dropna_to_series. }
    rewrite StatsProps.dropna_to_series in Harr, Hgeo.
    exists st. rewrite Hst. split; [reflexivity|]. split; [exact Harr|].
    rewrite Harr, Hgeo. split; [exact Habove|].
    unfold geo_mean, float_pow. rewrite bool_decide_eq_true_2 by exact Hprod.
    assert (Hlen : (0 < length (map snd series))%nat).
    { rewrite length_map. destruct series; [congruence | simpl; lia]. }
    assert (Hroot : (0.1 < Rpower (np_prod (map (fun r => 1 + r)%R (map snd series)))
                                 (1 / INR (length (map snd series))))%R).
    { apply root_lower; [lra | exact Hlen |].
      rewrite <- (length_map (fun r => (1 + r)%R) (map snd series)).
      apply prod_lower; [lra | | exact Hfactors].
      destruct (map snd series); [simpl in Hlen; lia | discriminate]. }
    lra.
Qed.

End WithParsers.

Section Chain.
Variables pd_skew pd_kurtosis : list R -> option R.
Variable py_int : string -> option Z.
Variable py_float : string -> option R.
Variable HAS_YFINANCE : bool.
Variable yahoo_returns : result (list (Z * R)).

#[local] Abbreviation french :=
  (fetch_french_emerging_returns pd_skew pd_kurtosis py_int py_float).
#[local] Abbreviation yahoo := (emerging_from_yahoo pd_skew pd_kurtosis yahoo_returns).
#[local] Abbreviation best :=
  (fetch_emerging_best pd_skew pd_kurtosis py_int py_float HAS_YFINANCE
     yahoo_returns).

Lemma french_emerging_error (content : result (list (list string)))
    (start_year current_year : Z) (e : exn) :
  french content start_year current_year = Raise e ->
  exists inner,
    e = ValueError ("Could not fetch emerging markets data: " ++ inner).
Proof.
  unfold French.fetch_french_emerging_returns, reraise.
  destruct (let* lines := content in _) as [st|e0]; [discriminate|].
  intros [= <-]. now exists (exn_str e0).
Qed.

Lemma french_emerging_source (content : result (list (list string)))
    (start_year current_year : Z) (st : AssetStats) :
  french content start_year current_year = Ok st ->
  source st = "Kenneth French Data Library, Dartmouth"%string.
Proof.
  intros H. unfold French.fetch_french_emerging_returns in H.
  apply FrenchMore.reraise_ok in H.
  destruct content as [lines|e]; [|discriminate H]. cbn [rbind] in H.
  destruct (omap _ lines); [discriminate H|].
  case_bool_decide; [discriminate H|].
  unfold Stats.compute_stats in H.
  destruct (dropna _) as [|[y0 r0] rest]; [discriminate H|].
  now injection H as <-.
Qed.

Lemma yahoo_emerging_source (st : AssetStats) :
  yahoo = Ok st -> source st = "Yahoo Finance"%string.
Proof.
  unfold French.emerging_from_yahoo.
  destruct yahoo_returns as [returns|e]; [|discriminate]. cbn [rbind].
  unfold Stats.compute_stats.
  destruct (dropna _) as [|[y0 r0] rest]; [discriminate|].
  now intros [= <-].
Qed.

(** [fetch_emerging_best] returns the statistics of the French adapter
    when it succeeds, else those of Yahoo Finance when yfinance is present
    and its attempt succeeds; the source of the statistics tells which.
    It raises nothing but a [ValueError], whose message names the French
    failure after the words of the chain and the words of the adapter, and
    the Yahoo failure after it when Yahoo was tried. *)
Theorem emerging_chain_outcomes (content : result (list (list string)))
    (start_year current_year : Z) :
  (forall st, french content start_year current_year = Ok st ->
     best content start_year current_year = Ok st)
  /\ (forall st, best content start_year current_year = Ok st ->
        french content start_year current_year = Ok st
        /\ source st = "Kenneth French Data Library, Dartmouth"%string
        \/ (exists e, french content start_year current_year = Raise e)
           /\ HAS_YFINANCE = true /\ yahoo = Ok st
           /\ source st = "Yahoo Finance"%string)
  /\ (forall e, best content start_year current_year = Raise e ->
        exists inner,
          french content start_year current_year
          = Raise (ValueError ("Could not fetch emerging markets data: " ++ inner))
          /\ (e = ValueError
                    ("Could not fetch emerging markets data: French: Could not fetch emerging markets data: "
                     ++ inner)
              /\ HAS_YFINANCE = false
              \/ exists e',
                   HAS_YFINANCE = true /\ yahoo = Raise e'
                   /\ e = ValueError
                            ("Could not fetch emerging markets data: French: Could not fetch emerging markets data: "
                             ++ inner ++ "; Yahoo: " ++ exn_str e'))).
Proof.
  unfold French.fetch_emerging_best, try_return.
  destruct (french content start_year current_year) as [st0|e0] eqn:Ef.
  - split; [intros st [= <-]; reflexivity|]. split.
    + intros st [= <-]. left. split; [reflexivity|].
      apply (french_emerging_source _ _ _ _ Ef).
    + intros e H. discriminate H.
  - destruct (french_emerging_error _ _ _ _ Ef) as [inner ->].
    split; [intros st H; discriminate H|].
    destruct HAS_YFINANCE.
    + destruct yahoo as [sty|ey] eqn:Ey.
      * split.
        -- intros st [= <-]. right. split; [eauto|].
           split; [reflexivity|]. split; [reflexivity|].
           apply yahoo_emerging_source. exact Ey.
        -- intros e H. discriminate H.
      * split; [intros st H; discriminate H|].
        intros e [= <-]. exists inner. split; [reflexivity|].
        right. exists ey. split; [reflexivity|]. split; reflexivity.
    + split; [intros st H; discriminate H|].
      intros e [= <-]. exists inner. split; [reflexivity|].
      left. split; reflexivity.
Qed.

End Chain.

Lemma factors_lines_complete :
  Forall (complete_line sample_int sample_float) factors_lines.
Proof.
  unfold factors_lines.
  repeat (apply List.Forall_cons; [|]); try apply List.Forall_nil.
  - intros H. exfalso. apply H. reflexivity.
  - intros _. repeat split; try (simpl; lia); eexists; reflexivity.
  - intros _. repeat split; try (simpl; lia); eexists; reflexivity.
  - intros H. exfalso. apply H. reflexivity.
Qed.

Lemma french_statistics_window_witness :
  exists st,
    fetch_french_risk_free_rate no_moments no_moments sample_int sample_float
      (Ok factors_lines) 1926 2025 = Ok st
    /\ (Z.max 1926 1900 <= start_year st)%Z
    /\ (start_year st <= end_year st)%Z
    /\ (end_year st < Z.min 2025 2101)%Z.
Proof.
  eexists. split; [reflexivity|].
  apply (french_statistics_window no_moments no_moments sample_int sample_float
           (Ok factors_lines) 1926 2025).
  right. right. left. reflexivity.
Defined.


Lemma sample_float_10 : sample_float "10.0" = Some 10%R.
Proof.
  unfold sample_float, DecimalText.read_decimal.
  assert (E : DecimalText.read_numeral "10.0"
              = Some {| DecimalText.negative := false;
                        DecimalText.int_part := [1; 0]%Z;
                        DecimalText.frac_part := [0%Z];
                        DecimalText.exponent := None |}) by reflexivity.
  rewrite E. cbn [fmap option_fmap option_map]. f_equal.
  unfold DecimalText.numeral_value.
  cbn [DecimalText.negative DecimalText.int_part DecimalText.frac_part
       DecimalText.exponent length].
  change (DecimalText.digits_value [1; 0]%Z) with 10%Z.
  change (DecimalText.digits_value [0%Z]) with 0%Z.
  simpl. lra.
Qed.

Lemma sample_float_5 : sample_float "5.0" = Some 5%R.
Proof.
  unfold sample_float, DecimalText.read_decimal.
  assert (E : DecimalText.read_numeral "5.0"
              = Some {| DecimalText.negative := false;
                        DecimalText.int_part := [5%Z];
                        DecimalText.frac_part := [0%Z];
                        DecimalText.exponent := None |}) by reflexivity.
  rewrite E. cbn [fmap option_fmap option_map]. f_equal.
  unfold DecimalText.numeral_value.
  cbn [DecimalText.negative DecimalText.int_part DecimalText.frac_part
       DecimalText.exponent length].
  change (DecimalText.digits_value [5%Z]) with 5%Z.
  change (DecimalText.digits_value [0%Z]) with 0%Z.
  simpl. lra.
Qed.

Lemma emerging_first_row :
  emerging_row sample_int sample_float
    ["1990"; "10.0"; "1.0"; "1.0"; "1.0"; "5.0"]%string
  = Some (1990%Z, (10 / 100 + 5 / 100)%R).
Proof.
  unfold emerging_row.
  change (6 <=? length _)%nat with true. cbv iota.
  assert (Y : year_field sample_int
                ["1990"; "10.0"; "1.0"; "1.0"; "1.0"; "5.0"]%string
              = Some 1990%Z) by reflexivity.
  rewrite Y. cbn [mbind option_bind part nth].
  rewrite sample_float_10, sample_float_5. cbn [mbind option_bind].
  rewrite bool_decide_eq_true_2 by lra. reflexivity.
Qed.

Lemma emerging_outcomes_witness :
  exists st,
    fetch_french_emerging_returns no_moments no_moments sample_int sample_float
      (Ok emerging_lines) 1990 2025 = Ok st
    /\ (-0.90 < geometric_mean st)%R.
Proof.
  destruct (emerging_outcomes no_moments no_moments sample_int sample_float
              (Ok emerging_lines) 1990 2025) as [_ H].
  destruct (H emerging_lines eq_refl) as (_ & _ & Hok).
  destruct Hok as (st & Hst & _ & _ & Hgeo).
  - assert (Hin : In (1990%Z, (10 / 100 + 5 / 100)%R)
                     (french_window 1990 2025
                        (omap (emerging_row sample_int sample_float)
                              emerging_lines))).
    { apply french_window_in. split; [|simpl; lia].
      apply list_elem_of_In, list_elem_of_omap.
      eexists. split; [|exact emerging_first_row].
      unfold emerging_lines. apply list_elem_of_here. }
    intros E. rewrite E in Hin. destruct Hin.
  - exists st. split; [exact Hst | exact Hgeo].
Defined.

Lemma emerging_chain_outcomes_witness :
  fetch_emerging_best no_moments no_moments sample_int sample_float false
    (Raise (ImportError "yfinance is required"))
    (Raise (URLError "timed out")) 1990 2025
  = Raise (ValueError
             "Could not fetch emerging markets data: French: Could not fetch emerging markets data: <urlopen error timed out>").
Proof.
  destruct (emerging_chain_outcomes no_moments no_moments sample_int sample_float
              false (Raise (ImportError "yfinance is required"))
              (Raise (URLError "timed out")) 1990 2025) as (_ & _ & H).
  destruct (H _ eq_refl) as (inner & Hf & _). reflexivity.
Defined.

End FrenchMore.

(** ** T-bills: FRED, the API key and the current year *)

Module FredMore.
Import Stats Adapters Orchestrator French Fred.

Section WithFred.
Variables pd_skew pd_kurtosis : list R -> option R.
Variable py_int : string -> option Z.
Variable py_float : string -> option R.
Variable HAS_FRED : bool.
Variable fred_cache : string -> Z -> option (list (Z * R)).
Variable fred_get_series : string -> string -> Z -> result (list (Z * option R)).

#[local] Abbreviation fetch_fred_tbills :=
  (fetch_fred_tbills pd_skew pd_kurtosis HAS_FRED fred_cache fred_get_series).
#[local] Abbreviation fetch_french_risk_free_rate :=
  (fetch_french_risk_free_rate pd_skew pd_kurtosis py_int py_float).
#[local] Abbreviation fetch_tbills_best :=
  (fetch_tbills_best pd_skew pd_kurtosis py_int py_float HAS_FRED fred_cache
     fred_get_series).

Lemma stats_source name description source (s : series) (st : AssetStats) :
  compute_stats pd_skew pd_kurtosis name description source s = Ok st ->
  Stats.source st = source.
Proof.
  unfold compute_stats. destruct (dropna s) as [|[y0 r0] rest]; [discriminate|].
  now intros [= <-].
Qed.

(** The FRED adapter: what a success needs and what it returns. *)
Lemma fetch_fred_tbills_ok (environ : gmap string string)
    (start_year current_year : Z) (st : AssetStats) :
  fetch_fred_tbills environ start_year current_year = Ok st ->
  HAS_FRED = true
  /\ truthy (environ !! "FRED_API_KEY"%string) = true
  /\ (end_year st < current_year)%Z
  /\ source st = "FRED (TB3MS)"%string.
Proof.
  unfold Fred.fetch_fred_tbills.
  destruct HAS_FRED; [|discriminate]. cbn [negb].
  destruct (environ !! "FRED_API_KEY"%string) as [[|c key]|]; try discriminate.
  destruct (match fred_cache "TB3MS" start_year with
            | Some annual => Ok annual
            | None => _
            end) as [annual|e]; [|discriminate].
  cbn [rbind]. intros Hst. split; [reflexivity|]. split; [reflexivity|].
  split; [|now apply stats_source in Hst].
  destruct (StatsProps.compute_stats_result _ _ _ _ _ _ _ Hst)
    as (_ & _ & _ & Hend & _).
  rewrite StatsProps.dropna_to_series in Hend.
  apply in_map_iff in Hend. destruct Hend as (p & <- & Hp).
  pose proof (AdaptersProps.index_lt_years current_year annual) as Hall.
  rewrite List.Forall_forall in Hall. now apply Hall.
Qed.

Lemma fetch_french_risk_free_ok (content : result (list (list string)))
    (start_year current_year : Z) (st : AssetStats) :
  fetch_french_risk_free_rate content start_year current_year = Ok st ->
  (end_year st < current_year)%Z
  /\ source st = "Kenneth French Data Library, Dartmouth"%string.
Proof.
  intros Hst. split.
  - destruct (FrenchMore.french_statistics_window pd_skew pd_kurtosis py_int
                py_float content start_year current_year st) as (_ & _ & H);
      [right; right; left; exact Hst | lia].
  - unfold French.fetch_french_risk_free_rate in Hst.
    destruct content as [lines|e]; [|discriminate Hst]. cbn [rbind] in Hst.
    now apply stats_source in Hst.
Qed.

(** T-bill statistics never include the current year, whether they come
    from FRED (from the cache file or from a download) or from the French
    factors file, and their source tells which.  FRED is consulted only
    when fredapi is present and the environment holds a non-empty
    [FRED_API_KEY]; otherwise the outcome is that of the French adapter
    alone, and the message of a failure names the French failure only.
    The chain raises nothing but a [ValueError]. *)
Theorem tbills_outcomes (environ : gmap string string)
    (content : result (list (list string))) (start_year current_year : Z) :
  (forall st,
      fetch_tbills_best environ content start_year current_year = Ok st ->
      (end_year st < current_year)%Z
      /\ (source st = "FRED (TB3MS)"%string
          /\ HAS_FRED = true
          /\ truthy (environ !! "FRED_API_KEY"%string) = true
          /\ fetch_fred_tbills environ (Z.max start_year 1934) current_year = Ok st
          \/ source st = "Kenneth French Data Library, Dartmouth"%string
             /\ fetch_french_risk_free_rate content start_year current_year = Ok st))
  /\ (HAS_FRED && truthy (environ !! "FRED_API_KEY"%string) = false ->
      fetch_tbills_best environ content start_year current_year
      = match fetch_french_risk_free_rate content start_year current_year with
        | Ok st => Ok st
        | Raise e =>
            Raise (ValueError ("Could not fetch T-bill data: French: " ++ exn_str e))
        end)
  /\ (forall e,
         fetch_tbills_best environ content start_year current_year = Raise e ->
         exists msg, e = ValueError ("Could not fetch T-bill data: " ++ msg)).
Proof.
  unfold Fred.fetch_tbills_best, fetch_tbills_best_run, try_return.
  destruct (HAS_FRED && truthy (environ !! "FRED_API_KEY"%string)) eqn:Egate.
  - destruct (fetch_fred_tbills environ (Z.max start_year 1934) current_year)
      as [fst_|ef] eqn:Ef.
    + destruct (fetch_fred_tbills_ok _ _ _ _ Ef) as (Hh & Hk & Hend & Hsrc).
      cbn [snd]. split; [|split].
      * intros st [= <-]. split; [exact Hend|]. left. auto.
      * discriminate.
      * intros e H. discriminate H.
    + destruct (fetch_french_risk_free_rate content start_year current_year)
        as [st0|e0] eqn:E0; cbn [snd].
      * destruct (fetch_french_risk_free_ok _ _ _ _ E0) as [Hend Hsrc].
        split; [|split].
        -- intros st [= <-]. split; [exact Hend|]. right. auto.
        -- discriminate.
        -- intros e H. discriminate H.
      * split; [intros st H; discriminate H|]. split; [discriminate|].
        intros e [= <-]. eexists. reflexivity.
  - destruct (fetch_french_risk_free_rate content start_year current_year)
      as [st0|e0] eqn:E0; cbn [snd].
    + destruct (fetch_french_risk_free_ok _ _ _ _ E0) as [Hend Hsrc].
      split; [|split].
      * intros st [= <-]. split; [exact Hend|]. right. auto.
      * reflexivity.
      * intros e H. discriminate H.
    + split; [intros st H; discriminate H|]. split; [reflexivity|].
      intros e [= <-]. eexists. reflexivity.
Qed.

End WithFred.

Lemma tbills_outcomes_witness :
  fetch_tbills_best no_moments no_moments sample_int sample_float true
    (fun _ _ => None) (fun _ _ _ => Raise (URLError "timed out"))
    {[ "FRED_API_KEY"%string := ""%string ]}
    (Raise (URLError "timed out")) 1926 2025
  = Raise (ValueError
             "Could not fetch T-bill data: French: <urlopen error timed out>").
Proof.
  destruct (tbills_outcomes no_moments no_moments sample_int sample_float true
              (fun _ _ => None) (fun _ _ _ => Raise (URLError "timed out"))
              {[ "FRED_API_KEY"%string := ""%string ]}
              (Raise (URLError "timed out")) 1926 2025) as (_ & H & _).
  rewrite H; reflexivity.
Defined.

End FredMore.
(** ** The loop over the fetchers and the keys of the output *)

Module MainMore.
Import Stats Exporter MainLoop.

(** The statistics collected by the loop, with an accumulator. *)
Lemma fetch_loop_from (fetchers : list (string * string * result AssetStats))
    (acc : list (string * AssetStats)) :
  fold_left (fun all_stats fetcher =>
               match fetcher with
               | (prefix, _, Ok stats) => (all_stats ++ [(prefix, stats)])%list
               | (_, _, Raise _) => all_stats
               end) fetchers acc
  = (acc ++ omap (fun fetcher : string * string * result AssetStats =>
                   match fetcher with
                   | (prefix, _, Ok stats) => Some (prefix, stats)
                   | (_, _, Raise _) => None
                   end) fetchers)%list.
Proof.
  revert acc. induction fetchers as [|[[prefix name] [stats|e]] fetchers IH];
    intros acc; cbn [fold_left omap list_omap].
  - now rewrite app_nil_r.
  - rewrite IH, <- app_assoc. reflexivity.
  - apply IH.
Qed.

Lemma fetch_loop_omap (fetchers : list (string * string * result AssetStats)) :
  fetch_loop fetchers
  = omap (fun fetcher : string * string * result AssetStats =>
            match fetcher with
            | (prefix, _, Ok stats) => Some (prefix, stats)
            | (_, _, Raise _) => None
            end) fetchers.
Proof. unfold fetch_loop. now rewrite fetch_loop_from. Qed.

Lemma fetch_loop_prefixes (fetchers : list (string * string * result AssetStats)) :
  map fst (fetch_loop fetchers) `sublist_of` map (fun f => fst (fst f)) fetchers.
Proof.
  rewrite fetch_loop_omap.
  induction fetchers as [|[[prefix name] [stats|e]] fetchers IH];
    cbn [omap list_omap map fst].
  - constructor.
  - now apply sublist_skip.
  - now apply sublist_cons.
Qed.

Lemma all_prefixes_distinct : NoDup all_prefixes.
Proof.
  unfold all_prefixes.
  repeat (apply NoDup_cons_2;
          [intros H; apply list_elem_of_In in H; cbn [In] in H;
           repeat (destruct H as [H|H]; [discriminate H|]); exact H|]).
  apply NoDup_nil_2.
Qed.

Lemma all_prefixes_names :
  Forall (fun p => rust_name p = p) all_prefixes.
Proof. unfold all_prefixes. repeat (constructor; [reflexivity|]). constructor. Qed.

(** The dict built from entries with distinct keys holds every entry
    under its key. *)
Lemma profiles_from (entries : list (string * AssetStats))
    (d : gmap string (list (string * json_value))) (prefix : string)
    (stats : AssetStats) :
  NoDup (map fst entries) -> In (prefix, stats) entries ->
  fold_left (fun d entry => <[fst entry := to_dict (snd entry)]> d) entries d
  !! prefix = Some (to_dict stats).
Proof.
  revert d. induction entries as [|[p st] entries IH]; intros d Hnd Hin;
    [destruct Hin|].
  cbn [map fst] in Hnd. apply NoDup_cons in Hnd. destruct Hnd as [Hp Hnd].
  cbn [fold_left fst snd]. destruct Hin as [[= -> ->]|Hin].
  - clear IH. revert d. induction entries as [|[p' st'] entries IH]; intros d.
    + apply lookup_insert_eq.
    + cbn [fold_left fst snd].
      cbn [map fst] in Hp, Hnd.
      apply not_elem_of_cons in Hp. destruct Hp as [Hne Hp].
      apply NoDup_cons in Hnd. destruct Hnd as [_ Hnd].
      rewrite insert_insert_ne by congruence. now apply IH.
  - now apply IH.
Qed.

(** What the loop collects and how it is keyed.  The loop keeps the
    statistics of the fetchers that returned, in the order of the list,
    and skips those that raised: a failure does not end the run.  The
    prefixes it collects are distinct, and those of the Yahoo-only assets
    are absent without yfinance.  So the JSON object holds every collected
    record under its prefix, and the names of the Rust constants, which
    for these prefixes are the prefixes themselves, are distinct. *)
Theorem fetch_loop_outcome (HAS_YFINANCE : bool)
    (sp500 small_cap tbills bonds international emerging
     reits gold aggregate corporate tips : result AssetStats) :
  let fetchers :=
    main_fetchers HAS_YFINANCE sp500 small_cap tbills bonds international
      emerging reits gold aggregate corporate tips in
  let all_stats := fetch_loop fetchers in
  (forall prefix stats,
      In (prefix, stats) all_stats
      <-> exists name, In (prefix, name, Ok stats) fetchers)
  /\ map fst all_stats `sublist_of` all_prefixes
  /\ NoDup (map fst all_stats)
  /\ (HAS_YFINANCE = false -> map fst all_stats `sublist_of` take 6 all_prefixes)
  /\ (forall prefix stats,
         In (prefix, stats) all_stats ->
         return_profiles all_stats !! prefix = Some (to_dict stats))
  /\ map (fun entry => rust_name (fst entry)) all_stats = map fst all_stats
  /\ NoDup (map (fun entry => rust_name (fst entry)) all_stats).
Proof.
  intros fetchers all_stats.
  assert (Hsub : map fst all_stats `sublist_of` all_prefixes).
  { etransitivity; [apply fetch_loop_prefixes|].
    subst fetchers. unfold main_fetchers. rewrite map_app.
    destruct HAS_YFINANCE; cbn [map fst app].
    - reflexivity.
    - unfold all_prefixes. repeat apply sublist_skip.
      repeat apply sublist_cons. constructor. }
  assert (Hnd : NoDup (map fst all_stats)).
  { eapply sublist_NoDup; [apply all_prefixes_distinct | exact Hsub]. }
  assert (Hnames : map (fun entry => rust_name (fst entry)) all_stats
                   = map fst all_stats).
  { apply map_ext_in. intros [p st] Hin. cbn [fst].
    pose proof all_prefixes_names as Hall. rewrite List.Forall_forall in Hall.
    apply Hall. apply list_elem_of_In.
    apply (elem_of_sublist (map fst all_stats)); [|exact Hsub].
    apply list_elem_of_In, in_map_iff. now exists (p, st). }
  split; [|split; [exact Hsub|split; [exact Hnd|split; [|split; [|split]]]]].
  - intros prefix stats. subst all_stats. rewrite fetch_loop_omap.
    rewrite <- list_elem_of_In, list_elem_of_omap. split.
    + intros ([[p name] [st|e]] & Hin & Heq); [|discriminate Heq].
      injection Heq as -> ->. exists name. now apply list_elem_of_In.
    + intros (name & Hin). exists (prefix, name, Ok stats).
      split; [now apply list_elem_of_In | reflexivity].
  - intros ->. etransitivity; [apply fetch_loop_prefixes|].
    subst fetchers. unfold main_fetchers. rewrite map_app.
    cbn [map fst app take all_prefixes]. reflexivity.
  - intros prefix stats Hin. now apply profiles_from.
  - exact Hnames.
  - rewrite Hnames. exact Hnd.
Qed.

Lemma fetch_loop_outcome_witness :
  fetch_loop
    (main_fetchers false (Ok french_stats)
       (Raise (ValueError "Could not fetch small cap data: French: timed out"))
       (Ok half_stats) (Raise (ImportError "openpyxl required for Shiller data"))
       (Raise (URLError "timed out")) (Raise (URLError "timed out"))
       (Ok half_stats) (Ok half_stats) (Ok half_stats) (Ok half_stats)
       (Ok half_stats))
  = [("SP_500"%string, french_stats); ("US_TBILLS"%string, half_stats)]
  /\ return_profiles
       [("SP_500"%string, french_stats); ("US_TBILLS"%string, half_stats)]
     !! "US_TBILLS"%string = Some (to_dict half_stats).
Proof.
  split; [reflexivity|].
  destruct (fetch_loop_outcome false (Ok french_stats)
       (Raise (ValueError "Could not fetch small cap data: French: timed out"))
       (Ok half_stats) (Raise (ImportError "openpyxl required for Shiller data"))
       (Raise (URLError "timed out")) (Raise (URLError "timed out"))
       (Ok half_stats) (Ok half_stats) (Ok half_stats) (Ok half_stats)
       (Ok half_stats)) as (_ & _ & _ & _ & H & _).
  apply (H "US_TBILLS"%string half_stats). right. left. reflexivity.
Defined.

End MainMore.
(** ** Environment files: the lines that are read and the variables set *)

Module DotenvMore.
Import Dotenv.
Open Scope string_scope.

(** *** White space at the ends *)

Lemma append_cons (c : ascii) (a b : string) :
  String c a ++ b = String c (a ++ b).
Proof. reflexivity. Qed.

Lemma append_nil (b : string) : "" ++ b = b.
Proof. reflexivity. Qed.

Lemma app_nil_r_string (s : string) : s ++ "" = s.
Proof.
  induction s as [|c s IH]; [reflexivity|].
  rewrite append_cons. f_equal. exact IH.
Qed.

Lemma app_assoc_string (a b c : string) : (a ++ b) ++ c = a ++ b ++ c.
Proof.
  induction a as [|x a IH]; [reflexivity|].
  rewrite !append_cons. f_equal. exact IH.
Qed.

Lemma lstrip_length (s : string) : (String.length (lstrip s) <= String.length s)%nat.
Proof.
  induction s as [|c s IH]; simpl; [lia|].
  destruct (is_space c); simpl; lia.
Qed.

Lemma lstrip_blank_app (ws s : string) :
  blank ws = true -> lstrip (ws ++ s) = lstrip s.
Proof.
  induction ws as [|c ws IH]; [reflexivity|].
  rewrite append_cons. cbn [blank lstrip].
  intros H. apply andb_true_iff in H. destruct H as [Hc Hws].
  rewrite Hc. now apply IH.
Qed.

Lemma lstrip_fixed (s : string) :
  s <> "" -> lstrip s = s ->
  exists c rest, s = String c rest /\ is_space c = false.
Proof.
  destruct s as [|c rest]; [congruence|]. intros _. cbn [lstrip].
  destruct (is_space c) eqn:E; [|eauto].
  intros H. pose proof (lstrip_length rest) as Hlen.
  rewrite H in Hlen. simpl in Hlen. lia.
Qed.

Lemma rstrip_blank (ws : string) : blank ws = true -> rstrip ws = "".
Proof.
  induction ws as [|c ws IH]; [reflexivity|]. cbn [blank rstrip].
  intros H. apply andb_true_iff in H. destruct H as [Hc Hws].
  now rewrite (IH Hws), Hc.
Qed.

Lemma rstrip_app_blank (s ws : string) :
  blank ws = true -> rstrip (s ++ ws) = rstrip s.
Proof.
  intros Hws. induction s as [|c s IH].
  - rewrite append_nil. now apply rstrip_blank.
  - rewrite append_cons. cbn [rstrip]. now rewrite IH.
Qed.

Lemma rstrip_cons_nonspace (c : ascii) (s : string) :
  is_space c = false -> rstrip (String c s) = String c (rstrip s).
Proof. intros Hc. cbn [rstrip]. rewrite Hc. now destruct (rstrip s). Qed.

Lemma rstrip_app_keep (a b : string) :
  rstrip b <> "" -> rstrip (a ++ b) = a ++ rstrip b.
Proof.
  intros Hb. induction a as [|c a IH]; [reflexivity|].
  rewrite !append_cons. cbn [rstrip]. rewrite IH.
  destruct (a ++ rstrip b) eqn:E; [|reflexivity].
  destruct a as [|x a]; [rewrite append_nil in E; congruence|].
  rewrite append_cons in E. discriminate E.
Qed.

(** *** The first [=] *)

Lemma partition_eq_app (a x : string) :
  lacks "=" a = true -> partition_eq (a ++ "=" ++ x) = Some (a, x).
Proof.
  induction a as [|c a IH].
  - intros _. rewrite append_nil. reflexivity.
  - rewrite append_cons. cbn [lacks partition_eq].
    intros H. apply andb_true_iff in H. destruct H as [Hc Ha].
    apply negb_true_iff in Hc. rewrite Hc, (IH Ha). reflexivity.
Qed.

Lemma partition_eq_none (s : string) :
  lacks "=" s = true -> partition_eq s = None.
Proof.
  induction s as [|c s IH]; [reflexivity|]. cbn [lacks partition_eq].
  intros H. apply andb_true_iff in H. destruct H as [Hc Hs].
  apply negb_true_iff in Hc. now rewrite Hc, (IH Hs).
Qed.

Lemma blank_lacks_eq (ws : string) : blank ws = true -> lacks "=" ws = true.
Proof.
  induction ws as [|c ws IH]; [reflexivity|]. cbn [blank lacks].
  intros H. apply andb_true_iff in H. destruct H as [Hc Hws].
  rewrite (IH Hws), andb_true_r. apply negb_true_iff.
  destruct (Ascii.eqb_spec c "="); [subst c; discriminate Hc | reflexivity].
Qed.

Lemma lacks_app (c : ascii) (a b : string) :
  lacks c a = true -> lacks c b = true -> lacks c (a ++ b) = true.
Proof.
  intros Ha Hb. induction a as [|x a IH]; [exact Hb|].
  rewrite append_cons. cbn [lacks] in *.
  apply andb_true_iff in Ha. destruct Ha as [Hx Ha].
  now rewrite Hx, (IH Ha).
Qed.

Lemma lstrip_lacks (c : ascii) (s : string) :
  lacks c s = true -> lacks c (lstrip s) = true.
Proof.
  induction s as [|x s IH]; [reflexivity|]. cbn [lacks lstrip].
  intros H. destruct (is_space x); [|exact H].
  apply andb_true_iff in H. now apply IH.
Qed.

Lemma rstrip_lacks (c : ascii) (s : string) :
  lacks c s = true -> lacks c (rstrip s) = true.
Proof.
  induction s as [|x s IH]; [reflexivity|]. cbn [lacks rstrip].
  intros H. apply andb_true_iff in H. destruct H as [Hx Hs].
  specialize (IH Hs). destruct (rstrip s) eqn:E.
  - destruct (is_space x); [reflexivity|]. cbn [lacks]. now rewrite Hx.
  - cbn [lacks] in *. now rewrite Hx, IH.
Qed.

(** *** Quotes *)

Lemma endswith_app (c : ascii) (body : string) :
  endswith c (body ++ String c "") = true.
Proof.
  induction body as [|x body IH].
  - rewrite append_nil. cbn [endswith]. apply Ascii.eqb_refl.
  - rewrite append_cons. cbn [endswith].
    destruct (body ++ String c "") eqn:E; [|exact IH].
    destruct body as [|y body]; [rewrite append_nil in E; discriminate E|].
    rewrite append_cons in E. discriminate E.
Qed.

Lemma drop_last_app (c : ascii) (body : string) :
  drop_last (body ++ String c "") = body.
Proof.
  induction body as [|x body IH]; [reflexivity|].
  rewrite append_cons. cbn [drop_last].
  destruct (body ++ String c "") eqn:E.
  - destruct body as [|y body]; [rewrite append_nil in E; discriminate E|].
    rewrite append_cons in E. discriminate E.
  - now rewrite IH.
Qed.

(** *** Reading a line *)

(** How a line of an environment file is read, for ASCII text.  A line
    [KEY=VALUE], with white space allowed around the line, the key and the
    value, stores the value under the key, without the surrounding white
    space and without a pair of quotes around the value; the key is not
    empty, does not start with [#] and holds no [=].  A line whose first
    character after the white space is [#], a line of white space and a
    line without [=] store nothing.  A value in double quotes or in single
    quotes loses exactly the two quotes; a value that does not start with
    a quote is kept as it is. *)
Theorem env_line_reading :
  (forall ws1 ws2 ws3 ws4 key value : string,
      is_ascii key -> is_ascii value ->
      blank ws1 = true -> blank ws2 = true ->
      blank ws3 = true -> blank ws4 = true ->
      key <> "" -> lstrip key = key -> rstrip key = key ->
      lacks "=" key = true -> startswith "#" key = false ->
      lstrip value = value -> rstrip value = value ->
      parse_line (ws1 ++ key ++ ws2 ++ "=" ++ ws3 ++ value ++ ws4)
      = Some (key, unquote value))
  /\ (forall ws rest : string,
         is_ascii rest ->
         blank ws = true -> parse_line (ws ++ "#" ++ rest) = None)
  /\ (forall ws : string, blank ws = true -> parse_line ws = None)
  /\ (forall line : string,
         is_ascii line -> lacks "=" line = true -> parse_line line = None)
  /\ (forall body : string,
         is_ascii body ->
         unquote (String double_quote body ++ String double_quote "") = body
         /\ unquote ("'" ++ body ++ "'") = body)
  /\ (forall value : string,
         is_ascii value ->
         startswith double_quote value = false ->
         startswith "'" value = false ->
         unquote value = value).
Proof.
  split; [|split; [|split; [|split; [|split]]]].
  - intros ws1 ws2 ws3 ws4 key value _ _ H1 H2 H3 H4 Hne Hlk Hrk Heq Hhash
      Hlv Hrv.
    destruct (lstrip_fixed key Hne Hlk) as (c & k & -> & Hc).
    assert (Hl : forall rest, lstrip (String c k ++ rest) = String c k ++ rest).
    { intros rest. rewrite append_cons. cbn [lstrip]. now rewrite Hc. }
    assert (Hr : rstrip ("=" ++ ws3 ++ value ++ ws4)
                 = "=" ++ rstrip (ws3 ++ value)).
    { rewrite (append_cons "=" "" (ws3 ++ value ++ ws4)), append_nil.
      rewrite rstrip_cons_nonspace by reflexivity.
      rewrite <- (app_assoc_string ws3 value ws4).
      now rewrite rstrip_app_blank by exact H4. }
    assert (Hstrip :
      strip (ws1 ++ String c k ++ ws2 ++ "=" ++ ws3 ++ value ++ ws4)
      = (String c k ++ ws2) ++ "=" ++ rstrip (ws3 ++ value)).
    { unfold strip. rewrite lstrip_blank_app by exact H1. rewrite Hl.
      rewrite <- (app_assoc_string (String c k) ws2).
      rewrite rstrip_app_keep by (rewrite Hr; discriminate).
      now rewrite Hr. }
    unfold parse_line. rewrite Hstrip.
    assert (Hhead : (String c k ++ ws2) ++ "=" ++ rstrip (ws3 ++ value)
                    = String c ((k ++ ws2) ++ "=" ++ rstrip (ws3 ++ value))).
    { now rewrite !append_cons. }
    rewrite Hhead at 1 2. cbn [String.length Nat.eqb orb startswith].
    cbn [startswith] in Hhash. rewrite Hhash.
    rewrite partition_eq_app
      by (apply lacks_app; [exact Heq | now apply blank_lacks_eq]).
    assert (Hkey : strip (String c k ++ ws2) = String c k).
    { unfold strip. rewrite Hl. now rewrite rstrip_app_blank by exact H2. }
    assert (Hvalue : strip (rstrip (ws3 ++ value)) = value).
    { destruct value as [|v value'].
      - rewrite app_nil_r_string, (rstrip_blank ws3 H3). reflexivity.
      - rewrite rstrip_app_keep by (rewrite Hrv; discriminate).
        rewrite Hrv. unfold strip. rewrite lstrip_blank_app by exact H3.
        now rewrite Hlv, Hrv. }
    now rewrite Hkey, Hvalue.
  - intros ws rest _ Hws. unfold parse_line, strip.
    rewrite lstrip_blank_app by exact Hws.
    rewrite (append_cons "#" "" rest), append_nil.
    cbn [lstrip]. change (is_space "#") with false. cbv iota.
    rewrite rstrip_cons_nonspace by reflexivity. reflexivity.
  - intros ws Hws. unfold parse_line, strip.
    rewrite <- (app_nil_r_string ws), lstrip_blank_app by exact Hws.
    reflexivity.
  - intros line _ Hline. unfold parse_line.
    rewrite partition_eq_none
      by (unfold strip; now apply rstrip_lacks, lstrip_lacks).
    now destruct (_ || _).
  - intros body _. split.
    + unfold unquote.
      rewrite (endswith_app double_quote (String double_quote body)).
      rewrite append_cons. cbn [startswith inner]. rewrite Ascii.eqb_refl.
      cbn [andb orb]. apply drop_last_app.
    + unfold unquote.
      assert (E : endswith "'" ("'" ++ body ++ "'") = true).
      { rewrite <- app_assoc_string. apply endswith_app. }
      rewrite E. rewrite (append_cons "'" "" (body ++ "'")), append_nil.
      cbn [startswith inner]. rewrite Ascii.eqb_refl.
      rewrite orb_true_r. apply drop_last_app.
  - intros value _ H1 H2. unfold unquote. now rewrite H1, H2.
Qed.

Lemma ascii_text (s : string) :
  forallb (fun c => (nat_of_ascii c <? 128)%nat) (list_ascii_of_string s) = true ->
  is_ascii s.
Proof.
  intros H. apply Forall_forall. intros c Hc.
  apply Nat.ltb_lt. rewrite forallb_forall in H. apply H.
  now apply list_elem_of_In.
Qed.

Lemma env_line_reading_witness :
  parse_line ("  FRED_API_KEY = 'abc' " ++ String (ascii_of_nat 10) "")
  = Some ("FRED_API_KEY", "abc")
  /\ parse_line " # FRED_API_KEY=abc" = None
  /\ parse_line "export FRED_API_KEY" = None.
Proof.
  destruct env_line_reading as (Hentry & Hcomment & _ & Hplain & _).
  split; [|split].
  - apply (Hentry "  " " " " " (" " ++ String (ascii_of_nat 10) "")
             "FRED_API_KEY" "'abc'");
      solve [ reflexivity | discriminate | now apply ascii_text ].
  - apply (Hcomment " " " FRED_API_KEY=abc");
      solve [ reflexivity | now apply ascii_text ].
  - apply (Hplain "export FRED_API_KEY");
      solve [ reflexivity | now apply ascii_text ].
Defined.

(** *** The variables set *)

Lemma union_keeps (environ m : gmap string string) (key value old : string) :
  environ !! key = Some old -> environ ∪ <[key := value]> m = environ ∪ m.
Proof.
  intros Hold. apply map_eq. intros k. rewrite !lookup_union.
  destruct (decide (k = key)) as [->|Hne].
  - rewrite Hold. now destruct (<[key:=value]> m !! key), (m !! key).
  - now rewrite lookup_insert_ne by congruence.
Qed.

Lemma merge_environment_spec (environ env_vars : gmap string string) :
  match merge_environment environ env_vars with
  | Some environ' => environ' = environ ∪ env_vars
  | None => exists key value,
      env_vars !! key = Some value /\ environ !! key = None
      /\ setenv_ok key value = false
  end.
Proof.
  unfold merge_environment.
  apply (map_fold_weak_ind
           (fun acc m =>
              match acc with
              | Some environ' => environ' = environ ∪ m
              | None => exists key value,
                  m !! key = Some value /\ environ !! key = None
                  /\ setenv_ok key value = false
              end)).
  - cbn beta. now rewrite (right_id_L ∅ (∪)).
  - intros key value m acc Hfresh IH. destruct acc as [environ'|].
    + subst environ'.
      assert (Hlook : (environ ∪ m) !! key = environ !! key).
      { rewrite lookup_union, Hfresh. now destruct (environ !! key). }
      rewrite Hlook. destruct (environ !! key) as [old|] eqn:Hold.
      * symmetry. now apply union_keeps with old.
      * destruct (setenv_ok key value) eqn:Hok.
        -- now apply insert_union_r.
        -- exists key, value. now rewrite lookup_insert_eq.
    + destruct IH as (k & v & Hk & Hnone & Hbad).
      exists k, v. split; [|easy].
      rewrite lookup_insert_ne; [exact Hk | congruence].
Qed.

Lemma partition_eq_lacks (s before after : string) :
  partition_eq s = Some (before, after) -> lacks "=" before = true.
Proof.
  revert before after.
  induction s as [|c s IH]; intros before after; [discriminate|].
  cbn [partition_eq]. destruct (Ascii.eqb c "=") eqn:Hc.
  - intros [= <- _]. reflexivity.
  - destruct (partition_eq s) as [[b a]|]; [|discriminate].
    intros [= <- _]. cbn [lacks]. now rewrite Hc, (IH b a).
Qed.

Lemma parse_line_key (line key value : string) :
  parse_line line = Some (key, value) -> lacks "=" key = true.
Proof.
  unfold parse_line. destruct (_ || _); [discriminate|].
  destruct (partition_eq (strip line)) as [[before after]|] eqn:E;
    [|discriminate].
  intros [= <- _]. unfold strip.
  apply rstrip_lacks, lstrip_lacks. now apply partition_eq_lacks in E.
Qed.

Lemma load_env_file_keys (lines : list string) (key value : string) :
  load_env_file (Some lines) !! key = Some value -> lacks "=" key = true.
Proof.
  unfold load_env_file.
  assert (Hgen : forall env_vars : gmap string string,
             (forall k v, env_vars !! k = Some v -> lacks "=" k = true) ->
             forall k v,
               fold_left (fun env_vars line =>
                            match parse_line line with
                            | Some (key, value) => <[key := value]> env_vars
                            | None => env_vars
                            end) lines env_vars !! k = Some v ->
               lacks "=" k = true).
  { induction lines as [|line lines IH]; intros env_vars Hinv k v;
      cbn [fold_left]; [apply Hinv|].
    apply IH. destruct (parse_line line) as [[k' v']|] eqn:E; [|exact Hinv].
    intros k0 v0. destruct (decide (k0 = k')) as [->|Hne].
    - intros _. now apply parse_line_key in E.
    - rewrite lookup_insert_ne by congruence. apply Hinv. }
  apply Hgen. intros k v. now rewrite lookup_empty.
Qed.

Lemma setenv_refused (lines : list string) (key value : string) :
  load_env_file (Some lines) !! key = Some value ->
  setenv_ok key value = false ->
  key = "" \/ has_nul key = true \/ has_nul value = true.
Proof.
  intros Hin Hbad. apply load_env_file_keys in Hin.
  unfold setenv_ok in Hbad. rewrite Hin in Hbad.
  destruct key as [|c key]; [now left|]. right.
  cbn [String.length Nat.eqb negb andb] in Hbad.
  destruct (has_nul (String c key)); [now left|]. right.
  now destruct (has_nul value).
Qed.

(** What [load_dotenv] does to the environment, for files that can be
    read.  When it returns [True],
    the variables come from the first file, in the order of the list, that
    exists and stores at least one variable: the environment afterwards is
    the one before with the variables of that file added, a variable that
    was set before keeps its value, and no later file is read.  When it
    returns [False], no file stored a variable and the environment is as
    it was.  It raises only when a file holds a variable that is not set
    yet and that the environment refuses: an empty name, or a NUL
    character in the name or in the value. *)
Theorem dotenv_keeps_environment
    (environ : gmap string string) (env_files : list (option (list string))) :
  match load_dotenv environ env_files with
  | Some (true, environ') =>
      (exists before lines after,
          env_files = (before ++ Some lines :: after)%list
          /\ Forall (fun file => load_env_file file = ∅) before
          /\ load_env_file (Some lines) <> ∅
          /\ environ' = environ ∪ load_env_file (Some lines))
      /\ forall key value, environ !! key = Some value ->
                           environ' !! key = Some value
  | Some (false, environ') =>
      environ' = environ
      /\ Forall (fun file => load_env_file file = ∅) env_files
  | None =>
      exists before lines after key value,
        env_files = (before ++ Some lines :: after)%list
        /\ Forall (fun file => load_env_file file = ∅) before
        /\ load_env_file (Some lines) !! key = Some value
        /\ environ !! key = None
        /\ (key = "" \/ has_nul key = true \/ has_nul value = true)
  end.
Proof.
  induction env_files as [|file rest IH]; [now split|].
  cbn [load_dotenv]. destruct file as [lines|].
  - destruct (decide (load_env_file (Some lines) = ∅)) as [Hempty|Hvars].
    + destruct (load_dotenv environ rest) as [[[|] environ']|].
      * destruct IH as [(before & lines' & after & -> & Hb & Hne & ->) Hkept].
        split; [|exact Hkept].
        exists (Some lines :: before), lines', after.
        repeat split; try easy. now constructor.
      * destruct IH as [-> Hall]. split; [reflexivity | now constructor].
      * destruct IH as (before & lines' & after & key & value
                        & -> & Hb & Hin & Hnone & Hbad).
        exists (Some lines :: before), lines', after, key, value.
        repeat split; try easy. now constructor.
    + pose proof (merge_environment_spec environ (load_env_file (Some lines)))
        as Hmerge.
      destruct (merge_environment environ (load_env_file (Some lines)))
        as [environ'|].
      * subst environ'. split.
        -- exists [], lines, rest. repeat split; try easy.
        -- intros key value Hkey. now apply lookup_union_Some_l.
      * destruct Hmerge as (key & value & Hin & Hnone & Hbad).
        exists [], lines, rest, key, value. repeat split; try easy.
        now apply (setenv_refused lines).
  - destruct (load_dotenv environ rest) as [[[|] environ']|].
    + destruct IH as [(before & lines' & after & -> & Hb & Hne & ->) Hkept].
      split; [|exact Hkept].
      exists (None :: before), lines', after.
      repeat split; try easy. now constructor.
    + destruct IH as [-> Hall]. split; [reflexivity | now constructor].
    + destruct IH as (before & lines' & after & key & value
                      & -> & Hb & Hin & Hnone & Hbad).
      exists (None :: before), lines', after, key, value.
      repeat split; try easy. now constructor.
Qed.


End DotenvMore.
